(** * Usage-record persistence: SQLite store and buffering plug-in

    A shallow embedding of the Go package [internal/persistence]
    (files sqlite.go, the storage interface and the persistence plug-in)
    together with the parts of Go's [time] package and of SQLite's SQL
    functions that the package relies on.

    - A [time.Time] keeps its wall-clock reading, its nanosecond and
      its zone offset; [Format] and [Parse] work on the text itself.
    - The table usage_records is the list of its rows in rowid order;
      the timestamp column holds the text that [Format] wrote, and the
      WHERE clauses compare that text bytewise, as SQLite does.
    - SUM and AVG are SQLite's aggregate steps: an int64 running sum
      that raises "integer overflow" when it leaves the range, and a
      binary64 quotient; a float64 is a [spec_float] of the Standard
      Library with precision 53 and exponent bound 1024.
    - Failures of database calls are chosen by the environment and
      passed to each operation as a [fault].
    - The plug-in is a state machine over its buffer, its store and
      the background writes that are pending; each operation runs
      under the mutex and is one step.
    - The metrics handler, the basic-authentication middleware and the
      opening of the store take what they read from the request, the
      clock and the file system as arguments.

    Layout of the development: all definitions first (one module per
    package or library), then the facts about them. *)

From Stdlib Require Import ZArith List String Ascii Bool Lia QArith.
From Stdlib Require Import Permutation Sorted.
From Stdlib Require Import Floats.SpecFloat.
Import ListNotations.
Open Scope string_scope.
Open Scope Z_scope.

(** An option-bind notation for the fallible, straight-line parsers. *)
Notation "'do' p <- e ; k" :=
  (match e with Some p => k | None => None end)
  (at level 10, p pattern, e at level 100, k at level 200).

(* ================================================================== *)
(** * Decimal text: the digit routines of Go's [time] package *)
(* ================================================================== *)

Module decimal.

Definition digit_char (d : Z) : ascii := ascii_of_nat (48 + Z.to_nat d).

Definition digit_val (c : ascii) : option Z :=
  let n := Z.of_nat (nat_of_ascii c) in
  if (48 <=? n) && (n <=? 57) then Some (n - 48) else None.

(** [fixed w n]: the [w] low decimal digits of [n], most significant
    first, with leading zeros. *)
Fixpoint fixed (w : nat) (n : Z) : string :=
  match w with
  | O => EmptyString
  | S w' => String (digit_char (n / 10 ^ Z.of_nat w' mod 10)) (fixed w' n)
  end.

(** Number of decimal digits of [u] (1 for 0), by repeated division;
    the fuel bounds the number of divisions. *)
Fixpoint ndigits_aux (fuel : nat) (u : Z) : nat :=
  match fuel with
  | O => 1%nat
  | S f => if u <? 10 then 1%nat else S (ndigits_aux f (u / 10))
  end.

Definition ndigits (u : Z) : nat := ndigits_aux (Z.to_nat (Z.log2 u)) u.

(** [appendInt x width] (time/format.go): a minus sign for negative
    [x], then the decimal digits of [|x|] padded with zeros to at least
    [width] digits. *)
Definition appendInt (x : Z) (width : nat) : string :=
  let u := Z.abs x in
  let body := if u <? 10 ^ Z.of_nat width then fixed width u
              else fixed (ndigits u) u in
  if x <? 0 then String "-" body else body.

(** Reads exactly [w] decimal digits into an accumulator. *)
Fixpoint read_fixed (w : nat) (s : string) (acc : Z) : option (Z * string) :=
  match w with
  | O => Some (acc, s)
  | S w' =>
      match s with
      | String c s' =>
          do d <- digit_val c; read_fixed w' s' (acc * 10 + d)
      | EmptyString => None
      end
  end.

(** [getnum s fixed] (time/format.go): a one- or two-digit number; with
    [fixed] the number must have two digits. *)
Definition getnum (s : string) (fixed : bool) : option (Z * string) :=
  match s with
  | String c0 s1 =>
      do d0 <- digit_val c0;
      match s1 with
      | String c1 s2 =>
          match digit_val c1 with
          | Some d1 => Some (d0 * 10 + d1, s2)
          | None => if fixed then None else Some (d0, s1)
          end
      | EmptyString => if fixed then None else Some (d0, s1)
      end
  | EmptyString => None
  end.

(** The four-digit year of layout element "2006": the next four bytes
    must all be digits. *)
Definition longYear (s : string) : option (Z * string) := read_fixed 4 s 0.

Fixpoint cutspace (s : string) : string :=
  match s with
  | String " " s' => cutspace s'
  | _ => s
  end.

(** [skip value prefix] (time/format.go): removes the literal [prefix]
    from [value]; a space in the prefix stands for any run of spaces. *)
Fixpoint skip (value prefix : string) : option string :=
  match prefix with
  | EmptyString => Some value
  | String " " prefix' =>
      match value with
      | String c _ =>
          if Ascii.eqb c " " then skip (cutspace value) (cutspace prefix')
          else None
      | EmptyString => skip value (cutspace prefix')
      end
  | String p prefix' =>
      match value with
      | String c value' => if Ascii.eqb c p then skip value' prefix' else None
      | EmptyString => None
      end
  end.

End decimal.

(* ================================================================== *)
(** * Go's [time] package: calendar, Format and Parse *)
(* ================================================================== *)

Module gotime.
Import decimal.

(** A [time.Time] is an instant together with a location.  It is kept
    here as the wall-clock reading in its location (the values that
    [Date()] and [Clock()] return), the nanosecond within the second and
    the zone offset in seconds east of UTC. *)
Record Time := Date {
  year : Z; month : Z; day : Z;
  hour : Z; minute : Z; second : Z;
  nanosecond : Z;
  zoneOffset : Z
}.

(** The zero value of [time.Time]: January 1, year 1, 00:00:00 UTC. *)
Definition zeroTime : Time := Date 1 1 1 0 0 0 0 0.

Definition isLeap (y : Z) : bool :=
  (y mod 4 =? 0) && (negb (y mod 100 =? 0) || (y mod 400 =? 0)).

Definition daysIn (m y : Z) : Z :=
  if m =? 2 then (if isLeap y then 29 else 28)
  else if (m =? 4) || (m =? 6) || (m =? 9) || (m =? 11) then 30
  else 31.

(** [daysBefore m]: days of a non-leap year before month [m] starts. *)
Definition daysBefore (m : Z) : Z :=
  match m with
  | 1 => 0 | 2 => 31 | 3 => 59 | 4 => 90 | 5 => 120 | 6 => 151
  | 7 => 181 | 8 => 212 | 9 => 243 | 10 => 273 | 11 => 304 | 12 => 334
  | _ => 365
  end.

(** Days from January 1 of year 1 to January 1 of year [y]. *)
Definition daysSinceEpoch (y : Z) : Z :=
  let p := y - 1 in 365 * p + p / 4 - p / 100 + p / 400.

(** Zero-based day of the year. *)
Definition yearDay (y m d : Z) : Z :=
  daysBefore m + (if isLeap y && (2 <? m) then 1 else 0) + (d - 1).

(** Days from January 1 of year 1 to the given date. *)
Definition absDays (y m d : Z) : Z := daysSinceEpoch y + yearDay y m d.

(** Days since the preceding Monday (0 for a Monday): January 1 of
    year 1 is a Monday in the proleptic Gregorian calendar. *)
Definition daysAfterMonday (y m d : Z) : Z := absDays y m d mod 7.

(** The wall-clock second count of a reading (no zone applied). *)
Definition wallSeconds (t : Time) : Z :=
  absDays (year t) (month t) (day t) * 86400
  + hour t * 3600 + minute t * 60 + second t.

(** The instant, in seconds since year 1 UTC. *)
Definition absSeconds (t : Time) : Z := wallSeconds t - zoneOffset t.

Definition IsZero (t : Time) : bool :=
  (absSeconds t =? 0) && (nanosecond t =? 0).

Definition Before (t u : Time) : bool :=
  (absSeconds t <? absSeconds u)
  || ((absSeconds t =? absSeconds u) && (nanosecond t <? nanosecond u)).

Definition After (t u : Time) : bool := Before u t.

(** The reading is a real calendar date and clock time. *)
Definition validTime (t : Time) : Prop :=
  1 <= month t <= 12 /\ 1 <= day t <= daysIn (month t) (year t) /\
  0 <= hour t < 24 /\ 0 <= minute t < 60 /\ 0 <= second t < 60 /\
  0 <= nanosecond t < 1000000000.

(** The years that the four-digit layout element "2006" can carry. *)
Definition fourDigitYear (t : Time) : Prop := 0 <= year t <= 9999.

(** The reading with the sub-second part and the zone dropped: what the
    text written by [Format] still determines. *)
Definition truncSecondUTC (t : Time) : Time :=
  Date (year t) (month t) (day t) (hour t) (minute t) (second t) 0 0.

(** [t.Format("2006-01-02 15:04:05")]. *)
Definition Format (t : Time) : string :=
  appendInt (year t) 4 ++ "-" ++ appendInt (month t) 2 ++ "-" ++
  appendInt (day t) 2 ++ " " ++ appendInt (hour t) 2 ++ ":" ++
  appendInt (minute t) 2 ++ ":" ++ appendInt (second t) 2.

Definition commaOrPeriod (c : ascii) : bool :=
  Ascii.eqb c "." || Ascii.eqb c ",".

(** The run of digits at the start of [s], and what follows it. *)
Fixpoint digitRun (s : string) : list Z * string :=
  match s with
  | String c s' =>
      match digit_val c with
      | Some d => let '(ds, r) := digitRun s' in (d :: ds, r)
      | None => ([], s)
      end
  | EmptyString => ([], s)
  end.

(** Nanoseconds of a fraction given by its digits: at most nine digits
    count, scaled as [parseNanoseconds] does. *)
Fixpoint fracNanos (scale : nat) (ds : list Z) : Z :=
  match scale with
  | O => 0
  | S k =>
      match ds with
      | d :: ds' => d * 10 ^ Z.of_nat k + fracNanos k ds'
      | [] => 0
      end
  end.

(** Parse's special case after the seconds field: a fractional second
    in the input although the layout has none. *)
Definition fractional (value : string) : Z * string :=
  match value with
  | String c rest =>
      if commaOrPeriod c then
        match digitRun rest with
        | ([], _) => (0, value)
        | (ds, r) => (fracNanos 9 ds, r)
        end
      else (0, value)
  | EmptyString => (0, value)
  end.

(** [time.Parse("2006-01-02 15:04:05", value)]; [None] is an error. *)
Definition Parse (value : string) : option Time :=
  do (y, v) <- longYear value;
  do v <- skip v "-";
  do (mo, v) <- getnum v true;
  if (mo <=? 0) || (12 <? mo) then None else
  do v <- skip v "-";
  do (d, v) <- getnum v true;
  do v <- skip v " ";
  do (h, v) <- getnum v false;
  if (h <? 0) || (24 <=? h) then None else
  do v <- skip v ":";
  do (mi, v) <- getnum v true;
  if (mi <? 0) || (60 <=? mi) then None else
  do v <- skip v ":";
  do (s, v) <- getnum v true;
  if (s <? 0) || (60 <=? s) then None else
  let '(ns, v) := fractional v in
  match v with
  | String _ _ => None
  | EmptyString =>
      if (d <? 1) || (daysIn mo y <? d) then None
      else Some (Date y mo d h mi s ns 0)
  end.

(** [time.Parse("2006-W02", value)]: in a Go layout "2006" is the year
    and "02" the two-digit day of the month; "-W" is literal text.  The
    month is not in the layout and defaults to January. *)
Definition ParseYearW02 (value : string) : option Time :=
  do (y, v) <- longYear value;
  do v <- skip v "-W";
  do (d, v) <- getnum v true;
  match v with
  | String _ _ => None
  | EmptyString =>
      if (d <? 1) || (daysIn 1 y <? d) then None
      else Some (Date y 1 d 0 0 0 0 0)
  end.

(** The text that [Format] writes for a calendar time with a
    four-digit year: six zero-padded fields of fixed width. *)
Definition canonicalText (y mo d hh mi ss : Z) : string :=
  fixed 4 y ++ "-" ++ fixed 2 mo ++ "-" ++ fixed 2 d ++ " " ++
  fixed 2 hh ++ ":" ++ fixed 2 mi ++ ":" ++ fixed 2 ss.

(** [t, _ = time.Parse(...)]: on an error Parse returns the zero Time,
    and the caller drops the error. *)
Definition orZero (r : option Time) : Time :=
  match r with Some t => t | None => zeroTime end.

End gotime.

(* ================================================================== *)
(** * List helpers: stable sort by a key order, first occurrences *)
(* ================================================================== *)

Module listx.

Section Sort.
Context {A : Type} (leb : A -> A -> bool).

Fixpoint insertBy (x : A) (l : list A) : list A :=
  match l with
  | [] => [x]
  | y :: l' => if leb x y then x :: l else y :: insertBy x l'
  end.

Fixpoint sortBy (l : list A) : list A :=
  match l with
  | [] => []
  | x :: l' => insertBy x (sortBy l')
  end.

End Sort.

Definition sumZ (l : list Z) : Z := fold_right Z.add 0 l.

Definition count {A : Type} (p : A -> bool) (l : list A) : Z :=
  Z.of_nat (List.length (filter p l)).

(** All the values of a list of options, if none is missing. *)
Fixpoint collect {A : Type} (l : list (option A)) : option (list A) :=
  match l with
  | [] => Some []
  | None :: _ => None
  | Some x :: l' =>
      match collect l' with
      | Some xs => Some (x :: xs)
      | None => None
      end
  end.

(** The distinct elements of a list, in order of first occurrence. *)
Fixpoint distinctBy {K : Type} (eqb : K -> K -> bool) (l : list K) : list K :=
  match l with
  | [] => []
  | x :: l' => x :: filter (fun y => negb (eqb x y)) (distinctBy eqb l')
  end.

End listx.

(* ================================================================== *)
(** * IEEE 754 binary64: [double] in C, [float64] in Go *)
(* ================================================================== *)

Module ieee.

Definition float64 : Type := spec_float.

Definition prec : Z := 53.
Definition emax : Z := 1024.

(** Positive zero, the value of the literal [0.0]. *)
Definition zero : float64 := S754_zero false.

(** The conversion of an integer, [(double)i] and [float64(i)]:
    rounded to nearest, ties to even. *)
Definition ofInt (z : Z) : float64 := binary_normalize prec emax z 0 false.

Definition fadd (x y : float64) : float64 := SFadd prec emax x y.
Definition fsub (x y : float64) : float64 := SFsub prec emax x y.
Definition fmul (x y : float64) : float64 := SFmul prec emax x y.
Definition fdiv (x y : float64) : float64 := SFdiv prec emax x y.
Definition fabs (x : float64) : float64 := SFabs x.
Definition fltb (x y : float64) : bool := SFltb x y.

(** An infinity or a NaN. *)
Definition isInfOrNaN (x : float64) : bool :=
  match x with
  | S754_infinity _ | S754_nan => true
  | _ => false
  end.

End ieee.

(* ================================================================== *)
(** * SQLite: TEXT comparison, time values, strftime, aggregates *)
(* ================================================================== *)

Module sqlite.
Import decimal gotime listx ieee.

(** TEXT values compare bytewise (BINARY collation, memcmp order). *)
Definition textLe (a b : string) : bool := String.leb a b.
Definition textLt (a b : string) : bool := String.ltb a b.

(** A parsed time value. *)
Record DateTime := mkDateTime {
  Y : Z; M : Z; D : Z; h : Z; m : Z; s : Z
}.

Definition inRange (lo hi x : Z) : bool := (lo <=? x) && (x <=? hi).

(** The wall-clock second count of a time value, from January 1 of
    year 1. *)
Definition secondsOf (x : DateTime) : Z :=
  absDays (Y x) (M x) (D x) * 86400 + h x * 3600 + m x * 60 + s x.

(** The origin of the Julian day count: noon of November 24 of the
    year -4713 of the proleptic Gregorian calendar. *)
Definition julianOrigin : Z := absDays (-4713) 11 24 * 86400 + 43200.

(** The checks of [computeJD] and [validJulianDay]: the year is from
    -4713 to 9999 and the Julian day number is not negative (the
    largest valid one is the last millisecond of the year 9999). *)
Definition validJulianDay (x : DateTime) : bool :=
  inRange (-4713) 9999 (Y x) && (julianOrigin <=? secondsOf x).

(** The time-value form "YYYY-MM-DD HH:MM:SS" with an optional minus
    sign before the year, the forms that [Format] writes for years of
    at most four digits.  SQLite accepts further forms (date only, a
    "T" separator, fractions, zone suffixes) and renormalises day
    numbers beyond the end of a month; no stored text has these, and
    they are rejected here.  A year of five or more digits is no time
    value.  [None] stands for SQL NULL. *)
Definition parseDateTime (z : string) : option DateTime :=
  let '(neg, z) :=
    match z with
    | String "-" z' => (true, z')
    | _ => (false, z)
    end in
  do (y, v) <- read_fixed 4 z 0;
  do v <- skip v "-";
  do (mo, v) <- read_fixed 2 v 0;
  do v <- skip v "-";
  do (d, v) <- read_fixed 2 v 0;
  match v with
  | String " " v =>
      do (hh, v) <- read_fixed 2 v 0;
      do v <- skip v ":";
      do (mi, v) <- read_fixed 2 v 0;
      do v <- skip v ":";
      do (ss, v) <- read_fixed 2 v 0;
      match v with
      | EmptyString =>
          let x := mkDateTime (if neg then - y else y) mo d hh mi ss in
          if inRange 1 12 mo && inRange 1 (daysIn mo (Y x)) d
             && inRange 0 23 hh && inRange 0 59 mi && inRange 0 59 ss
             && validJulianDay x
          then Some x
          else None
      | String _ _ => None
      end
  | _ => None
  end.

(** The conversion ["%04d"] of SQLite's printf: at least four
    characters, the zeros after the sign. *)
Definition printf04d (x : Z) : string :=
  if x <? 0 then String "-" (appendInt (- x) 3) else appendInt x 4.

(** [%W]: week of the year, 00 to 53; week 01 starts on the first
    Monday of the year (days before it are in week 00). *)
Definition weekOfYear (x : DateTime) : Z :=
  (yearDay (Y x) (M x) (D x) + 7 - daysAfterMonday (Y x) (M x) (D x)) / 7.

(** The conversions of strftime that the package's formats use; any
    other conversion makes the result NULL. *)
Fixpoint render (fmt : string) (x : DateTime) : option string :=
  match fmt with
  | EmptyString => Some EmptyString
  | String "%" EmptyString => None
  | String "%" (String c rest) =>
      do tail <- render rest x;
      if Ascii.eqb c "Y" then Some (printf04d (Y x) ++ tail)
      else if Ascii.eqb c "m" then Some (fixed 2 (M x) ++ tail)
      else if Ascii.eqb c "d" then Some (fixed 2 (D x) ++ tail)
      else if Ascii.eqb c "H" then Some (fixed 2 (h x) ++ tail)
      else if Ascii.eqb c "M" then Some (fixed 2 (m x) ++ tail)
      else if Ascii.eqb c "S" then Some (fixed 2 (s x) ++ tail)
      else if Ascii.eqb c "W" then Some (fixed 2 (weekOfYear x) ++ tail)
      else None
  | String c rest => do tail <- render rest x; Some (String c tail)
  end.

(** [strftime(fmt, text)]. *)
Definition strftime (fmt text : string) : option string :=
  do x <- parseDateTime text; render fmt x.

(** *** The aggregates sum() and avg() (func.c)

    As of SQLite 3.43, where a sum of integers is kept exactly in an
    int64 and moves to compensated floating-point summation only after
    an overflow.  Earlier versions fail sum() on the same inputs, and
    their avg() agrees as long as every running sum is below 2^53 in
    magnitude. *)

Definition minInt64 : Z := - 2 ^ 63.
Definition maxInt64 : Z := 2 ^ 63 - 1.

(** [SumCtx], the context of a sum() or avg() computation. *)
Record SumCtx := mkSumCtx {
  rSum : float64;
  rErr : float64;
  iSum : Z;
  cnt : Z;
  approx : bool;
  ovrfl : bool
}.

(** The zeroed context that [sqlite3_aggregate_context] allocates. *)
Definition newSumCtx : SumCtx := mkSumCtx zero zero 0 0 false false.

(** [kahanBabuskaNeumaierStep]. *)
Definition kahanBabuskaNeumaierStep (p : SumCtx) (r : float64) : SumCtx :=
  let s := rSum p in
  let t := fadd s r in
  let err :=
    if fltb (fabs r) (fabs s)
    then fadd (rErr p) (fadd (fsub s t) r)
    else fadd (rErr p) (fadd (fsub r t) s) in
  mkSumCtx t err (iSum p) (cnt p) (approx p) (ovrfl p).

(** Integers of magnitude 2^52 and more are split into a multiple of
    16384 and the remainder ([%] of C, with the sign of the dividend). *)
Definition isBig (iVal : Z) : bool :=
  (iVal <=? - 4503599627370496) || (4503599627370496 <=? iVal).

(** [kahanBabuskaNeumaierStepInt64]. *)
Definition kahanBabuskaNeumaierStepInt64 (p : SumCtx) (iVal : Z) : SumCtx :=
  if isBig iVal then
    let iSm := Z.rem iVal 16384 in
    let iBig := iVal - iSm in
    kahanBabuskaNeumaierStep (kahanBabuskaNeumaierStep p (ofInt iBig))
                             (ofInt iSm)
  else kahanBabuskaNeumaierStep p (ofInt iVal).

(** [kahanBabuskaNeumaierInit]. *)
Definition kahanBabuskaNeumaierInit (p : SumCtx) (iVal : Z) : SumCtx :=
  if isBig iVal then
    let iSm := Z.rem iVal 16384 in
    mkSumCtx (ofInt (iVal - iSm)) (ofInt iSm)
             (iSum p) (cnt p) (approx p) (ovrfl p)
  else mkSumCtx (ofInt iVal) zero (iSum p) (cnt p) (approx p) (ovrfl p).

Definition setOverflow (p : SumCtx) : SumCtx :=
  mkSumCtx (rSum p) (rErr p) (iSum p) (cnt p) (approx p) true.

Definition setApprox (p : SumCtx) : SumCtx :=
  mkSumCtx (rSum p) (rErr p) (iSum p) (cnt p) true (ovrfl p).

(** [sumStep] on an INTEGER value (every column that the package sums
    holds integers): the count goes up; while the sum is exact the
    value is added to [iSum] with [sqlite3AddInt64], and the first
    addition that leaves the int64 range marks the overflow and moves
    the sum to the floating-point accumulator. *)
Definition sumStep (p : SumCtx) (v : Z) : SumCtx :=
  let p := mkSumCtx (rSum p) (rErr p) (iSum p) (cnt p + 1)
                    (approx p) (ovrfl p) in
  if approx p then kahanBabuskaNeumaierStepInt64 p v
  else
    let x := iSum p + v in
    if (minInt64 <=? x) && (x <=? maxInt64)
    then mkSumCtx (rSum p) (rErr p) x (cnt p) (approx p) (ovrfl p)
    else
      kahanBabuskaNeumaierStepInt64
        (setApprox (kahanBabuskaNeumaierInit (setOverflow p) (iSum p))) v.

(** The context after the values of a group, in the order in which the
    statement visits them.  SQL leaves that order open; the order of
    the rows is taken here, and the statements below are for columns
    without negative values, where the order does not matter. *)
Definition aggregate (l : list Z) : SumCtx := fold_left sumStep l newSumCtx.

(** An SQL value. *)
Inductive value : Type :=
| Null
| Integer (z : Z)
| Real (f : float64).

(** [sumFinalize]; [None] is the error "integer overflow", which fails
    the statement. *)
Definition sumFinalize (p : SumCtx) : option value :=
  if 0 <? cnt p then
    if approx p then
      if ovrfl p then None
      else if isInfOrNaN (rErr p) then Some (Real (rSum p))
      else Some (Real (fadd (rSum p) (rErr p)))
    else Some (Integer (iSum p))
  else Some Null.

(** [avgFinalize]. *)
Definition avgFinalize (p : SumCtx) : value :=
  if 0 <? cnt p then
    let r :=
      if approx p then
        if isInfOrNaN (rErr p) then rSum p else fadd (rSum p) (rErr p)
      else ofInt (iSum p) in
    Real (fdiv r (ofInt (cnt p)))
  else Null.

(** [COALESCE(SUM(col), 0)] scanned into an int64; [None] when the
    statement fails.  A REAL sum does not arise from integers (it
    would not scan into an int64). *)
Definition sum (l : list Z) : option Z :=
  match sumFinalize (aggregate l) with
  | Some (Integer z) => Some z
  | Some Null => Some 0
  | Some (Real _) => None
  | None => None
  end.

(** [COALESCE(AVG(col), 0)] scanned into a float64. *)
Definition avg (l : list Z) : float64 :=
  match avgFinalize (aggregate l) with
  | Real f => f
  | _ => zero
  end.

Definition nullableEqb (a b : option string) : bool :=
  match a, b with
  | None, None => true
  | Some x, Some y => String.eqb x y
  | _, _ => false
  end.

(** Order of [ORDER BY bucket ASC] on nullable TEXT: NULL sorts first. *)
Definition nullableLe (a b : option string) : bool :=
  match a, b with
  | None, _ => true
  | Some _, None => false
  | Some x, Some y => textLe x y
  end.

End sqlite.

(* ================================================================== *)
(** * Package persistence: the storage types (interface file) *)
(* ================================================================== *)

Module persistence.
Import decimal gotime listx ieee sqlite.

(** Go's [error]: [None] is nil. *)
Definition error := option string.

(** A value-or-error result of a read operation. *)
Inductive result (A : Type) : Type :=
| Ok (a : A)
| Err (msg : string).
Arguments Ok {A} a.
Arguments Err {A} msg.

Module UsageRecord.
Record t := mk {
  ID : Z;
  Timestamp : Time;
  CreatedAt : Time;
  RequestID : string;
  APIKey : string;
  Source : string;
  AuthID : string;
  Provider : string;
  Model : string;
  PromptTokens : Z;
  CompletionTokens : Z;
  ReasoningTokens : Z;
  CachedTokens : Z;
  TotalTokens : Z;
  Status : Z;
  Failed : bool;
  LatencyMs : Z
}.
End UsageRecord.

Module QueryFilter.
(** Pointer fields ([*time.Time], [*bool]) are options: [None] is nil. *)
Record t := mk {
  From : option Time;
  To : option Time;
  Model : string;
  APIKey : string;
  Provider : string;
  Failed : option bool;
  Limit : Z;
  Offset : Z
}.
End QueryFilter.

Module TotalMetrics.
Record t := mk {
  Requests : Z;
  Tokens : Z;
  PromptTokens : Z;
  CompletionTokens : Z;
  ReasoningTokens : Z;
  CachedTokens : Z;
  FailedRequests : Z;
  SuccessRequests : Z;
  AvgLatencyMs : float64
}.
End TotalMetrics.

Module ModelMetrics.
Record t := mk {
  Model : string;
  Requests : Z;
  Tokens : Z;
  PromptTokens : Z;
  CompletionTokens : Z;
  AvgLatencyMs : float64;
  FailedRequests : Z
}.
End ModelMetrics.

Module TimeseriesPoint.
Record t := mk {
  BucketStart : Time;
  Requests : Z;
  Tokens : Z;
  PromptTokens : Z;
  CompletionTokens : Z;
  AvgLatencyMs : float64;
  FailedRequests : Z
}.
End TimeseriesPoint.

(* ---------------------------------------------------------------- *)
(** ** The table usage_records (schema.sql) *)

(** One row; [created_at] is the only nullable column that the code
    reads through a [sql.NullString] and that Insert leaves to its
    default. *)
Record Row := mkRow {
  id : Z;
  timestamp : string;
  created_at : option string;
  request_id : string;
  api_key : string;
  source : string;
  auth_id : string;
  provider : string;
  model : string;
  prompt_tokens : Z;
  completion_tokens : Z;
  reasoning_tokens : Z;
  cached_tokens : Z;
  total_tokens : Z;
  status : Z;
  failed : bool;
  latency_ms : Z
}.

(** The database behind a [SQLiteStorage]: the committed rows in rowid
    order and the AUTOINCREMENT counter (table sqlite_sequence). *)
Record DB := mkDB {
  rows : list Row;
  seq : Z
}.

Definition emptyDB : DB := mkDB [] 0.

(** Outcome of the database calls of one operation, chosen by the
    environment (I/O failure, lock contention, cancelled context). *)
Inductive fault : Type :=
| NoFault
| BeginFails
| PrepareFails
| ExecFails (i : nat)
| CommitFails.

Definition failsAtExec (f : fault) (i : nat) : bool :=
  match f with
  | ExecFails j => Nat.eqb i j
  | _ => false
  end.

Definition isNoFault (f : fault) : bool :=
  match f with NoFault => true | _ => false end.

(** The row that the INSERT statement of [Insert] and [InsertBatch]
    writes: the timestamp is bound as the text
    [record.Timestamp.Format("2006-01-02 15:04:05")]; id and created_at
    are not bound and take the AUTOINCREMENT value [newId] and
    CURRENT_TIMESTAMP ([now], the text of the database clock). *)
Definition rowOf (newId : Z) (now : string) (record : UsageRecord.t) : Row :=
  {| id := newId;
     timestamp := Format (UsageRecord.Timestamp record);
     created_at := Some now;
     request_id := UsageRecord.RequestID record;
     api_key := UsageRecord.APIKey record;
     source := UsageRecord.Source record;
     auth_id := UsageRecord.AuthID record;
     provider := UsageRecord.Provider record;
     model := UsageRecord.Model record;
     prompt_tokens := UsageRecord.PromptTokens record;
     completion_tokens := UsageRecord.CompletionTokens record;
     reasoning_tokens := UsageRecord.ReasoningTokens record;
     cached_tokens := UsageRecord.CachedTokens record;
     total_tokens := UsageRecord.TotalTokens record;
     status := UsageRecord.Status record;
     failed := UsageRecord.Failed record;
     latency_ms := UsageRecord.LatencyMs record |}.

Definition insertedRow (d : DB) (now : string) (record : UsageRecord.t) : Row :=
  rowOf (seq d + 1) now record.

Definition execInsert (d : DB) (now : string) (record : UsageRecord.t) : DB :=
  {| rows := rows d ++ [insertedRow d now record]; seq := seq d + 1 |}.

(** [Insert]: one statement outside any transaction. *)
Definition Insert (d : DB) (now : string) (f : fault) (record : UsageRecord.t)
  : DB * error :=
  if isNoFault f then (execInsert d now record, None)
  else (d, Some "failed to insert record").

(** The loop of [InsertBatch] over the prepared statement, run on the
    transaction's working state [tx]; [None] when a statement fails. *)
Fixpoint execBatch (tx : DB) (now : string) (f : fault) (i : nat)
  (records : list UsageRecord.t) : option DB :=
  match records with
  | [] => Some tx
  | record :: rest =>
      if failsAtExec f i then None
      else execBatch (execInsert tx now record) now f (S i) rest
  end.

(** [InsertBatch]: the transaction works on its own copy of the state;
    only Commit installs it, and every error return runs the deferred
    [tx.Rollback()], which leaves the committed state [d]. *)
Definition InsertBatch (d : DB) (now : string) (f : fault)
  (records : list UsageRecord.t) : DB * error :=
  match records with
  | [] => (d, None)
  | _ =>
      match f with
      | BeginFails => (d, Some "failed to begin transaction")
      | PrepareFails => (d, Some "failed to prepare statement")
      | _ =>
          match execBatch d now f 0 records with
          | None => (d, Some "failed to insert record")
          | Some tx =>
              match f with
              | CommitFails => (d, Some "failed to commit transaction")
              | _ => (tx, None)
              end
          end
      end
  end.

(** The row scan of [Query]: timestamps are parsed back with
    [time.Parse], a parse error leaving the zero Time. *)
Definition scanRow (r : Row) : UsageRecord.t :=
  {| UsageRecord.ID := id r;
     UsageRecord.Timestamp := orZero (Parse (timestamp r));
     UsageRecord.CreatedAt :=
       match created_at r with
       | Some c => orZero (Parse c)
       | None => zeroTime
       end;
     UsageRecord.RequestID := request_id r;
     UsageRecord.APIKey := api_key r;
     UsageRecord.Source := source r;
     UsageRecord.AuthID := auth_id r;
     UsageRecord.Provider := provider r;
     UsageRecord.Model := model r;
     UsageRecord.PromptTokens := prompt_tokens r;
     UsageRecord.CompletionTokens := completion_tokens r;
     UsageRecord.ReasoningTokens := reasoning_tokens r;
     UsageRecord.CachedTokens := cached_tokens r;
     UsageRecord.TotalTokens := total_tokens r;
     UsageRecord.Status := status r;
     UsageRecord.Failed := failed r;
     UsageRecord.LatencyMs := latency_ms r |}.

(** A time bound of the filter is applied when the pointer is set and
    the time is not the zero Time. *)
Definition boundSet (b : option Time) : option Time :=
  match b with
  | Some t => if IsZero t then None else Some t
  | None => None
  end.

(** The WHERE clause that [Query] builds from the filter. *)
Definition whereClause (filter : QueryFilter.t) (r : Row) : bool :=
  match boundSet (QueryFilter.From filter) with
  | Some t => textLe (Format t) (timestamp r)
  | None => true
  end
  && match boundSet (QueryFilter.To filter) with
     | Some t => textLe (timestamp r) (Format t)
     | None => true
     end
  && (if String.eqb (QueryFilter.Provider filter) "" then true
      else String.eqb (provider r) (QueryFilter.Provider filter))
  && (if String.eqb (QueryFilter.Model filter) "" then true
      else String.eqb (model r) (QueryFilter.Model filter))
  && (if String.eqb (QueryFilter.APIKey filter) "" then true
      else String.eqb (api_key r) (QueryFilter.APIKey filter))
  && match QueryFilter.Failed filter with
     | Some b => Bool.eqb (failed r) b
     | None => true
     end.

(** [ORDER BY timestamp DESC].  SQL leaves the order of rows with equal
    timestamps open; the stable choice is made here, and no statement
    below depends on it. *)
Definition orderByTimestampDesc (l : list Row) : list Row :=
  sortBy (fun a b => textLe (timestamp b) (timestamp a)) l.

(** [LIMIT ?], added only for a positive limit. *)
Definition limitClause (limit : Z) (l : list Row) : list Row :=
  if 0 <? limit then firstn (Z.to_nat limit) l else l.

(** [Query].  The Offset field of the filter is not read. *)
Definition Query (d : DB) (f : fault) (filter : QueryFilter.t)
  : result (list UsageRecord.t) :=
  if isNoFault f then
    Ok (map scanRow
          (limitClause (QueryFilter.Limit filter)
             (orderByTimestampDesc
                (List.filter (whereClause filter) (rows d)))))
  else Err "failed to query records".

(** [WHERE timestamp >= ? AND timestamp <= ?] with both bounds bound as
    formatted text. *)
Definition inWindow (from to : Time) (r : Row) : bool :=
  textLe (Format from) (timestamp r) && textLe (timestamp r) (Format to).

Definition isFailed (r : Row) : bool := failed r.
Definition isSuccess (r : Row) : bool := negb (failed r).

(** [GetTotals].  The statement is one row of aggregates; a sum that
    leaves the int64 range fails it, and [Scan] returns the error.  The
    two sums of 0 and 1 over [failed] are counts of rows. *)
Definition GetTotals (d : DB) (f : fault) (from to : Time)
  : result TotalMetrics.t :=
  if isNoFault f then
    let sel := filter (inWindow from to) (rows d) in
    match sum (map total_tokens sel), sum (map prompt_tokens sel),
          sum (map completion_tokens sel), sum (map reasoning_tokens sel),
          sum (map cached_tokens sel) with
    | Some tokens, Some prompt, Some completion, Some reasoning,
      Some cached =>
        Ok {| TotalMetrics.Requests := Z.of_nat (List.length sel);
              TotalMetrics.Tokens := tokens;
              TotalMetrics.PromptTokens := prompt;
              TotalMetrics.CompletionTokens := completion;
              TotalMetrics.ReasoningTokens := reasoning;
              TotalMetrics.CachedTokens := cached;
              TotalMetrics.FailedRequests := count isFailed sel;
              TotalMetrics.SuccessRequests := count isSuccess sel;
              TotalMetrics.AvgLatencyMs := avg (map latency_ms sel) |}
    | _, _, _, _, _ => Err "failed to get totals"
    end
  else Err "failed to get totals".

(** The three sums of the select lists of [GetByModel] and
    [GetTimeseries] over one group; [None] when one of them leaves the
    int64 range. *)
Definition groupSums (g : list Row) : option (Z * Z * Z) :=
  match sum (map total_tokens g), sum (map prompt_tokens g),
        sum (map completion_tokens g) with
  | Some tokens, Some prompt, Some completion =>
      Some (tokens, prompt, completion)
  | _, _, _ => None
  end.

(** The select list of [GetByModel] for the group of one model. *)
Definition modelGroup (name : string) (g : list Row)
  : option ModelMetrics.t :=
  match groupSums g with
  | Some (tokens, prompt, completion) =>
      Some {| ModelMetrics.Model := name;
              ModelMetrics.Requests := Z.of_nat (List.length g);
              ModelMetrics.Tokens := tokens;
              ModelMetrics.PromptTokens := prompt;
              ModelMetrics.CompletionTokens := completion;
              ModelMetrics.AvgLatencyMs := avg (map latency_ms g);
              ModelMetrics.FailedRequests := count isFailed g |}
  | None => None
  end.

(** [GetByModel]: GROUP BY model, ORDER BY total_tokens DESC (the
    alias of the sum; ties in an order the statements below do not
    depend on).  The order by an aggregate makes SQLite finish every
    group before the first result row, which the driver fetches inside
    [QueryContext]: a sum that leaves the int64 range in any group
    fails the query. *)
Definition GetByModel (d : DB) (f : fault) (from to : Time)
  : result (list ModelMetrics.t) :=
  if isNoFault f then
    let sel := filter (inWindow from to) (rows d) in
    let groups :=
      map (fun name =>
             modelGroup name
               (filter (fun r => String.eqb (model r) name) sel))
          (distinctBy String.eqb (map model sel)) in
    match collect groups with
    | Some groups =>
        Ok (sortBy (fun a b => ModelMetrics.Tokens b <=? ModelMetrics.Tokens a)
              groups)
    | None => Err "failed to query by model"
    end
  else Err "failed to query by model".

(** The switch of [GetTimeseries] on the interval. *)
Definition timeFormat (interval : string) : string :=
  if String.eqb interval "hour" then "%Y-%m-%d %H:00:00"
  else if String.eqb interval "day" then "%Y-%m-%d 00:00:00"
  else if String.eqb interval "week" then "%Y-W%W"
  else if String.eqb interval "month" then "%Y-%m-01 00:00:00"
  else "%Y-%m-%d %H:00:00".

(** The bucket column of a row. *)
Definition bucketOf (interval : string) (r : Row) : option string :=
  strftime (timeFormat interval) (timestamp r).

(** The SQL part of [GetTimeseries]: one result row per bucket, in
    ascending bucket order. *)
Definition timeseriesRows (interval : string) (sel : list Row)
  : list (option string * list Row) :=
  map (fun b => (b, filter (fun r => nullableEqb (bucketOf interval r) b) sel))
      (sortBy nullableLe
         (distinctBy nullableEqb (map (bucketOf interval) sel))).

(** Parsing a bucket key back into BucketStart. *)
Definition parseBucket (interval bucket : string) : Time :=
  if String.eqb interval "week" then orZero (ParseYearW02 bucket)
  else orZero (Parse bucket).

(** The loop of [GetTimeseries] over the result rows: NULL and empty
    buckets are skipped.  The groups come out in bucket order, each one
    finished when its result row is fetched; at a group with a sum that
    leaves the int64 range [rows.Next()] returns false, and the loop
    ends with the points it has ([rows.Err()] is not looked at). *)
Fixpoint scanTimeseries (interval : string)
  (rs : list (option string * list Row)) : list TimeseriesPoint.t :=
  match rs with
  | [] => []
  | (b, g) :: rest =>
      match groupSums g with
      | None => []
      | Some (tokens, prompt, completion) =>
          match b with
          | None => scanTimeseries interval rest
          | Some key =>
              if String.eqb key "" then scanTimeseries interval rest
              else
                {| TimeseriesPoint.BucketStart := parseBucket interval key;
                   TimeseriesPoint.Requests := Z.of_nat (List.length g);
                   TimeseriesPoint.Tokens := tokens;
                   TimeseriesPoint.PromptTokens := prompt;
                   TimeseriesPoint.CompletionTokens := completion;
                   TimeseriesPoint.AvgLatencyMs := avg (map latency_ms g);
                   TimeseriesPoint.FailedRequests := count isFailed g |}
                :: scanTimeseries interval rest
          end
      end
  end.

(** [GetTimeseries].  The driver fetches the first result row inside
    [QueryContext]: a failure of the first group fails the query, a
    failure of a later group ends the loop. *)
Definition GetTimeseries (d : DB) (f : fault) (from to : Time)
  (interval : string) : result (list TimeseriesPoint.t) :=
  if isNoFault f then
    let rs := timeseriesRows interval (filter (inWindow from to) (rows d)) in
    match rs with
    | (_, g) :: _ =>
        match groupSums g with
        | Some _ => Ok (scanTimeseries interval rs)
        | None => Err "failed to query timeseries"
        end
    | [] => Ok []
    end
  else Err "failed to query timeseries".

(** [Cleanup]: DELETE ... WHERE timestamp < ?, returning RowsAffected. *)
Definition Cleanup (d : DB) (f : fault) (olderThan : Time)
  : DB * (Z * error) :=
  if isNoFault f then
    let olderThanStr := Format olderThan in
    let doomed r := textLt (timestamp r) olderThanStr in
    ({| rows := filter (fun r => negb (doomed r)) (rows d); seq := seq d |},
     (count doomed (rows d), None))
  else (d, (0, Some "failed to cleanup records")).

(** [GetRecordCount]. *)
Definition GetRecordCount (d : DB) (f : fault) : result Z :=
  if isNoFault f then Ok (Z.of_nat (List.length (rows d)))
  else Err "failed to get record count".

(* ---------------------------------------------------------------- *)
(** ** The persistence plug-in (buffer and flush controller) *)

Module Detail.
(** Modelled from the spec: the token detail of [coreusage.Record]
    (package sdk/cliproxy/usage, not among the sources at hand), with
    the fields that [convertRecord] reads. *)
Record t := mk {
  InputTokens : Z;
  OutputTokens : Z;
  ReasoningTokens : Z;
  CachedTokens : Z;
  TotalTokens : Z
}.
End Detail.

Module CoreRecord.
(** Modelled from the spec: the type [coreusage.Record] (package
    sdk/cliproxy/usage, not among the sources at hand), with the fields
    that [convertRecord] reads. *)
Record t := mk {
  RequestedAt : Time;
  APIKey : string;
  Source : string;
  AuthID : string;
  Provider : string;
  Model : string;
  Detail : Detail.t;
  Failed : bool
}.
End CoreRecord.

(** The non-nil value of the [Storage] interface: a handle on the one
    store of the process. *)
Inductive Storage : Type := theStore.

(** [PersistencePlugin].  The mutex is not a field here: every
    operation below is one critical section, or a sequence of them.
    [stopCh] records whether the channel has been closed. *)
Record PersistencePlugin := mkPlugin {
  storage : option Storage;
  buffer : list UsageRecord.t;
  bufferSize : Z;
  flushInterval : Z;
  stopCh : bool;
  stopped : bool
}.

(** The plug-in together with what it shares with the rest of the
    process: the database of its storage and the batches handed to
    background writers that have not run yet. *)
Record World := mkWorld {
  plugin : PersistencePlugin;
  db : DB;
  inflight : list (list UsageRecord.t)
}.

(** How a call ends: it returns, or the goroutine panics. *)
Inductive outcome (A : Type) : Type :=
| Returns (a : A)
| Panics (msg : string).
Arguments Returns {A} a.
Arguments Panics {A} msg.

Definition second_ns : Z := 1000000000.

(** [NewPersistencePlugin]. *)
Definition NewPersistencePlugin (st : option Storage) (size interval : Z)
  : PersistencePlugin :=
  let size := if size <=? 0 then 100 else size in
  let interval := if interval <=? 0 then 10 * second_ns else interval in
  {| storage := st; buffer := []; bufferSize := size;
     flushInterval := interval; stopCh := false; stopped := false |}.

(** [convertRecord]; [now] is the reading of [time.Now()]. *)
Definition convertRecord (now : Time) (record : CoreRecord.t) : UsageRecord.t :=
  let timestamp :=
    if IsZero (CoreRecord.RequestedAt record) then now
    else CoreRecord.RequestedAt record in
  let status := if CoreRecord.Failed record then 500 else 200 in
  {| UsageRecord.ID := 0;
     UsageRecord.Timestamp := timestamp;
     UsageRecord.CreatedAt := zeroTime;
     UsageRecord.RequestID := "";
     UsageRecord.APIKey := CoreRecord.APIKey record;
     UsageRecord.Source := CoreRecord.Source record;
     UsageRecord.AuthID := CoreRecord.AuthID record;
     UsageRecord.Provider := CoreRecord.Provider record;
     UsageRecord.Model := CoreRecord.Model record;
     UsageRecord.PromptTokens := Detail.InputTokens (CoreRecord.Detail record);
     UsageRecord.CompletionTokens :=
       Detail.OutputTokens (CoreRecord.Detail record);
     UsageRecord.ReasoningTokens :=
       Detail.ReasoningTokens (CoreRecord.Detail record);
     UsageRecord.CachedTokens := Detail.CachedTokens (CoreRecord.Detail record);
     UsageRecord.TotalTokens := Detail.TotalTokens (CoreRecord.Detail record);
     UsageRecord.Status := status;
     UsageRecord.Failed := CoreRecord.Failed record;
     UsageRecord.LatencyMs := 0 |}.

Definition setBuffer (p : PersistencePlugin) (b : list UsageRecord.t)
  : PersistencePlugin :=
  {| storage := storage p; buffer := b; bufferSize := bufferSize p;
     flushInterval := flushInterval p; stopCh := stopCh p;
     stopped := stopped p |}.

Definition setStopped (p : PersistencePlugin) : PersistencePlugin :=
  {| storage := storage p; buffer := buffer p; bufferSize := bufferSize p;
     flushInterval := flushInterval p; stopCh := stopCh p;
     stopped := true |}.

Definition closeStopCh (p : PersistencePlugin) : PersistencePlugin :=
  {| storage := storage p; buffer := buffer p; bufferSize := bufferSize p;
     flushInterval := flushInterval p; stopCh := true;
     stopped := stopped p |}.

(** [flushLocked]: the buffer is copied and cleared, and the copy is
    handed to a new background writer. *)
Definition flushLocked (w : World) : World :=
  match buffer (plugin w) with
  | [] => w
  | toFlush =>
      {| plugin := setBuffer (plugin w) []; db := db w;
         inflight := inflight w ++ [toFlush] |}
  end.

(** [HandleUsage] (the receiver is a plug-in held by the world, hence
    not nil). *)
Definition HandleUsage (w : World) (now : Time) (record : CoreRecord.t)
  : World :=
  match storage (plugin w) with
  | None => w
  | Some _ =>
      if stopped (plugin w) then w
      else
        let persRecord := convertRecord now record in
        let w1 :=
          {| plugin := setBuffer (plugin w) (buffer (plugin w) ++ [persRecord]);
             db := db w; inflight := inflight w |} in
        if bufferSize (plugin w1) <=? Z.of_nat (List.length (buffer (plugin w1)))
        then flushLocked w1
        else w1
  end.

(** One firing of the ticker in the goroutine of [startFlushTimer]. *)
Definition timerTick (w : World) : World :=
  if negb (stopped (plugin w))
     && (0 <? Z.of_nat (List.length (buffer (plugin w))))
  then flushLocked w
  else w.

(** The [i]-th waiting background writer runs: it inserts its batch
    and logs the outcome. *)
Definition backgroundWrite (w : World) (i : nat) (now : string) (f : fault)
  : World :=
  match nth_error (inflight w) i with
  | None => w
  | Some toFlush =>
      {| plugin := plugin w;
         db := fst (InsertBatch (db w) now f toFlush);
         inflight := firstn i (inflight w) ++ skipn (S i) (inflight w) |}
  end.

(** [Flush]: the synchronous flush. *)
Definition Flush (w : World) (now : string) (f : fault)
  : outcome (World * error) :=
  match buffer (plugin w) with
  | [] => Returns (w, None)
  | toFlush =>
      match storage (plugin w) with
      | None => Panics "nil pointer dereference"
      | Some _ =>
          let '(d, e) := InsertBatch (db w) now f toFlush in
          Returns ({| plugin := setBuffer (plugin w) []; db := d;
                      inflight := inflight w |}, e)
      end
  end.

(** [Stop].  The mutex is released once the flag is set; whatever
    runs before the final flush finds the flag set (a submit, a tick or
    another Stop then does nothing), so the call is kept in one step. *)
Definition Stop (w : World) (now : string) (f : fault)
  : outcome (World * error) :=
  if stopped (plugin w) then Returns (w, None)
  else
    let p1 := setStopped (plugin w) in
    if stopCh p1 then Panics "close of closed channel"
    else
      Flush {| plugin := closeStopCh p1; db := db w; inflight := inflight w |}
            now f.

(** The operations that goroutines of the process perform on the
    plug-in and its store. *)
Inductive op : Type :=
| OpHandleUsage (now : Time) (record : CoreRecord.t)
| OpTimerTick
| OpBackgroundWrite (i : nat) (now : string) (f : fault)
| OpFlush (now : string) (f : fault)
| OpStop (now : string) (f : fault).

Definition step (w : World) (o : op) : outcome World :=
  match o with
  | OpHandleUsage now record => Returns (HandleUsage w now record)
  | OpTimerTick => Returns (timerTick w)
  | OpBackgroundWrite i now f => Returns (backgroundWrite w i now f)
  | OpFlush now f =>
      match Flush w now f with
      | Returns (w', _) => Returns w'
      | Panics msg => Panics msg
      end
  | OpStop now f =>
      match Stop w now f with
      | Returns (w', _) => Returns w'
      | Panics msg => Panics msg
      end
  end.

Fixpoint run (w : World) (ops : list op) : outcome World :=
  match ops with
  | [] => Returns w
  | o :: rest =>
      match step w o with
      | Returns w' => run w' rest
      | Panics msg => Panics msg
      end
  end.

End persistence.

(* ================================================================== *)
(** * Notions used to state the properties *)
(* ================================================================== *)

Module spec.
Import decimal gotime listx ieee sqlite persistence.

(** The event timestamp of a persisted row, as [Query] reports it. *)
Definition rowTime (r : Row) : Time := orZero (Parse (timestamp r)).

(** Rows as [Insert] and [InsertBatch] write them for records whose
    timestamp is a calendar time with a four-digit year. *)
Definition canonicalRow (r : Row) : Prop :=
  exists t, validTime t /\ fourDigitYear t /\ timestamp r = Format t.

Definition canonicalDB (d : DB) : Prop := Forall canonicalRow (rows d).

Definition validRecord (record : UsageRecord.t) : Prop :=
  validTime (UsageRecord.Timestamp record)
  /\ fourDigitYear (UsageRecord.Timestamp record).

(** The rows that a batch becomes, with consecutive identifiers from
    [next] on. *)
Fixpoint persistedRows (next : Z) (now : string)
  (records : list UsageRecord.t) : list Row :=
  match records with
  | [] => []
  | record :: rest => rowOf next now record :: persistedRows (next + 1) now rest
  end.

(** The filter without any field set. *)
Definition noFilter : QueryFilter.t :=
  QueryFilter.mk None None "" "" "" None 0 0.

Definition withOffset (filter : QueryFilter.t) (offset : Z) : QueryFilter.t :=
  QueryFilter.mk (QueryFilter.From filter) (QueryFilter.To filter)
    (QueryFilter.Model filter) (QueryFilter.APIKey filter)
    (QueryFilter.Provider filter) (QueryFilter.Failed filter)
    (QueryFilter.Limit filter) offset.

(** *** Time windows, read on instants *)

(** [t] lies in the closed window from [from] to [to], as instants. *)
Definition instantInWindow (from to t : Time) : bool :=
  negb (Before t from) && negb (After t to).

(** *** Time windows, read on wall-clock seconds *)

(** The same window at the resolution of the stored text: whole
    seconds of the wall-clock readings, zones not applied. *)
Definition secondInWindow (from to t : Time) : bool :=
  (wallSeconds from <=? wallSeconds t) && (wallSeconds t <=? wallSeconds to).

Definition secondBefore (t u : Time) : bool :=
  wallSeconds t <? wallSeconds u.

(** *** The filter of Query, field by field *)

Definition fieldsMatch (filter : QueryFilter.t) (r : Row) : bool :=
  (if String.eqb (QueryFilter.Provider filter) "" then true
   else String.eqb (provider r) (QueryFilter.Provider filter))
  && (if String.eqb (QueryFilter.Model filter) "" then true
      else String.eqb (model r) (QueryFilter.Model filter))
  && (if String.eqb (QueryFilter.APIKey filter) "" then true
      else String.eqb (api_key r) (QueryFilter.APIKey filter))
  && match QueryFilter.Failed filter with
     | Some b => Bool.eqb (failed r) b
     | None => true
     end.

(** A row matches every set field, the window read on instants. *)
Definition matchesInstant (filter : QueryFilter.t) (r : Row) : bool :=
  match boundSet (QueryFilter.From filter) with
  | Some t => negb (Before (rowTime r) t)
  | None => true
  end
  && match boundSet (QueryFilter.To filter) with
     | Some t => negb (After (rowTime r) t)
     | None => true
     end
  && fieldsMatch filter r.

(** A row matches every set field, the window read on wall-clock
    seconds. *)
Definition matchesSecond (filter : QueryFilter.t) (r : Row) : bool :=
  match boundSet (QueryFilter.From filter) with
  | Some t => wallSeconds t <=? wallSeconds (rowTime r)
  | None => true
  end
  && match boundSet (QueryFilter.To filter) with
     | Some t => wallSeconds (rowTime r) <=? wallSeconds t
     | None => true
     end
  && fieldsMatch filter r.

Definition boundValid (b : option Time) : Prop :=
  match b with
  | Some t => validTime t /\ fourDigitYear t
  | None => True
  end.

(** Newest first, on the wall-clock seconds of the stored timestamps. *)
Definition newestFirst (a b : Row) : Prop :=
  wallSeconds (rowTime b) <= wallSeconds (rowTime a).

(** The result cap of Query. *)
Definition capped (limit : Z) (l : list Row) : list Row :=
  if 0 <? limit then firstn (Z.to_nat limit) l else l.

(** The float64 mean of the integers [l]: their sum divided by their
    number, both converted to float64 (0 for no integers). *)
Definition mean64 (l : list Z) : float64 :=
  match l with
  | [] => zero
  | _ => fdiv (ofInt (sumZ l)) (ofInt (Z.of_nat (List.length l)))
  end.

(** The context of sum() and avg() while the sum is exact. *)
Definition exactCtx (total n : Z) : SumCtx :=
  mkSumCtx zero zero total n false false.

(** The token counts and the latency of a row are not negative. *)
Definition nonNegativeRow (r : Row) : Prop :=
  0 <= total_tokens r /\ 0 <= prompt_tokens r /\ 0 <= completion_tokens r
  /\ 0 <= reasoning_tokens r /\ 0 <= cached_tokens r /\ 0 <= latency_ms r.

Definition nonNegativeDB (d : DB) : Prop := Forall nonNegativeRow (rows d).

(** The five token sums of [GetTotals] over the rows [sel] are within
    the int64 range. *)
Definition totalsFit (sel : list Row) : Prop :=
  sumZ (map total_tokens sel) <= maxInt64
  /\ sumZ (map prompt_tokens sel) <= maxInt64
  /\ sumZ (map completion_tokens sel) <= maxInt64
  /\ sumZ (map reasoning_tokens sel) <= maxInt64
  /\ sumZ (map cached_tokens sel) <= maxInt64.

(** The three token sums of a group are within the int64 range. *)
Definition groupFits (g : list Row) : Prop :=
  sumZ (map total_tokens g) <= maxInt64
  /\ sumZ (map prompt_tokens g) <= maxInt64
  /\ sumZ (map completion_tokens g) <= maxInt64.

(** The rows of model [name] among [sel]. *)
Definition ofModel (name : string) (sel : list Row) : list Row :=
  filter (fun r => String.eqb (model r) name) sel.

(** Aggregate row [mm] describes the rows [g]. *)
Definition describes (mm : ModelMetrics.t) (g : list Row) : Prop :=
  ModelMetrics.Requests mm = Z.of_nat (List.length g)
  /\ ModelMetrics.Tokens mm = sumZ (map total_tokens g)
  /\ ModelMetrics.PromptTokens mm = sumZ (map prompt_tokens g)
  /\ ModelMetrics.CompletionTokens mm = sumZ (map completion_tokens g)
  /\ (sumZ (map latency_ms g) <= maxInt64 ->
      ModelMetrics.AvgLatencyMs mm = mean64 (map latency_ms g))
  /\ ModelMetrics.FailedRequests mm = count failed g.

(** *** The properties as first stated, on instants *)

(** Cleanup deletes exactly the rows strictly before the cut-off and
    returns their number. *)
Definition cleanupOnInstants (d : DB) (olderThan : Time) : Prop :=
  let '(d', (n, e)) := Cleanup d NoFault olderThan in
  rows d' = filter (fun r => negb (Before (rowTime r) olderThan)) (rows d)
  /\ n = count (fun r => Before (rowTime r) olderThan) (rows d)
  /\ e = None.

(** GetTotals counts exactly the rows inside the window. *)
Definition totalsOnInstants (d : DB) (from to : Time) : Prop :=
  exists m, GetTotals d NoFault from to = Ok m
    /\ TotalMetrics.Requests m
       = count (fun r => instantInWindow from to (rowTime r)) (rows d).

(** Query returns only rows that match the filter. *)
Definition queryOnInstants (d : DB) (filter : QueryFilter.t) : Prop :=
  exists q, Query d NoFault filter = Ok q
    /\ forall r, In r q ->
         exists row, In row (rows d) /\ r = scanRow row
                     /\ matchesInstant filter row = true.

(** GetByModel has a row only for models of rows inside the window. *)
Definition byModelOnInstants (d : DB) (from to : Time) : Prop :=
  exists ms, GetByModel d NoFault from to = Ok ms
    /\ forall mm, In mm ms ->
         exists r, In r (rows d)
                   /\ instantInWindow from to (rowTime r) = true
                   /\ model r = ModelMetrics.Model mm.

(** The record [record] has become a row of [d], and an unfiltered
    Query reads it back with the timestamp cut to the whole second of
    its wall-clock reading, in UTC. *)
Definition readsBackTruncated (d : DB) (now : string)
  (record : UsageRecord.t) : Prop :=
  exists newId q,
    In (rowOf newId now record) (rows d)
    /\ timestamp (rowOf newId now record)
       = Format (UsageRecord.Timestamp record)
    /\ Query d NoFault noFilter = Ok q
    /\ In (scanRow (rowOf newId now record)) q
    /\ UsageRecord.Timestamp (scanRow (rowOf newId now record))
       = truncSecondUTC (UsageRecord.Timestamp record).

(** What holds of every plug-in the package builds and runs: the stop
    channel is closed exactly when the plug-in is stopped, and nothing
    is buffered without a storage. *)
Definition pluginInv (w : World) : Prop :=
  stopCh (plugin w) = stopped (plugin w)
  /\ (storage (plugin w) = None -> buffer (plugin w) = []).

End spec.

(* ================================================================== *)
(** * Concrete data *)
(* ================================================================== *)

Module examples.
Import decimal gotime listx sqlite persistence spec.

(** A UTC time on a whole second. *)
Definition utc (y mo d hh mi ss : Z) : Time := Date y mo d hh mi ss 0 0.

(** A usage record as the tests build them. *)
Definition usage (ts : Time) (prov mdl : string) (prompt completion total : Z)
  (isFailed : bool) : UsageRecord.t :=
  {| UsageRecord.ID := 0;
     UsageRecord.Timestamp := ts;
     UsageRecord.CreatedAt := zeroTime;
     UsageRecord.RequestID := "";
     UsageRecord.APIKey := "";
     UsageRecord.Source := "";
     UsageRecord.AuthID := "";
     UsageRecord.Provider := prov;
     UsageRecord.Model := mdl;
     UsageRecord.PromptTokens := prompt;
     UsageRecord.CompletionTokens := completion;
     UsageRecord.ReasoningTokens := 0;
     UsageRecord.CachedTokens := 0;
     UsageRecord.TotalTokens := total;
     UsageRecord.Status := if isFailed then 500 else 200;
     UsageRecord.Failed := isFailed;
     UsageRecord.LatencyMs := 0 |}.

(** The text of the database clock in the examples. *)
Definition clock : string := "2025-06-01 00:00:00".

(** The store after a successful batch insert into an empty database. *)
Definition stored (records : list UsageRecord.t) : DB :=
  fst (InsertBatch emptyDB clock NoFault records).

Definition noon : Time := utc 2025 6 1 12 0 0.

(** Three records in one batch (TestInsertBatch). *)
Definition batch3 : list UsageRecord.t :=
  [ usage noon "openai" "gpt-4" 0 0 100 false;
    usage noon "anthropic" "claude-3-opus" 0 0 200 false;
    usage noon "google" "gemini-pro" 0 0 150 false ].

(** One record whose event time is exactly 2025-01-01 00:00:00 UTC. *)
Definition onTheSecond : DB :=
  stored [ usage (utc 2025 1 1 0 0 0) "openai" "gpt-4" 0 0 100 false ].

(** Half a second later, and a minute later. *)
Definition halfPast : Time := Date 2025 1 1 0 0 0 500000000 0.
Definition minuteLater : Time := utc 2025 1 1 0 1 0.

(** The first second of the year 10000, a calendar time that the
    four-digit year of the layout cannot carry, and a record of it. *)
Definition year10000 : Time := utc 10000 1 1 0 0 0.

Definition lateRecord : UsageRecord.t :=
  usage year10000 "openai" "gpt-4" 0 0 100 false.

(** A record of noon on June 1 of the year -1, and the start of that
    year. *)
Definition beforeCommonEra : Time := utc (-1) 6 1 12 0 0.
Definition startOfYearMinus1 : Time := utc (-1) 1 1 0 0 0.

(** The filter whose window opens half a second after the record. *)
Definition fromHalfPast : QueryFilter.t :=
  QueryFilter.mk (Some halfPast) (Some minuteLater) "" "" "" None 0 0.

(** One record at 14:00:00 on a clock two hours east of UTC, that is
    12:00:00 UTC, and a window from 13:00:00 to 15:00:00 UTC. *)
Definition twoHoursEast : DB :=
  stored [ usage (Date 2025 1 1 14 0 0 0 7200) "openai" "gpt-4" 0 0 100 false ].

Definition thirteenUTC : Time := utc 2025 1 1 13 0 0.
Definition fifteenUTC : Time := utc 2025 1 1 15 0 0.

(** TestGetTotals: tokens 150, 300, 75; the third request failed. *)
Definition totalsStore : DB :=
  stored [ usage noon "openai" "gpt-4" 100 50 150 false;
           usage noon "openai" "gpt-4" 200 100 300 false;
           usage noon "openai" "gpt-4" 50 25 75 true ].

Definition hourBefore : Time := utc 2025 6 1 11 0 0.
Definition hourAfter : Time := utc 2025 6 1 13 0 0.

(** Grouping by model: gpt-4 100, gpt-4 200, claude 150. *)
Definition byModelStore : DB :=
  stored [ usage noon "openai" "gpt-4" 0 0 100 false;
           usage noon "openai" "gpt-4" 0 0 200 false;
           usage noon "anthropic" "claude" 0 0 150 false ].

(** TestCleanup, with now = 2025-06-01 12:00:00: one record 100 days
    old, one an hour old, and the cut-off 90 days back. *)
Definition cleanupStore : DB :=
  stored [ usage (utc 2025 2 21 12 0 0) "test" "old-model" 0 0 100 false;
           usage hourBefore "test" "recent-model" 0 0 200 false ].

Definition ninetyDaysBack : Time := utc 2025 3 3 12 0 0.

(** TestQuery: a mixed-model record set and the filter on gpt-4. *)
Definition queryStore : DB :=
  stored [ usage noon "openai" "gpt-4" 0 0 100 false;
           usage noon "anthropic" "claude-3-opus" 0 0 200 false;
           usage noon "openai" "gpt-4" 0 0 150 false ].

Definition gpt4Filter : QueryFilter.t :=
  QueryFilter.mk None None "gpt-4" "" "" None 10 0.

(** One record on Monday 2025-01-20, and the year 2025 as window. *)
Definition weekStore : DB :=
  stored [ usage (utc 2025 1 20 12 0 0) "test" "test-model" 0 0 100 false ].

Definition yearStart : Time := utc 2025 1 1 0 0 0.
Definition yearEnd : Time := utc 2025 12 31 23 59 59.

(** A usage event as the proxy submits it. *)
Definition event (ts : Time) (mdl : string) (total : Z) : CoreRecord.t :=
  CoreRecord.mk ts "key" "source" "auth" "openai" mdl
    (Detail.mk 0 0 0 0 total) false.

(** A running plug-in with one buffered event over an empty store. *)
Definition running : World :=
  HandleUsage
    (mkWorld (NewPersistencePlugin (Some theStore) 100 0) emptyDB [])
    noon (event noon "gpt-4" 100).

(** The world after the plug-in has been stopped. *)
Definition afterStop : World :=
  match Stop running clock NoFault with
  | Returns (w, _) => w
  | Panics _ => running
  end.

End examples.

(* ================================================================== *)
(** * Package persistence, continued: Aggregate *)
(* ================================================================== *)

Module aggregate.
Import decimal gotime listx ieee sqlite persistence.

Module AggregateQuery.
Record t := mk {
  From : Time;
  To : Time;
  Interval : string;
  GroupBy : list string
}.
End AggregateQuery.

Module APIKeyMetrics.
Record t := mk {
  APIKey : string;
  Requests : Z;
  Tokens : Z
}.
End APIKeyMetrics.

Module ProviderMetrics.
Record t := mk {
  Provider : string;
  Requests : Z;
  Tokens : Z;
  AvgLatencyMs : float64
}.
End ProviderMetrics.

Module AggregateResult.
Record t := mk {
  Totals : TotalMetrics.t;
  ByModel : list ModelMetrics.t;
  ByAPIKey : list APIKeyMetrics.t;
  ByProvider : list ProviderMetrics.t;
  Timeseries : list TimeseriesPoint.t
}.
End AggregateResult.

(** [Aggregate]: GetTotals, then GetByModel, two statements outside
    any transaction, each on the state of the store at its time
    ([dTotals], then [dByModel]: background writers and the retention
    job may commit in between) and each with its own database call
    (faults [fTotals] and [fByModel]); the other fields of the result
    keep their zero value, the nil slice. *)
Definition Aggregate (dTotals dByModel : DB) (fTotals fByModel : fault)
  (query : AggregateQuery.t) : result AggregateResult.t :=
  match GetTotals dTotals fTotals (AggregateQuery.From query)
                  (AggregateQuery.To query) with
  | Err msg => Err msg
  | Ok totals =>
      match GetByModel dByModel fByModel (AggregateQuery.From query)
                       (AggregateQuery.To query) with
      | Err msg => Err msg
      | Ok byModel =>
          Ok {| AggregateResult.Totals := totals;
                AggregateResult.ByModel := byModel;
                AggregateResult.ByAPIKey := [];
                AggregateResult.ByProvider := [];
                AggregateResult.Timeseries := [] |}
      end
  end.

End aggregate.

(* ================================================================== *)
(** * Further notions used to state properties of the store *)
(* ================================================================== *)

Module storespec.
Import decimal gotime listx ieee sqlite persistence spec aggregate.

(** The write operations of the store, with the outcome of their
    database calls. *)
Inductive storeOp : Type :=
| DoInsert (now : string) (f : fault) (record : UsageRecord.t)
| DoInsertBatch (now : string) (f : fault) (records : list UsageRecord.t)
| DoCleanup (f : fault) (olderThan : Time).

Definition applyStoreOp (d : DB) (o : storeOp) : DB :=
  match o with
  | DoInsert now f record => fst (Insert d now f record)
  | DoInsertBatch now f records => fst (InsertBatch d now f records)
  | DoCleanup f olderThan => fst (Cleanup d f olderThan)
  end.

(** The store after a history of write operations. *)
Definition runStore (d : DB) (ops : list storeOp) : DB :=
  fold_left applyStoreOp ops d.

(** Identifiers grow along the rows and stay at or below the counter. *)
Definition idsOk (d : DB) : Prop :=
  0 <= seq d
  /\ StronglySorted Z.lt (map id (rows d))
  /\ Forall (fun r => 0 < id r <= seq d) (rows d).

(** The start of the hour, day or month of a time, in UTC; for any
    other interval name the start of the hour, as the default branch of
    [timeFormat] has it. *)
Definition truncTo (interval : string) (t : Time) : Time :=
  if String.eqb interval "day" then Date (year t) (month t) (day t) 0 0 0 0 0
  else if String.eqb interval "month" then Date (year t) (month t) 1 0 0 0 0 0
  else Date (year t) (month t) (day t) (hour t) 0 0 0 0.

(** The point that the loop of [GetTimeseries] builds for the result
    row of bucket [b] with the rows [g]. *)
Definition pointOf (interval : string) (b : option string) (g : list Row)
  : TimeseriesPoint.t :=
  {| TimeseriesPoint.BucketStart :=
       parseBucket interval (match b with Some key => key | None => "" end);
     TimeseriesPoint.Requests := Z.of_nat (List.length g);
     TimeseriesPoint.Tokens := sumZ (map total_tokens g);
     TimeseriesPoint.PromptTokens := sumZ (map prompt_tokens g);
     TimeseriesPoint.CompletionTokens := sumZ (map completion_tokens g);
     TimeseriesPoint.AvgLatencyMs := avg (map latency_ms g);
     TimeseriesPoint.FailedRequests := count failed g |}.

(** A bucket key that the loop does not skip. *)
Definition keptKey (b : option string) : Prop :=
  exists key, b = Some key /\ key <> "".

(** One bucket is strictly earlier than the next. *)
Definition earlierBucket (p q : TimeseriesPoint.t) : Prop :=
  wallSeconds (TimeseriesPoint.BucketStart p)
  < wallSeconds (TimeseriesPoint.BucketStart q).

End storespec.

(* ================================================================== *)
(** * Further notions used to state properties of the plug-in *)
(* ================================================================== *)

Module pluginspec.
Import decimal gotime listx sqlite persistence spec.

(** A new plug-in over the store [d], nothing pending. *)
Definition fresh (st : option Storage) (size interval : Z) (d : DB) : World :=
  mkWorld (NewPersistencePlugin st size interval) d [].

(** Submitting events one after the other; an event comes with the
    reading of the clock at its submission. *)
Definition submitAll (w : World) (events : list (Time * CoreRecord.t))
  : World :=
  fold_left (fun w e => HandleUsage w (fst e) (snd e)) events w.

Definition converted (events : list (Time * CoreRecord.t))
  : list UsageRecord.t :=
  map (fun e => convertRecord (fst e) (snd e)) events.

(** The number of records waiting in background writers. *)
Definition pending (w : World) : Z :=
  sumZ (map (fun batch => Z.of_nat (List.length batch)) (inflight w)).

(** The records the world holds: stored, pending or buffered. *)
Definition accounted (w : World) : Z :=
  Z.of_nat (List.length (rows (db w))) + pending w
  + Z.of_nat (List.length (buffer (plugin w))).

(** A submit is taken when the plug-in has a storage and is running. *)
Definition accepts (w : World) : bool :=
  match storage (plugin w) with
  | Some _ => negb (stopped (plugin w))
  | None => false
  end.

(** No database call of the operation fails. *)
Definition faultless (o : op) : bool :=
  match o with
  | OpBackgroundWrite _ _ f => isNoFault f
  | OpFlush _ f => isNoFault f
  | OpStop _ f => isNoFault f
  | _ => true
  end.

(** The submits that a history of operations makes and the plug-in
    takes. *)
Fixpoint taken (w : World) (ops : list op) : Z :=
  match ops with
  | [] => 0
  | o :: rest =>
      match o with
      | OpHandleUsage _ _ => if accepts w then 1 else 0
      | _ => 0
      end
      + match step w o with
        | Returns w' => taken w' rest
        | Panics _ => 0
        end
  end.

(** The buffer is below the threshold, and every batch handed to a
    background writer has between one record and a threshold of them. *)
Definition bufferInv (w : World) : Prop :=
  0 < bufferSize (plugin w)
  /\ 0 < flushInterval (plugin w)
  /\ Z.of_nat (List.length (buffer (plugin w))) < bufferSize (plugin w)
  /\ Forall (fun batch =>
               1 <= Z.of_nat (List.length batch) <= bufferSize (plugin w))
            (inflight w).

(** What [convertRecord] leaves in every record it builds. *)
Definition pluginRecord (record : UsageRecord.t) : Prop :=
  UsageRecord.LatencyMs record = 0
  /\ UsageRecord.RequestID record = ""
  /\ UsageRecord.Status record
     = (if UsageRecord.Failed record then 500 else 200).

Definition pluginRow (r : Row) : Prop :=
  latency_ms r = 0 /\ request_id r = ""
  /\ status r = (if failed r then 500 else 200).

Definition pluginWritten (w : World) : Prop :=
  Forall pluginRecord (buffer (plugin w))
  /\ Forall (Forall pluginRecord) (inflight w)
  /\ Forall pluginRow (rows (db w)).

End pluginspec.

(* ================================================================== *)
(** * Concrete plug-in states *)
(* ================================================================== *)

Module pluginexamples.
Import decimal gotime listx sqlite persistence spec examples pluginspec.

(** The running plug-in of the examples after a timer tick: its one
    record waits in a background writer. *)
Definition ticked : World := timerTick running.

(** Two events, submitted at noon. *)
Definition twoEvents : list (Time * CoreRecord.t) :=
  [ (noon, event noon "gpt-4" 100); (noon, event hourBefore "claude" 50) ].

(** A history without failing database calls: two submits, a tick, the
    background write, a stop, and a submit that comes too late. *)
Definition quietDay : list op :=
  [ OpHandleUsage noon (event noon "gpt-4" 100);
    OpHandleUsage noon (event noon "claude" 50);
    OpTimerTick;
    OpBackgroundWrite 0 clock NoFault;
    OpHandleUsage noon (event noon "gpt-4" 7);
    OpStop clock NoFault;
    OpHandleUsage noon (event noon "gpt-4" 9) ].

End pluginexamples.

(* ================================================================== *)
(** * Basic authentication middleware (internal/api/middleware) *)
(* ================================================================== *)

Module subtle.

(** The bytes of a Go string. *)
Definition bytes (s : string) : list Z :=
  map (fun c => Z.of_N (N_of_ascii c)) (list_ascii_of_string s).

(** The range of a uint8. *)
Definition isByte (b : Z) : Prop := 0 <= b < 256.

(** [crypto/subtle.ConstantTimeByteEq] on two uint8 values:
    [int((uint32(x^y) - 1) >> 31)], the subtraction wrapping around at
    32 bits. *)
Definition ConstantTimeByteEq (x y : Z) : Z :=
  Z.shiftr ((Z.lxor x y - 1) mod 2 ^ 32) 31.

(** [crypto/subtle.ConstantTimeCompare]: 0 for slices of different
    lengths; otherwise the differences of all byte pairs are or-ed into
    one byte, which is compared with 0. *)
Definition ConstantTimeCompare (x y : list Z) : Z :=
  if negb (Nat.eqb (List.length x) (List.length y)) then 0
  else
    ConstantTimeByteEq
      (fold_left (fun v xy => Z.lor v (Z.lxor (fst xy) (snd xy)))
                 (combine x y) 0)
      0.

End subtle.

Module middleware.
Import subtle.

(** What a middleware does with a request: it passes it on, or aborts
    with a status, an optional WWW-Authenticate header and the error
    text of the JSON body. *)
Inductive handled : Type :=
| Next
| AbortWithStatusJSON (code : Z) (wwwAuthenticate : option string)
    (message : string).

Definition quote : string := String (ascii_of_nat 34) EmptyString.

Definition challenge : string :=
  "Basic realm=" ++ quote ++ "QuantumSpring Metrics" ++ quote.

(** [BasicAuth]; [basicAuth] is the result of [c.Request.BasicAuth()]:
    the user and password of the Authorization header, [None] when the
    header is missing or is not well-formed basic authentication. *)
Definition BasicAuth (username password : string)
  (basicAuth : option (string * string)) : handled :=
  if String.eqb username "" || String.eqb password "" then Next
  else
    match basicAuth with
    | None =>
        AbortWithStatusJSON 401 (Some challenge) "authentication required"
    | Some (user, pass) =>
        let usernameMatch :=
          ConstantTimeCompare (bytes user) (bytes username) =? 1 in
        let passwordMatch :=
          ConstantTimeCompare (bytes pass) (bytes password) =? 1 in
        if negb usernameMatch || negb passwordMatch
        then AbortWithStatusJSON 401 (Some challenge) "invalid credentials"
        else Next
    end.

End middleware.

(* ================================================================== *)
(** * The metrics handler (internal/api/handlers/quantumspring) *)
(* ================================================================== *)

Module quantumspring.
Import decimal gotime listx ieee sqlite persistence aggregate.

Module TotalsResponse.
Record t := mk {
  Requests : Z;
  Tokens : Z;
  PromptTokens : Z;
  CompletionTokens : Z;
  ReasoningTokens : Z;
  CachedTokens : Z;
  FailedRequests : Z;
  SuccessRate : float64;
  AvgLatencyMs : float64
}.
End TotalsResponse.

Module ModelMetricsResponse.
Record t := mk {
  Model : string;
  Requests : Z;
  Tokens : Z;
  PromptTokens : Z;
  CompletionTokens : Z;
  AvgLatencyMs : float64;
  FailedRequests : Z
}.
End ModelMetricsResponse.

Module APIKeyResponse.
Record t := mk {
  APIKey : string;
  Requests : Z;
  Tokens : Z
}.
End APIKeyResponse.

Module ProviderResponse.
Record t := mk {
  Provider : string;
  Requests : Z;
  Tokens : Z;
  AvgLatencyMs : float64
}.
End ProviderResponse.

Module TimeseriesResponse.
Record t := mk {
  BucketStart : string;
  Requests : Z;
  Tokens : Z;
  PromptTokens : Z;
  CompletionTokens : Z;
  AvgLatencyMs : float64;
  FailedRequests : Z
}.
End TimeseriesResponse.

Module QueryPeriodResponse.
Record t := mk {
  From : string;
  To : string
}.
End QueryPeriodResponse.

Module MetricsResponse.
Record t := mk {
  Totals : TotalsResponse.t;
  ByModel : list ModelMetricsResponse.t;
  ByAPIKey : list APIKeyResponse.t;
  ByProvider : list ProviderResponse.t;
  Timeseries : list TimeseriesResponse.t;
  QueryPeriod : QueryPeriodResponse.t
}.
End MetricsResponse.

(** The body that [c.JSON] is given: the [gin.H] with the one key
    "error", or the metrics response. *)
Inductive body : Type :=
| ErrorBody (message : string)
| MetricsBody (response : MetricsResponse.t).

(** The answer of the handler: [c.JSON(code, body)]. *)
Inductive reply : Type :=
| JSON (code : Z) (b : body).

Definition codeOf (r : reply) : Z :=
  match r with JSON code _ => code end.

Definition hour_ns : Z := 3600 * second_ns.

(** The zero value [AggregateResult{}]. *)
Definition zeroAggregate : AggregateResult.t :=
  {| AggregateResult.Totals :=
       TotalMetrics.mk 0 0 0 0 0 0 0 0 zero;
     AggregateResult.ByModel := [];
     AggregateResult.ByAPIKey := [];
     AggregateResult.ByProvider := [];
     AggregateResult.Timeseries := [] |}.

Section Handlers.

(** Of Go's [time] package: [time.Parse(time.RFC3339, s)] with the text
    of its error, [t.Format(time.RFC3339)] and [t.Add(d)], [d] in
    nanoseconds. *)
Variable parseRFC3339 : string -> result Time.
Variable formatRFC3339 : Time -> string.
Variable Add : Time -> Z -> Time.

(** [util.HideAPIKey]. *)
Variable HideAPIKey : string -> string.

(** [parseTime]. *)
Definition parseTime (s : string) (defaultValue : Time) : result Time :=
  if String.eqb s "" then Ok defaultValue else parseRFC3339 s.

(** [convertModelMetrics]. *)
Definition convertModelMetrics (metrics : list ModelMetrics.t)
  : list ModelMetricsResponse.t :=
  map (fun m =>
         {| ModelMetricsResponse.Model := ModelMetrics.Model m;
            ModelMetricsResponse.Requests := ModelMetrics.Requests m;
            ModelMetricsResponse.Tokens := ModelMetrics.Tokens m;
            ModelMetricsResponse.PromptTokens := ModelMetrics.PromptTokens m;
            ModelMetricsResponse.CompletionTokens :=
              ModelMetrics.CompletionTokens m;
            ModelMetricsResponse.AvgLatencyMs := ModelMetrics.AvgLatencyMs m;
            ModelMetricsResponse.FailedRequests :=
              ModelMetrics.FailedRequests m |})
      metrics.

(** [convertAPIKeyMetrics]. *)
Definition convertAPIKeyMetrics (metrics : list APIKeyMetrics.t)
  : list APIKeyResponse.t :=
  map (fun m =>
         {| APIKeyResponse.APIKey := HideAPIKey (APIKeyMetrics.APIKey m);
            APIKeyResponse.Requests := APIKeyMetrics.Requests m;
            APIKeyResponse.Tokens := APIKeyMetrics.Tokens m |})
      metrics.

(** [convertProviderMetrics]. *)
Definition convertProviderMetrics (metrics : list ProviderMetrics.t)
  : list ProviderResponse.t :=
  map (fun m =>
         {| ProviderResponse.Provider := ProviderMetrics.Provider m;
            ProviderResponse.Requests := ProviderMetrics.Requests m;
            ProviderResponse.Tokens := ProviderMetrics.Tokens m;
            ProviderResponse.AvgLatencyMs := ProviderMetrics.AvgLatencyMs m |})
      metrics.

(** [convertTimeseries]. *)
Definition convertTimeseries (points : list TimeseriesPoint.t)
  : list TimeseriesResponse.t :=
  map (fun p =>
         {| TimeseriesResponse.BucketStart :=
              formatRFC3339 (TimeseriesPoint.BucketStart p);
            TimeseriesResponse.Requests := TimeseriesPoint.Requests p;
            TimeseriesResponse.Tokens := TimeseriesPoint.Tokens p;
            TimeseriesResponse.PromptTokens := TimeseriesPoint.PromptTokens p;
            TimeseriesResponse.CompletionTokens :=
              TimeseriesPoint.CompletionTokens p;
            TimeseriesResponse.AvgLatencyMs := TimeseriesPoint.AvgLatencyMs p;
            TimeseriesResponse.FailedRequests :=
              TimeseriesPoint.FailedRequests p |})
      points.

(** The success rate of [GetMetrics], a percentage:
    [float64(SuccessRequests) / float64(Requests) * 100.0], or 0.0
    without requests. *)
Definition successRate (totals : TotalMetrics.t) : float64 :=
  if 0 <? TotalMetrics.Requests totals
  then fmul (fdiv (ofInt (TotalMetrics.SuccessRequests totals))
                  (ofInt (TotalMetrics.Requests totals)))
            (ofInt 100)
  else zero.

Definition validInterval (interval : string) : bool :=
  String.eqb interval "hour" || String.eqb interval "day"
  || String.eqb interval "week" || String.eqb interval "month".

(** [GetMetrics].  [storage] is [persistence.GetStorage()]; [now] is
    the reading of [time.Now()]; [qFrom] and [qTo] are the query
    parameters as [c.Query] gives them (empty when absent) and
    [qInterval] the interval parameter, [None] when absent.  The
    statements of the four reads run one after the other, each on the
    state of the store at its time ([dTotals], [dByModel], [dSeries],
    then the two of Aggregate) and with its own database faults. *)
Definition GetMetrics (storage : option Storage) (now : Time)
  (qFrom qTo : string) (qInterval : option string)
  (dTotals dByModel dSeries dAggTotals dAggByModel : DB)
  (fTotals fByModel fSeries fAggTotals fAggByModel : fault) : reply :=
  match storage with
  | None => JSON 503 (ErrorBody "persistence is not enabled")
  | Some _ =>
      let defaultFrom := Add now (- 24 * hour_ns) in
      match parseTime qFrom defaultFrom with
      | Err msg => JSON 400 (ErrorBody ("invalid 'from' parameter: " ++ msg))
      | Ok from =>
          match parseTime qTo now with
          | Err msg => JSON 400 (ErrorBody ("invalid 'to' parameter: " ++ msg))
          | Ok to =>
              let interval :=
                match qInterval with Some v => v | None => "hour" end in
              if negb (validInterval interval)
              then JSON 400
                     (ErrorBody
                        "invalid interval: must be hour, day, week, or month")
              else
                match GetTotals dTotals fTotals from to with
                | Err _ => JSON 500 (ErrorBody "failed to retrieve metrics")
                | Ok totals =>
                    let byModel :=
                      match GetByModel dByModel fByModel from to with
                      | Ok l => l
                      | Err _ => []
                      end in
                    let timeseries :=
                      match GetTimeseries dSeries fSeries from to interval with
                      | Ok l => l
                      | Err _ => []
                      end in
                    let aggregateQuery :=
                      {| AggregateQuery.From := from;
                         AggregateQuery.To := to;
                         AggregateQuery.Interval := interval;
                         AggregateQuery.GroupBy :=
                           ["model"; "api_key"; "provider"] |} in
                    let aggregate :=
                      match Aggregate dAggTotals dAggByModel
                                      fAggTotals fAggByModel
                                      aggregateQuery with
                      | Ok a => a
                      | Err _ => zeroAggregate
                      end in
                    JSON 200
                      (MetricsBody
                         {| MetricsResponse.Totals :=
                              {| TotalsResponse.Requests :=
                                   TotalMetrics.Requests totals;
                                 TotalsResponse.Tokens :=
                                   TotalMetrics.Tokens totals;
                                 TotalsResponse.PromptTokens :=
                                   TotalMetrics.PromptTokens totals;
                                 TotalsResponse.CompletionTokens :=
                                   TotalMetrics.CompletionTokens totals;
                                 TotalsResponse.ReasoningTokens :=
                                   TotalMetrics.ReasoningTokens totals;
                                 TotalsResponse.CachedTokens :=
                                   TotalMetrics.CachedTokens totals;
                                 TotalsResponse.FailedRequests :=
                                   TotalMetrics.FailedRequests totals;
                                 TotalsResponse.SuccessRate :=
                                   successRate totals;
                                 TotalsResponse.AvgLatencyMs :=
                                   TotalMetrics.AvgLatencyMs totals |};
                            MetricsResponse.ByModel :=
                              convertModelMetrics byModel;
                            MetricsResponse.ByAPIKey :=
                              convertAPIKeyMetrics
                                (AggregateResult.ByAPIKey aggregate);
                            MetricsResponse.ByProvider :=
                              convertProviderMetrics
                                (AggregateResult.ByProvider aggregate);
                            MetricsResponse.Timeseries :=
                              convertTimeseries timeseries;
                            MetricsResponse.QueryPeriod :=
                              {| QueryPeriodResponse.From := formatRFC3339 from;
                                 QueryPeriodResponse.To := formatRFC3339 to |}
                         |})
                end
          end
      end
  end.

End Handlers.

End quantumspring.

(* ================================================================== *)
(** * Opening the store (internal/persistence/init.go) *)
(* ================================================================== *)

Module storeinit.
Import persistence.

Section Environment.

(** The file system and the database driver, as the process finds
    them: [os.UserHomeDir], [filepath.Join] of two elements,
    [filepath.Dir], [os.MkdirAll] with mode 0755, and
    [NewSQLiteStorage]. *)
Variable UserHomeDir : result string.
Variable Join : string -> string -> string.
Variable Dir : string -> string.
Variable MkdirAll : string -> error.
Variable NewSQLiteStorage : string -> result Storage.

(** [initSQLite].  The slice expression [path[:2]] panics on a string
    shorter than two bytes. *)
Definition initSQLite (path : string) : outcome (result Storage) :=
  let path := if String.eqb path "" then "./data/usage.db" else path in
  if (String.length path <? 2)%nat
  then Panics "slice bounds out of range"
  else
    let path :=
      if String.eqb (substring 0 2 path) "~/" then
        match UserHomeDir with
        | Ok homeDir =>
            Join homeDir (substring 2 (String.length path - 2) path)
        | Err _ => path
        end
      else path in
    let dir := Dir path in
    match MkdirAll dir with
    | Some msg => Returns (Err ("failed to create directory: " ++ msg))
    | None =>
        match NewSQLiteStorage path with
        | Ok storage => Returns (Ok storage)
        | Err msg => Returns (Err msg)
        end
    end.

End Environment.

End storeinit.

(* ================================================================== *)
(** * Further notions used to state properties of the handler *)
(* ================================================================== *)

Module handlerspec.
Import decimal gotime listx ieee sqlite persistence quantumspring.

Definition isOk {A : Type} (r : result A) : bool :=
  match r with Ok _ => true | Err _ => false end.

(** The parameters of a metrics request are accepted: both time
    parameters are empty or parse as RFC 3339, and the interval is
    absent or one of the four names. *)
Definition wellFormed (parseRFC3339 : string -> result Time)
  (qFrom qTo : string) (qInterval : option string) : bool :=
  (String.eqb qFrom "" || isOk (parseRFC3339 qFrom))
  && (String.eqb qTo "" || isOk (parseRFC3339 qTo))
  && match qInterval with
     | Some v => validInterval v
     | None => true
     end.

(** The bound that a time parameter stands for: its value, or the
    default for an empty parameter. *)
Definition requested (parseRFC3339 : string -> result Time) (q : string)
  (defaultValue : Time) : Time :=
  match parseTime parseRFC3339 q defaultValue with
  | Ok t => t
  | Err _ => defaultValue
  end.

(** The lists of a metrics response, when the read fails: empty. *)
Definition orEmpty {A : Type} (r : result (list A)) : list A :=
  match r with Ok l => l | Err _ => [] end.

End handlerspec.

(* ================================================================== *)
(** * Concrete requests and environments *)
(* ================================================================== *)

Module handlerexamples.
Import decimal gotime listx sqlite persistence spec examples aggregate
  quantumspring storeinit handlerspec.

(** The clock library on the inputs of the example: the two RFC 3339
    texts of the request, the RFC 3339 text of a UTC time with a
    four-digit year, and a shift whose result requests with both
    bounds do not use. *)
Definition exampleParse (s : string) : result Time :=
  if String.eqb s "2025-06-01T11:00:00Z" then Ok hourBefore
  else if String.eqb s "2025-06-01T13:00:00Z" then Ok hourAfter
  else Err "cannot parse".
Definition formatUTC (t : Time) : string :=
  appendInt (year t) 4 ++ "-" ++ appendInt (month t) 2 ++ "-" ++
  appendInt (day t) 2 ++ "T" ++ appendInt (hour t) 2 ++ ":" ++
  appendInt (minute t) 2 ++ ":" ++ appendInt (second t) 2 ++ "Z".
Definition noShift (t : Time) (d : Z) : Time := t.
Definition hide (key : string) : string := "***".

(** A request for daily metrics from 11:00 to 13:00 over the store of
    the totals example. *)
Definition dailyMetrics : reply :=
  GetMetrics exampleParse formatUTC noShift hide (Some theStore) hourAfter
    "2025-06-01T11:00:00Z" "2025-06-01T13:00:00Z" (Some "day")
    totalsStore totalsStore totalsStore totalsStore totalsStore
    NoFault NoFault NoFault NoFault NoFault.

End handlerexamples.

(* ================================================================== *)
(** * Facts: decimal text *)
(* ================================================================== *)

Section DecimalFacts.
Import decimal.

Ltac digit_cases d :=
  let H := fresh in
  assert (H : d = 0 \/ d = 1 \/ d = 2 \/ d = 3 \/ d = 4 \/ d = 5 \/ d = 6
              \/ d = 7 \/ d = 8 \/ d = 9) by lia;
  repeat (destruct H as [H | H]; [subst d | ]); [.. | subst d].

Lemma digit_val_digit_char (d : Z) :
  0 <= d < 10 -> digit_val (digit_char d) = Some d.
Proof. intros Hd. digit_cases d; reflexivity. Qed.

Lemma digit_char_compare (a b : Z) :
  0 <= a < 10 -> 0 <= b < 10 ->
  Ascii.compare (digit_char a) (digit_char b) = (a ?= b).
Proof. intros Ha Hb. digit_cases a; digit_cases b; reflexivity. Qed.

Lemma digit_char_not_space (d : Z) :
  0 <= d < 10 -> Ascii.eqb (digit_char d) " " = false.
Proof. intros Hd. digit_cases d; reflexivity. Qed.

Lemma pow10_pos (w : nat) : 0 < 10 ^ Z.of_nat w.
Proof. apply Z.pow_pos_nonneg; lia. Qed.

Lemma pow10_succ (w : nat) : 10 ^ Z.of_nat (S w) = 10 ^ Z.of_nat w * 10.
Proof. rewrite Nat2Z.inj_succ, Z.pow_succ_r by lia. lia. Qed.

(** The digit at position [w] and the [w] digits below it make up the
    [w+1] low digits. *)
Lemma mod_pow10_succ (n : Z) (w : nat) :
  n mod 10 ^ Z.of_nat (S w)
  = (n / 10 ^ Z.of_nat w mod 10) * 10 ^ Z.of_nat w + n mod 10 ^ Z.of_nat w.
Proof.
  rewrite pow10_succ.
  pose proof (pow10_pos w) as Hp.
  rewrite Z.rem_mul_r by lia. lia.
Qed.

Lemma digit_range (n : Z) (w : nat) : 0 <= n / 10 ^ Z.of_nat w mod 10 < 10.
Proof. apply Z.mod_pos_bound. lia. Qed.

Lemma length_fixed (w : nat) (n : Z) : String.length (fixed w n) = w.
Proof. induction w as [| w IH]; simpl; [reflexivity | now rewrite IH]. Qed.

Lemma read_fixed_fixed (w : nat) (n acc : Z) (rest : string) :
  read_fixed w (fixed w n ++ rest) acc
  = Some (acc * 10 ^ Z.of_nat w + n mod 10 ^ Z.of_nat w, rest).
Proof.
  revert acc. induction w as [| w IH]; intros acc.
  - simpl. rewrite Z.mod_1_r. do 2 f_equal. lia.
  - cbn [fixed append read_fixed].
    rewrite digit_val_digit_char by apply digit_range.
    rewrite IH, mod_pow10_succ, pow10_succ. do 2 f_equal. lia.
Qed.

(** Reading back a number written in [w] digits. *)
Lemma read_fixed_roundtrip (w : nat) (n : Z) (rest : string) :
  0 <= n < 10 ^ Z.of_nat w ->
  read_fixed w (fixed w n ++ rest) 0 = Some (n, rest).
Proof.
  intros Hn. rewrite read_fixed_fixed, Z.mod_small by lia. reflexivity.
Qed.

Lemma getnum_fixed2 (n : Z) (rest : string) (fx : bool) :
  0 <= n < 100 -> getnum (fixed 2 n ++ rest) fx = Some (n, rest).
Proof.
  intros Hn. cbn [fixed append getnum].
  rewrite !digit_val_digit_char by apply digit_range.
  change (10 ^ Z.of_nat 1) with 10. change (10 ^ Z.of_nat 0) with 1.
  do 2 f_equal. rewrite Z.div_1_r.
  rewrite (Z.mod_small (n / 10)) by (split; [apply Z.div_pos | apply Z.div_lt_upper_bound]; lia).
  pose proof (Z.div_mod n 10). lia.
Qed.

(** Texts of the same width compare as the numbers they denote. *)
Lemma compare_fixed (w : nat) (a b : Z) :
  String.compare (fixed w a) (fixed w b)
  = (a mod 10 ^ Z.of_nat w ?= b mod 10 ^ Z.of_nat w).
Proof.
  induction w as [| w IH].
  - simpl. now rewrite !Z.mod_1_r.
  - cbn [fixed String.compare].
    rewrite digit_char_compare by apply digit_range.
    rewrite IH, !mod_pow10_succ.
    pose proof (digit_range a w) as Ha. pose proof (digit_range b w) as Hb.
    pose proof (pow10_pos w) as Hp.
    pose proof (Z.mod_pos_bound a (10 ^ Z.of_nat w) Hp) as Hra.
    pose proof (Z.mod_pos_bound b (10 ^ Z.of_nat w) Hp) as Hrb.
    set (da := a / 10 ^ Z.of_nat w mod 10) in *.
    set (db := b / 10 ^ Z.of_nat w mod 10) in *.
    set (ra := a mod 10 ^ Z.of_nat w) in *.
    set (rb := b mod 10 ^ Z.of_nat w) in *.
    set (p := 10 ^ Z.of_nat w) in *.
    destruct (Z.compare_spec da db) as [E | L | G].
    + subst db. destruct (Z.compare_spec ra rb);
        symmetry; [apply Z.compare_eq_iff | apply Z.compare_lt_iff
                  | apply Z.compare_gt_iff]; nia.
    + symmetry. apply Z.compare_lt_iff. nia.
    + symmetry. apply Z.compare_gt_iff. nia.
Qed.

Lemma compare_fixed_small (w : nat) (a b : Z) :
  0 <= a < 10 ^ Z.of_nat w -> 0 <= b < 10 ^ Z.of_nat w ->
  String.compare (fixed w a) (fixed w b) = (a ?= b).
Proof.
  intros Ha Hb. rewrite compare_fixed, !Z.mod_small by lia. reflexivity.
Qed.

Lemma compare_refl (x : string) : String.compare x x = Eq.
Proof.
  induction x as [| c x IH]; simpl; [reflexivity |].
  unfold Ascii.compare. now rewrite N.compare_refl.
Qed.

(** Comparison of concatenations whose heads have the same length. *)
Lemma compare_app (a b x y : string) :
  String.length a = String.length b ->
  String.compare (a ++ x) (b ++ y)
  = match String.compare a b with
    | Eq => String.compare x y
    | c => c
    end.
Proof.
  revert b. induction a as [| c a IH]; intros [| c' b] Hl;
    simpl in Hl; try discriminate; simpl.
  - reflexivity.
  - destruct (Ascii.compare c c'); auto.
Qed.

Lemma appendInt_fixed (x : Z) (w : nat) :
  0 <= x < 10 ^ Z.of_nat w -> appendInt x w = fixed w x.
Proof.
  intros Hx. unfold appendInt.
  rewrite Z.abs_eq by lia.
  destruct (Z.ltb_spec x (10 ^ Z.of_nat w)); [| lia].
  destruct (Z.ltb_spec x 0); [lia | reflexivity].
Qed.

End DecimalFacts.

(* ================================================================== *)
(** * Facts: Format, Parse and the order of formatted times *)
(* ================================================================== *)

Section TimeFacts.
Import decimal gotime sqlite.

Lemma daysIn_bounds (m y : Z) : 28 <= daysIn m y <= 31.
Proof.
  unfold daysIn.
  destruct (m =? 2); [destruct (isLeap y); lia |].
  destruct ((m =? 4) || (m =? 6) || (m =? 9) || (m =? 11)); lia.
Qed.

Lemma skip_char (c : ascii) (rest : string) :
  Ascii.eqb c " " = false -> skip (String c rest) (String c "") = Some rest.
Proof.
  intros Hc. simpl.
  destruct c as [[] [] [] [] [] [] [] []]; try discriminate Hc;
    cbn; reflexivity.
Qed.

Lemma cutspace_nonspace (c : ascii) (rest : string) :
  Ascii.eqb c " " = false -> cutspace (String c rest) = String c rest.
Proof.
  intros Hc.
  destruct c as [[] [] [] [] [] [] [] []]; try discriminate Hc; reflexivity.
Qed.

Lemma skip_space_fixed2 (n : Z) (rest : string) :
  skip (String " " (fixed 2 n ++ rest)) " " = Some (fixed 2 n ++ rest).
Proof.
  change (skip (String " " (fixed 2 n ++ rest)) " ")
    with (Some (cutspace (fixed 2 n ++ rest))).
  cbn [fixed append].
  rewrite cutspace_nonspace by (apply digit_char_not_space, digit_range).
  reflexivity.
Qed.

Lemma Format_canonical (t : Time) :
  validTime t -> fourDigitYear t ->
  Format t = canonicalText (year t) (month t) (day t)
                           (hour t) (minute t) (second t).
Proof.
  intros (Hm & Hd & Hh & Hmi & Hs & _) Hy. unfold fourDigitYear in Hy.
  pose proof (daysIn_bounds (month t) (year t)).
  unfold Format, canonicalText.
  rewrite (appendInt_fixed (year t) 4) by (simpl; lia).
  rewrite !(appendInt_fixed _ 2) by (simpl; lia).
  reflexivity.
Qed.

Lemma Parse_canonicalText (y mo d hh mi ss : Z) :
  0 <= y <= 9999 -> 1 <= mo <= 12 -> 1 <= d <= daysIn mo y ->
  0 <= hh < 24 -> 0 <= mi < 60 -> 0 <= ss < 60 ->
  Parse (canonicalText y mo d hh mi ss) = Some (Date y mo d hh mi ss 0 0).
Proof.
  intros Hy Hm Hd Hh Hmi Hs.
  pose proof (daysIn_bounds mo y).
  unfold Parse, canonicalText, longYear.
  rewrite read_fixed_roundtrip by (simpl; lia).
  change ("-" ++ ?x) with (String "-" x). rewrite skip_char by reflexivity.
  rewrite getnum_fixed2 by lia.
  replace ((mo <=? 0) || (12 <? mo)) with false
    by (symmetry; apply orb_false_iff; split;
        [apply Z.leb_gt | apply Z.ltb_ge]; lia).
  change ("-" ++ ?x) with (String "-" x). rewrite skip_char by reflexivity.
  rewrite getnum_fixed2 by lia.
  change (" " ++ ?x) with (String " " x). rewrite skip_space_fixed2.
  rewrite getnum_fixed2 by lia.
  replace ((hh <? 0) || (24 <=? hh)) with false
    by (symmetry; apply orb_false_iff; split;
        [apply Z.ltb_ge | apply Z.leb_gt]; lia).
  change (":" ++ ?x) with (String ":" x). rewrite skip_char by reflexivity.
  rewrite getnum_fixed2 by lia.
  replace ((mi <? 0) || (60 <=? mi)) with false
    by (symmetry; apply orb_false_iff; split;
        [apply Z.ltb_ge | apply Z.leb_gt]; lia).
  change (":" ++ ?x) with (String ":" x). rewrite skip_char by reflexivity.
  replace (fixed 2 ss) with (fixed 2 ss ++ "")
    by (cbn [fixed append]; reflexivity).
  rewrite getnum_fixed2 by lia.
  replace ((ss <? 0) || (60 <=? ss)) with false
    by (symmetry; apply orb_false_iff; split;
        [apply Z.ltb_ge | apply Z.leb_gt]; lia).
  cbn [fractional].
  replace ((d <? 1) || (daysIn mo y <? d)) with false
    by (symmetry; apply orb_false_iff; split; apply Z.ltb_ge; lia).
  reflexivity.
Qed.

(** Parsing what Format wrote gives the reading back, without its
    sub-second part and in UTC. *)
Lemma Parse_Format (t : Time) :
  validTime t -> fourDigitYear t ->
  Parse (Format t) = Some (truncSecondUTC t).
Proof.
  intros Hv Hy. rewrite Format_canonical by assumption.
  destruct Hv as (Hm & Hd & Hh & Hmi & Hs & _).
  apply Parse_canonicalText; assumption.
Qed.

End TimeFacts.

(* ================================================================== *)
(** * Facts: the calendar, and text order against wall-clock order *)
(* ================================================================== *)

Section CalendarFacts.
Import decimal gotime sqlite.

Ltac month_cases m :=
  let H := fresh in
  assert (H : m = 1 \/ m = 2 \/ m = 3 \/ m = 4 \/ m = 5 \/ m = 6 \/ m = 7
              \/ m = 8 \/ m = 9 \/ m = 10 \/ m = 11 \/ m = 12) by lia;
  repeat (destruct H as [H | H]; [subst m | ]); [.. | subst m].

Ltac cal_simpl :=
  cbv beta iota delta
    [daysBefore Z.eqb Pos.eqb Z.ltb Z.compare Pos.compare Pos.compare_cont
     orb andb negb] in *.

Lemma daysSinceEpoch_succ (y : Z) :
  daysSinceEpoch (y + 1)
  = daysSinceEpoch y + 365 + (if isLeap y then 1 else 0).
Proof.
  unfold daysSinceEpoch, isLeap.
  replace (y + 1 - 1) with y by lia.
  destruct (Z.eqb_spec (y mod 4) 0), (Z.eqb_spec (y mod 100) 0),
    (Z.eqb_spec (y mod 400) 0); cbn [negb andb orb];
    Z.div_mod_to_equations; lia.
Qed.

Lemma daysSinceEpoch_mono (y y' : Z) :
  y <= y' -> daysSinceEpoch y <= daysSinceEpoch y'.
Proof.
  intros Hy. unfold daysSinceEpoch. Z.div_mod_to_equations. lia.
Qed.

Lemma yearDay_bounds (y m d : Z) :
  1 <= m <= 12 -> 1 <= d <= daysIn m y ->
  0 <= yearDay y m d <= 364 + (if isLeap y then 1 else 0).
Proof.
  intros Hm Hd. unfold yearDay, daysIn in *.
  destruct (isLeap y); month_cases m; cal_simpl; lia.
Qed.

Lemma yearDay_month_lt (y m d m' d' : Z) :
  1 <= m <= 12 -> 1 <= d <= daysIn m y ->
  1 <= m' <= 12 -> 1 <= d' <= daysIn m' y ->
  m < m' -> yearDay y m d < yearDay y m' d'.
Proof.
  intros Hm Hd Hm' Hd' Hlt. unfold yearDay, daysIn in *.
  destruct (isLeap y); month_cases m; month_cases m'; cal_simpl; lia.
Qed.

(** Calendar dates are ordered as their day numbers. *)
Lemma absDays_compare (y m d y' m' d' : Z) :
  1 <= m <= 12 -> 1 <= d <= daysIn m y ->
  1 <= m' <= 12 -> 1 <= d' <= daysIn m' y' ->
  (absDays y m d ?= absDays y' m' d')
  = match y ?= y' with
    | Eq => match m ?= m' with Eq => d ?= d' | c => c end
    | c => c
    end.
Proof.
  intros Hm Hd Hm' Hd'. unfold absDays.
  pose proof (yearDay_bounds y m d Hm Hd) as B.
  pose proof (yearDay_bounds y' m' d' Hm' Hd') as B'.
  destruct (Z.compare_spec y y') as [E | L | G].
  - subst y'. destruct (Z.compare_spec m m') as [E | L | G].
    + subst m'. unfold yearDay.
      destruct (Z.compare_spec d d');
        [apply Z.compare_eq_iff | apply Z.compare_lt_iff
        | apply Z.compare_gt_iff]; lia.
    + apply Z.compare_lt_iff.
      pose proof (yearDay_month_lt y m d m' d' Hm Hd Hm' Hd' L). lia.
    + apply Z.compare_gt_iff.
      pose proof (yearDay_month_lt y m' d' m d Hm' Hd' Hm Hd G). lia.
  - apply Z.compare_lt_iff.
    pose proof (daysSinceEpoch_succ y).
    pose proof (daysSinceEpoch_mono (y + 1) y'). lia.
  - apply Z.compare_gt_iff.
    pose proof (daysSinceEpoch_succ y').
    pose proof (daysSinceEpoch_mono (y' + 1) y). lia.
Qed.

Lemma compare_literal (c : ascii) (x y : string) :
  String.compare (String c x) (String c y) = String.compare x y.
Proof.
  simpl. unfold Ascii.compare. now rewrite N.compare_refl.
Qed.

Lemma compare_canonicalText (y mo d hh mi ss y' mo' d' hh' mi' ss' : Z) :
  0 <= y <= 9999 -> 0 <= mo < 100 -> 0 <= d < 100 ->
  0 <= hh < 100 -> 0 <= mi < 100 -> 0 <= ss < 100 ->
  0 <= y' <= 9999 -> 0 <= mo' < 100 -> 0 <= d' < 100 ->
  0 <= hh' < 100 -> 0 <= mi' < 100 -> 0 <= ss' < 100 ->
  String.compare (canonicalText y mo d hh mi ss)
                 (canonicalText y' mo' d' hh' mi' ss')
  = match y ?= y' with
    | Eq =>
        match mo ?= mo' with
        | Eq =>
            match d ?= d' with
            | Eq =>
                match hh ?= hh' with
                | Eq => match mi ?= mi' with Eq => ss ?= ss' | c => c end
                | c => c
                end
            | c => c
            end
        | c => c
        end
    | c => c
    end.
Proof.
  intros. unfold canonicalText.
  repeat (rewrite compare_app by (now rewrite !length_fixed);
          rewrite compare_fixed_small by (simpl; lia);
          match goal with
          | |- context [String.compare (?c ++ ?x) (?c ++ ?z)] =>
              change (String.compare (c ++ x) (c ++ z))
                with (String.compare (String "-" x) (String "-" z))
              || change (String.compare (c ++ x) (c ++ z))
                with (String.compare (String " " x) (String " " z))
              || change (String.compare (c ++ x) (c ++ z))
                with (String.compare (String ":" x) (String ":" z))
          end;
          rewrite compare_literal).
  rewrite compare_fixed_small by (simpl; lia).
  reflexivity.
Qed.

(** The texts that Format writes are ordered as the wall-clock seconds
    of the times. *)
Lemma compare_Format (t u : Time) :
  validTime t -> fourDigitYear t -> validTime u -> fourDigitYear u ->
  String.compare (Format t) (Format u) = (wallSeconds t ?= wallSeconds u).
Proof.
  intros Ht Hyt Hu Hyu.
  rewrite !Format_canonical by assumption.
  destruct Ht as (Hm & Hd & Hh & Hmi & Hs & _).
  destruct Hu as (Hm' & Hd' & Hh' & Hmi' & Hs' & _).
  unfold fourDigitYear in *.
  pose proof (daysIn_bounds (month t) (year t)).
  pose proof (daysIn_bounds (month u) (year u)).
  rewrite compare_canonicalText by lia.
  unfold wallSeconds.
  pose proof (absDays_compare (year t) (month t) (day t)
                (year u) (month u) (day u) Hm Hd Hm' Hd') as HD.
  destruct (year t ?= year u); [destruct (month t ?= month u);
    [destruct (Z.compare_spec (day t) (day u)) |..] |..]; cbv iota;
    try (apply (proj1 (Z.compare_lt_iff _ _)) in HD; symmetry;
         apply (proj2 (Z.compare_lt_iff _ _)); lia);
    try (apply (proj1 (Z.compare_gt_iff _ _)) in HD; symmetry;
         apply (proj2 (Z.compare_gt_iff _ _)); lia).
  apply Z.compare_eq_iff in HD. rewrite HD.
  destruct (Z.compare_spec (hour t) (hour u));
    [destruct (Z.compare_spec (minute t) (minute u));
       [destruct (Z.compare_spec (second t) (second u)) |..] |..];
    symmetry;
    first [apply Z.compare_eq_iff; lia | apply Z.compare_lt_iff; lia
          | apply Z.compare_gt_iff; lia].
Qed.

(** A text that starts with a digit has no sign. *)
Lemma unsigned_fixed (w : nat) (y : Z) (rest : string) :
  0 <= y ->
  match fixed (S w) y ++ rest with
  | String "-" z' => (true, z')
  | _ => (false, fixed (S w) y ++ rest)
  end = (false, fixed (S w) y ++ rest).
Proof.
  intros Hy. cbn [fixed append].
  pose proof (Z.mod_pos_bound (y / 10 ^ Z.of_nat w) 10 ltac:(lia)) as Hd.
  set (dg := y / 10 ^ Z.of_nat w mod 10) in *.
  assert (H : dg = 0 \/ dg = 1 \/ dg = 2 \/ dg = 3 \/ dg = 4 \/ dg = 5
              \/ dg = 6 \/ dg = 7 \/ dg = 8 \/ dg = 9) by lia.
  repeat (destruct H as [H | H]; [rewrite H; reflexivity |]).
  rewrite H. reflexivity.
Qed.

(** Every calendar time from year 0 on is after the origin of the
    Julian day count. *)
Lemma validJulianDay_common_era (y mo d hh mi ss : Z) :
  0 <= y <= 9999 -> 1 <= mo <= 12 -> 1 <= d <= daysIn mo y ->
  0 <= hh < 24 -> 0 <= mi < 60 -> 0 <= ss < 60 ->
  validJulianDay (mkDateTime y mo d hh mi ss) = true.
Proof.
  intros Hy Hm Hd Hh Hmi Hs. unfold validJulianDay, inRange, secondsOf.
  cbn [Y M D h m s].
  pose proof (yearDay_bounds y mo d Hm Hd) as [Hyd _].
  pose proof (daysSinceEpoch_mono 0 y ltac:(lia)) as Hmono.
  assert (Ho : julianOrigin < daysSinceEpoch 0 * 86400) by reflexivity.
  unfold absDays.
  apply andb_true_intro. split;
    [apply andb_true_intro; split; apply Z.leb_le; lia |].
  apply Z.leb_le. nia.
Qed.

Lemma parseDateTime_canonicalText (y mo d hh mi ss : Z) :
  0 <= y <= 9999 -> 1 <= mo <= 12 -> 1 <= d <= daysIn mo y ->
  0 <= hh < 24 -> 0 <= mi < 60 -> 0 <= ss < 60 ->
  parseDateTime (canonicalText y mo d hh mi ss)
  = Some (mkDateTime y mo d hh mi ss).
Proof.
  intros Hy Hm Hd Hh Hmi Hs.
  pose proof (daysIn_bounds mo y).
  pose proof (validJulianDay_common_era y mo d hh mi ss Hy Hm Hd Hh Hmi Hs)
    as Hjd.
  unfold parseDateTime, canonicalText.
  rewrite (unsigned_fixed 3 y) by lia.
  rewrite read_fixed_roundtrip by (simpl; lia).
  change ("-" ++ ?x) with (String "-" x). rewrite skip_char by reflexivity.
  rewrite read_fixed_roundtrip by (simpl; lia).
  change ("-" ++ ?x) with (String "-" x). rewrite skip_char by reflexivity.
  rewrite read_fixed_roundtrip by (simpl; lia).
  change (" " ++ ?x) with (String " " x). cbv iota beta.
  rewrite read_fixed_roundtrip by (simpl; lia).
  change (":" ++ ?x) with (String ":" x). rewrite skip_char by reflexivity.
  rewrite read_fixed_roundtrip by (simpl; lia).
  change (":" ++ ?x) with (String ":" x). rewrite skip_char by reflexivity.
  replace (fixed 2 ss) with (fixed 2 ss ++ "")
    by (cbn [fixed append]; reflexivity).
  rewrite read_fixed_roundtrip by (simpl; lia).
  cbv zeta. cbn [Y]. rewrite Hjd. unfold inRange.
  repeat match goal with
  | |- context [?a <=? ?b] =>
      destruct (Z.leb_spec a b); [| lia]
  end.
  reflexivity.
Qed.

(** For the years that a stored timestamp has, ["%04d"] writes four
    digits. *)
Lemma printf04d_fixed (y : Z) : 0 <= y <= 9999 -> printf04d y = fixed 4 y.
Proof.
  intros Hy. unfold printf04d.
  destruct (Z.ltb_spec y 0); [lia |].
  apply appendInt_fixed. simpl. lia.
Qed.

End CalendarFacts.

(* ================================================================== *)
(** * Facts: sorting and first occurrences *)
(* ================================================================== *)

Section SortFacts.
Import listx.
Context {A : Type} (leb : A -> A -> bool).
Hypothesis leb_total : forall a b, leb a b = true \/ leb b a = true.

Let ordered (a b : A) : Prop := leb a b = true.

Lemma insertBy_perm (x : A) (l : list A) :
  Permutation (insertBy leb x l) (x :: l).
Proof.
  induction l as [| y l IH]; simpl; [reflexivity |].
  destruct (leb x y); [reflexivity |].
  rewrite IH. apply perm_swap.
Qed.

Lemma sortBy_perm (l : list A) : Permutation (sortBy leb l) l.
Proof.
  induction l as [| x l IH]; simpl; [reflexivity |].
  rewrite insertBy_perm. now constructor.
Qed.

Lemma insertBy_hd (x a : A) (l : list A) :
  ordered a x -> HdRel ordered a l -> HdRel ordered a (insertBy leb x l).
Proof.
  intros Hax Hl. destruct l as [| y l]; simpl.
  - now constructor.
  - destruct (leb x y); constructor; [assumption |].
    now inversion Hl.
Qed.

Lemma insertBy_sorted (x : A) (l : list A) :
  Sorted ordered l -> Sorted ordered (insertBy leb x l).
Proof.
  induction 1 as [| y l Hs IH Hhd]; simpl.
  - repeat constructor.
  - destruct (leb x y) eqn:E.
    + constructor; [now constructor | now constructor].
    + constructor; [assumption |].
      apply insertBy_hd; [| assumption].
      destruct (leb_total x y) as [H | H]; [congruence | exact H].
Qed.

Lemma sortBy_sorted (l : list A) : Sorted ordered (sortBy leb l).
Proof.
  induction l as [| x l IH]; simpl; [constructor |].
  now apply insertBy_sorted.
Qed.

End SortFacts.

Section ListFacts.
Import listx.

Lemma Sorted_firstn {A : Type} (R : A -> A -> Prop) (n : nat) (l : list A) :
  Sorted R l -> Sorted R (firstn n l).
Proof.
  revert l. induction n as [| n IH]; intros l Hs; simpl; [constructor |].
  destruct l as [| x l]; [constructor |].
  inversion Hs as [| ? ? Hs' Hhd]; subst.
  constructor; [now apply IH |].
  destruct n; simpl; [constructor |].
  destruct l; [constructor |]. inversion Hhd; subst. now constructor.
Qed.

Lemma Sorted_map {A B : Type} (R : A -> A -> Prop) (R' : B -> B -> Prop)
  (g : A -> B) (l : list A) :
  (forall a b, R a b -> R' (g a) (g b)) ->
  Sorted R l -> Sorted R' (map g l).
Proof.
  intros Hg. induction 1 as [| x l Hs IH Hhd]; simpl; constructor; auto.
  destruct Hhd; simpl; constructor; auto.
Qed.

Context {K : Type} (eqb : K -> K -> bool).
Hypothesis eqb_spec : forall x y, eqb x y = true <-> x = y.

Lemma distinctBy_In (x : K) (l : list K) :
  In x (distinctBy eqb l) <-> In x l.
Proof.
  induction l as [| y l IH]; simpl; [tauto |].
  rewrite filter_In, IH.
  split.
  - intros [H | [H _]]; auto.
  - intros [H | H]; [now left |].
    destruct (eqb y x) eqn:E.
    + left. now apply eqb_spec.
    + right. split; [assumption | reflexivity].
Qed.

Lemma distinctBy_NoDup (l : list K) : NoDup (distinctBy eqb l).
Proof.
  induction l as [| y l IH]; simpl; constructor.
  - rewrite filter_In. intros [_ H].
    assert (E : eqb y y = true) by now apply eqb_spec.
    rewrite E in H. discriminate.
  - now apply NoDup_filter.
Qed.

End ListFacts.

(* ================================================================== *)
(** * Facts: the store *)
(* ================================================================== *)

Section StoreFacts.
Import decimal gotime listx sqlite persistence spec.

Lemma execBatch_Some (records : list UsageRecord.t) :
  forall tx now f i tx',
    execBatch tx now f i records = Some tx' ->
    tx' = {| rows := rows tx ++ persistedRows (seq tx + 1) now records;
             seq := seq tx + Z.of_nat (List.length records) |}.
Proof.
  induction records as [| record rest IH]; intros tx now f i tx' H.
  - simpl in *. injection H as <-. destruct tx as [rs sq]; simpl.
    now rewrite app_nil_r, Z.add_0_r.
  - simpl in H. destruct (failsAtExec f i); [discriminate |].
    apply IH in H. subst tx'. cbn [execInsert rows seq persistedRows].
    unfold insertedRow. rewrite <- app_assoc. cbn [app List.length].
    f_equal. lia.
Qed.

Lemma execBatch_NoFault (records : list UsageRecord.t) :
  forall tx now i, exists tx', execBatch tx now NoFault i records = Some tx'.
Proof.
  induction records as [| record rest IH]; intros tx now i; simpl; eauto.
Qed.

(** Without a fault the batch is committed. *)
Lemma InsertBatch_NoFault (d : DB) (now : string)
  (records : list UsageRecord.t) :
  records <> [] ->
  InsertBatch d now NoFault records
  = ({| rows := rows d ++ persistedRows (seq d + 1) now records;
        seq := seq d + Z.of_nat (List.length records) |}, None).
Proof.
  intros Hne. destruct records as [| r rs]; [congruence |].
  unfold InsertBatch.
  destruct (execBatch_NoFault (r :: rs) d now 0%nat) as [tx Htx].
  rewrite Htx. now rewrite (execBatch_Some _ _ _ _ _ _ Htx).
Qed.

(** A failing statement leaves the committed state. *)
Lemma InsertBatch_exec_fault (d : DB) (now : string)
  (record : UsageRecord.t) (rest : list UsageRecord.t) :
  InsertBatch d now (ExecFails 0) (record :: rest)
  = (d, Some "failed to insert record").
Proof. reflexivity. Qed.

Lemma Insert_as_batch (d : DB) (now : string) (record : UsageRecord.t) :
  Insert d now NoFault record = InsertBatch d now NoFault [record].
Proof. reflexivity. Qed.

(** Row for record: the rows of a batch are the rows of its records,
    one per record and in the order of the batch. *)
Lemma persistedRows_Forall2 (records : list UsageRecord.t) :
  forall next now,
    Forall2 (fun record row => exists newId, row = rowOf newId now record)
            records (persistedRows next now records).
Proof.
  induction records as [| r rs IH]; intros next now; simpl; constructor;
    eauto.
Qed.

Lemma persistedRows_In (records : list UsageRecord.t) :
  forall next now record,
    In record records ->
    exists newId, In (rowOf newId now record) (persistedRows next now records).
Proof.
  induction records as [| r rs IH]; intros next now record Hin;
    [contradiction |].
  destruct Hin as [-> | Hin].
  - exists next. now left.
  - destruct (IH (next + 1) now record Hin) as [i Hi].
    exists i. now right.
Qed.

Lemma persistedRows_canonical (records : list UsageRecord.t) :
  forall next now,
    Forall validRecord records ->
    Forall canonicalRow (persistedRows next now records).
Proof.
  induction records as [| r rs IH]; intros next now Hv; simpl;
    [constructor |].
  inversion Hv as [| ? ? [Hr1 Hr2] Hrs]; subst.
  constructor; [| now apply IH].
  exists (UsageRecord.Timestamp r).
  split; [exact Hr1 | split; [exact Hr2 | reflexivity]].
Qed.

(** The stores that the package builds from valid records hold
    canonical rows. *)
Lemma InsertBatch_canonical (d : DB) (now : string) (f : fault)
  (records : list UsageRecord.t) :
  canonicalDB d -> Forall validRecord records ->
  canonicalDB (fst (InsertBatch d now f records)).
Proof.
  intros Hd Hv. unfold InsertBatch.
  destruct records as [| r rs]; [exact Hd |].
  destruct (execBatch d now f 0 (r :: rs)) as [tx |] eqn:E.
  - apply execBatch_Some in E. subst tx.
    destruct f; try exact Hd; unfold canonicalDB; cbn [fst rows];
      (apply Forall_app; split;
       [exact Hd | now apply persistedRows_canonical]).
  - destruct f; exact Hd.
Qed.

Lemma Cleanup_canonical (d : DB) (f : fault) (olderThan : Time) :
  canonicalDB d -> canonicalDB (fst (Cleanup d f olderThan)).
Proof.
  intros Hd. unfold Cleanup. destruct (isNoFault f); [| exact Hd].
  unfold canonicalDB in *. cbn [fst rows].
  rewrite Forall_forall in *. intros r Hr. apply filter_In in Hr.
  now apply Hd.
Qed.

Lemma rowTime_canonical (r : Row) (t : Time) :
  validTime t -> fourDigitYear t -> timestamp r = Format t ->
  rowTime r = truncSecondUTC t.
Proof.
  intros Hv Hy E. unfold rowTime. rewrite E, Parse_Format by assumption.
  reflexivity.
Qed.

Lemma wallSeconds_trunc (t : Time) :
  wallSeconds (truncSecondUTC t) = wallSeconds t.
Proof. reflexivity. Qed.

(** On canonical rows the TEXT comparisons of the WHERE clauses are
    comparisons of wall-clock seconds. *)
Lemma textLe_bound_row (t : Time) (r : Row) :
  validTime t -> fourDigitYear t -> canonicalRow r ->
  textLe (Format t) (timestamp r)
  = (wallSeconds t <=? wallSeconds (rowTime r)).
Proof.
  intros Hv Hy (u & Hu & Hyu & E).
  rewrite (rowTime_canonical r u Hu Hyu E), wallSeconds_trunc, E.
  unfold textLe, String.leb. rewrite compare_Format by assumption.
  unfold Z.leb. reflexivity.
Qed.

Lemma textLe_row_bound (t : Time) (r : Row) :
  validTime t -> fourDigitYear t -> canonicalRow r ->
  textLe (timestamp r) (Format t)
  = (wallSeconds (rowTime r) <=? wallSeconds t).
Proof.
  intros Hv Hy (u & Hu & Hyu & E).
  rewrite (rowTime_canonical r u Hu Hyu E), wallSeconds_trunc, E.
  unfold textLe, String.leb. rewrite compare_Format by assumption.
  unfold Z.leb. reflexivity.
Qed.

Lemma textLt_row_bound (t : Time) (r : Row) :
  validTime t -> fourDigitYear t -> canonicalRow r ->
  textLt (timestamp r) (Format t)
  = (wallSeconds (rowTime r) <? wallSeconds t).
Proof.
  intros Hv Hy (u & Hu & Hyu & E).
  rewrite (rowTime_canonical r u Hu Hyu E), wallSeconds_trunc, E.
  unfold textLt, String.ltb. rewrite compare_Format by assumption.
  unfold Z.ltb. reflexivity.
Qed.

Lemma textLe_rows (a b : Row) :
  canonicalRow a -> canonicalRow b ->
  textLe (timestamp b) (timestamp a)
  = (wallSeconds (rowTime b) <=? wallSeconds (rowTime a)).
Proof.
  intros Ha (u & Hu & Hyu & E).
  rewrite E at 1. rewrite textLe_bound_row by assumption.
  now rewrite (rowTime_canonical b u Hu Hyu E), wallSeconds_trunc.
Qed.

Lemma textLe_total (a b : string) : textLe a b = true \/ textLe b a = true.
Proof.
  unfold textLe, String.leb. rewrite (String.compare_antisym a b).
  destruct (String.compare b a); simpl; auto.
Qed.

Lemma inWindow_second (from to : Time) (r : Row) :
  validTime from -> fourDigitYear from -> validTime to -> fourDigitYear to ->
  canonicalRow r ->
  inWindow from to r = secondInWindow from to (rowTime r).
Proof.
  intros. unfold inWindow, secondInWindow.
  now rewrite textLe_bound_row, textLe_row_bound.
Qed.

Lemma filter_inWindow (from to : Time) (d : DB) :
  validTime from -> fourDigitYear from -> validTime to -> fourDigitYear to ->
  canonicalDB d ->
  filter (inWindow from to) (rows d)
  = filter (fun r => secondInWindow from to (rowTime r)) (rows d).
Proof.
  intros Hf Hyf Ht Hyt Hd. apply filter_ext_in. intros r Hr.
  apply inWindow_second; try assumption.
  unfold canonicalDB in Hd. rewrite Forall_forall in Hd. now apply Hd.
Qed.

(** For bounds on a whole second in UTC the two readings of a window
    agree on every stored timestamp. *)
Lemma instantInWindow_whole_seconds (from to : Time) (r : Row) :
  canonicalRow r ->
  nanosecond from = 0 -> zoneOffset from = 0 ->
  nanosecond to = 0 -> zoneOffset to = 0 ->
  instantInWindow from to (rowTime r) = secondInWindow from to (rowTime r).
Proof.
  intros (u & Hu & Hyu & E) Hnf Hzf Hnt Hzt.
  rewrite (rowTime_canonical r u Hu Hyu E).
  unfold instantInWindow, secondInWindow, After, Before, absSeconds.
  rewrite wallSeconds_trunc. cbn [truncSecondUTC nanosecond zoneOffset].
  rewrite Hnf, Hzf, Hnt, Hzt, !Z.sub_0_r, Z.ltb_irrefl, !andb_false_r,
    !orb_false_r.
  now rewrite <- !Z.leb_antisym.
Qed.

Lemma Before_whole_seconds (olderThan : Time) (r : Row) :
  canonicalRow r ->
  nanosecond olderThan = 0 -> zoneOffset olderThan = 0 ->
  Before (rowTime r) olderThan = secondBefore (rowTime r) olderThan.
Proof.
  intros (u & Hu & Hyu & E) Hn Hz.
  rewrite (rowTime_canonical r u Hu Hyu E).
  unfold Before, secondBefore, absSeconds.
  rewrite wallSeconds_trunc. cbn [truncSecondUTC nanosecond zoneOffset].
  now rewrite Hn, Hz, !Z.sub_0_r, Z.ltb_irrefl, andb_false_r, orb_false_r.
Qed.

End StoreFacts.

(** Closed side conditions on concrete times and stores. *)
Ltac solve_valid :=
  unfold spec.validRecord, gotime.validTime, gotime.fourDigitYear; cbn;
  repeat split; vm_compute; congruence.

Ltac solve_canonical :=
  apply InsertBatch_canonical;
  [constructor | repeat constructor; solve_valid].

Ltac solve_nonneg :=
  unfold spec.nonNegativeDB; apply Forall_forall;
  let r := fresh "r" in
  let Hr := fresh "Hr" in
  intros r Hr; vm_compute in Hr;
  repeat (destruct Hr as [<- | Hr];
          [unfold spec.nonNegativeRow; cbn; lia |]);
  destruct Hr.

(* ================================================================== *)
(** * The store: batch insert, round trip of timestamps, Offset *)
(* ================================================================== *)

Section StoreWrites.
Import decimal gotime listx sqlite persistence spec examples.

Lemma persistedRows_length (records : list UsageRecord.t) :
  forall next now,
    List.length (persistedRows next now records) = List.length records.
Proof.
  induction records as [| r rs IH]; intros; simpl; [| rewrite IH];
    reflexivity.
Qed.

(** C2. InsertBatch is atomic: for a non-empty list of records it
    either returns no error and every record of the list has become a
    row (appended in order, with consecutive identifiers), or it returns
    an error and the database is the one before the call. *)
Theorem InsertBatch_atomic (d : DB) (now : string) (f : fault)
  (records : list UsageRecord.t) :
  records <> [] ->
  InsertBatch d now f records
  = ({| rows := rows d ++ persistedRows (seq d + 1) now records;
        seq := seq d + Z.of_nat (List.length records) |}, None)
  \/ exists msg, InsertBatch d now f records = (d, Some msg).
Proof.
  intros Hne. destruct records as [| r rs]; [congruence |].
  unfold InsertBatch.
  destruct (execBatch d now f 0 (r :: rs)) as [tx |] eqn:E.
  - apply execBatch_Some in E. subst tx.
    destruct f; eauto.
  - destruct f; eauto.
Qed.

Lemma InsertBatch_atomic_witness :
  batch3 <> []
  /\ (InsertBatch emptyDB clock (ExecFails 2) batch3
      = ({| rows := rows emptyDB ++ persistedRows (seq emptyDB + 1) clock batch3;
            seq := seq emptyDB + Z.of_nat (List.length batch3) |}, None)
      \/ exists msg,
           InsertBatch emptyDB clock (ExecFails 2) batch3
           = (emptyDB, Some msg)).
Proof.
  split; [discriminate |].
  apply (InsertBatch_atomic emptyDB clock (ExecFails 2) batch3).
  discriminate.
Defined.

(** Both outcomes occur: a fault at the third statement of the batch
    leaves the store empty, and no fault stores all three records. *)
Example InsertBatch_three_records :
  InsertBatch emptyDB clock (ExecFails 2) batch3
  = (emptyDB, Some "failed to insert record")
  /\ GetRecordCount (fst (InsertBatch emptyDB clock NoFault batch3)) NoFault
     = Ok 3.
Proof. split; reflexivity. Qed.

Lemma whereClause_noFilter (r : Row) : whereClause noFilter r = true.
Proof. reflexivity. Qed.

Lemma filter_true {A : Type} (p : A -> bool) (l : list A) :
  (forall x, In x l -> p x = true) -> filter p l = l.
Proof.
  induction l as [| x l IH]; intros H; simpl; [reflexivity |].
  rewrite (H x (or_introl eq_refl)), IH; [reflexivity |].
  intros y Hy. apply H. now right.
Qed.

Lemma Query_noFilter (d : DB) :
  Query d NoFault noFilter
  = Ok (map scanRow (orderByTimestampDesc (rows d))).
Proof.
  unfold Query. cbn [isNoFault]. unfold limitClause.
  cbn [QueryFilter.Limit noFilter Z.ltb Z.compare].
  rewrite filter_true by (intros; apply whereClause_noFilter).
  reflexivity.
Qed.

Lemma readsBack (d : DB) (now : string) (record : UsageRecord.t) (newId : Z) :
  validRecord record ->
  In (rowOf newId now record) (rows d) ->
  readsBackTruncated d now record.
Proof.
  intros [Hv Hy] Hin. exists newId, (map scanRow (orderByTimestampDesc (rows d))).
  split; [exact Hin |]. split; [reflexivity |].
  split; [apply Query_noFilter |]. split.
  - apply in_map. unfold orderByTimestampDesc.
    eapply Permutation_in; [symmetry; apply sortBy_perm | exact Hin].
  - cbn [scanRow UsageRecord.Timestamp rowOf timestamp].
    now rewrite Parse_Format.
Qed.

(** C10, as first stated for every record, fails: the text written for
    a record of the year 10000 has a five-digit year, which the layout
    does not parse, and Query reads the record back with the zero Time
    in place of its timestamp. *)
Lemma persisted_timestamp_counterexample :
  ~ readsBackTruncated (fst (Insert emptyDB clock NoFault lateRecord))
      clock lateRecord.
Proof.
  intros (newId & q & _ & _ & _ & _ & H).
  cbn [scanRow rowOf UsageRecord.Timestamp timestamp lateRecord usage] in H.
  vm_compute in H. discriminate H.
Qed.

(** C10, amended.  Event timestamps are persisted at whole-second
    precision: for every record whose timestamp is a calendar time of
    the years 0 to 9999, the years that the layout can carry, Insert
    and InsertBatch store the text of Format("2006-01-02 15:04:05"),
    and Query reads the stored record back with its wall-clock reading
    cut to the second and placed in UTC (sub-second part and zone are
    lost). *)
Theorem persisted_timestamp_whole_second (d : DB) (now : string)
  (records : list UsageRecord.t) (record : UsageRecord.t) :
  validRecord record ->
  readsBackTruncated (fst (Insert d now NoFault record)) now record
  /\ (In record records ->
      readsBackTruncated (fst (InsertBatch d now NoFault records)) now record).
Proof.
  intros Hv. split.
  - apply (readsBack _ now record (seq d + 1) Hv).
    cbn [Insert isNoFault fst execInsert rows]. apply in_or_app. right.
    now left.
  - intros Hin.
    assert (Hne : records <> []) by (intros ->; contradiction).
    rewrite (InsertBatch_NoFault d now records Hne). cbn [fst].
    destruct (persistedRows_In records (seq d + 1) now record Hin)
      as [newId HnewId].
    apply (readsBack _ now record newId Hv).
    cbn [rows]. apply in_or_app. now right.
Qed.

Lemma persisted_timestamp_whole_second_witness :
  validRecord (usage halfPast "openai" "gpt-4" 0 0 100 false)
  /\ (readsBackTruncated
        (fst (Insert emptyDB clock NoFault
                (usage halfPast "openai" "gpt-4" 0 0 100 false)))
        clock (usage halfPast "openai" "gpt-4" 0 0 100 false)
      /\ (In (usage halfPast "openai" "gpt-4" 0 0 100 false)
            [usage halfPast "openai" "gpt-4" 0 0 100 false] ->
          readsBackTruncated
            (fst (InsertBatch emptyDB clock NoFault
                    [usage halfPast "openai" "gpt-4" 0 0 100 false]))
            clock (usage halfPast "openai" "gpt-4" 0 0 100 false))).
Proof.
  assert (Hv : validRecord (usage halfPast "openai" "gpt-4" 0 0 100 false))
    by solve_valid.
  split; [exact Hv |].
  exact (persisted_timestamp_whole_second emptyDB clock
           [usage halfPast "openai" "gpt-4" 0 0 100 false]
           (usage halfPast "openai" "gpt-4" 0 0 100 false) Hv).
Defined.

(** The half second of the submitted time is gone after the round
    trip. *)
Example halfPast_read_back :
  Query (fst (Insert emptyDB clock NoFault
                (usage halfPast "openai" "gpt-4" 0 0 100 false)))
        NoFault noFilter
  = Ok [scanRow (rowOf 1 clock (usage (utc 2025 1 1 0 0 0)
                                  "openai" "gpt-4" 0 0 100 false))].
Proof. reflexivity. Qed.

(** C9. The Offset field of the filter has no effect: Query returns
    the same result for any two values of Offset, and so the result for
    any offset is the one for offset 0, the first page. *)
Theorem Query_ignores_Offset (d : DB) (f : fault) (filter : QueryFilter.t)
  (offset1 offset2 : Z) :
  Query d f (withOffset filter offset1) = Query d f (withOffset filter offset2)
  /\ Query d f filter = Query d f (withOffset filter 0).
Proof. split; reflexivity. Qed.

End StoreWrites.

(* ================================================================== *)
(** * The store: retention clean-up *)
(* ================================================================== *)

Section CleanupFacts.
Import decimal gotime listx sqlite persistence spec examples.

Lemma count_none {A : Type} (p : A -> bool) (l : list A) :
  (forall x, In x l -> p x = false) -> count p l = 0.
Proof.
  intros H. unfold count.
  replace (filter p l) with (@nil A); [reflexivity |].
  induction l as [| x l IH]; simpl; [reflexivity |].
  rewrite (H x (or_introl eq_refl)). apply IH.
  intros y Hy. apply H. now right.
Qed.

(** C3, as first stated, fails: the record of exactly
    2025-01-01 00:00:00 is strictly before the cut-off half a second
    later, and Cleanup keeps it. *)
Lemma Cleanup_instant_counterexample :
  ~ cleanupOnInstants onTheSecond halfPast.
Proof.
  unfold cleanupOnInstants. vm_compute. intros [H _]. discriminate H.
Qed.

(** C3, amended.  Cleanup deletes exactly the records whose stored
    timestamp is strictly before the cut-off in whole wall-clock
    seconds (the sub-second part and the zone of the cut-off are not
    compared), leaves every other record and the identifier counter
    unchanged, and returns the number of records deleted; when no
    record is that old it returns 0 and no error, and the store is
    unchanged. *)
Theorem Cleanup_whole_seconds (d : DB) (olderThan : Time) :
  canonicalDB d -> validTime olderThan -> fourDigitYear olderThan ->
  Cleanup d NoFault olderThan
  = ({| rows := filter (fun r => negb (secondBefore (rowTime r) olderThan))
                       (rows d);
        seq := seq d |},
     (count (fun r => secondBefore (rowTime r) olderThan) (rows d), None))
  /\ ((forall r, In r (rows d) -> secondBefore (rowTime r) olderThan = false)
      -> Cleanup d NoFault olderThan = (d, (0, None))).
Proof.
  intros Hd Hv Hy.
  assert (Hrow : forall r, In r (rows d) ->
            textLt (timestamp r) (Format olderThan)
            = secondBefore (rowTime r) olderThan).
  { intros r Hr. unfold secondBefore. apply textLt_row_bound; try assumption.
    unfold canonicalDB in Hd. rewrite Forall_forall in Hd. now apply Hd. }
  assert (E : Cleanup d NoFault olderThan
    = ({| rows := filter (fun r => negb (secondBefore (rowTime r) olderThan))
                         (rows d);
          seq := seq d |},
       (count (fun r => secondBefore (rowTime r) olderThan) (rows d), None))).
  { unfold Cleanup. cbn [isNoFault]. unfold count.
    rewrite (filter_ext_in
               (fun r => negb (textLt (timestamp r) (Format olderThan)))
               (fun r => negb (secondBefore (rowTime r) olderThan)) (rows d))
      by (intros r Hr; now rewrite Hrow).
    rewrite (filter_ext_in
               (fun r => textLt (timestamp r) (Format olderThan))
               (fun r => secondBefore (rowTime r) olderThan) (rows d))
      by (intros r Hr; now rewrite Hrow).
    reflexivity. }
  split; [exact E |].
  intros Hnone. rewrite E.
  rewrite (count_none _ _ Hnone).
  rewrite filter_true by (intros r Hr; now rewrite (Hnone r Hr)).
  now destruct d.
Qed.

Lemma Cleanup_whole_seconds_witness :
  canonicalDB cleanupStore /\ validTime ninetyDaysBack
  /\ fourDigitYear ninetyDaysBack
  /\ (Cleanup cleanupStore NoFault ninetyDaysBack
      = ({| rows := filter
                      (fun r => negb (secondBefore (rowTime r) ninetyDaysBack))
                      (rows cleanupStore);
            seq := seq cleanupStore |},
         (count (fun r => secondBefore (rowTime r) ninetyDaysBack)
                (rows cleanupStore), None))
      /\ ((forall r, In r (rows cleanupStore) ->
             secondBefore (rowTime r) ninetyDaysBack = false)
          -> Cleanup cleanupStore NoFault ninetyDaysBack
             = (cleanupStore, (0, None)))).
Proof.
  assert (Hd : canonicalDB cleanupStore) by solve_canonical.
  assert (Hv : validTime ninetyDaysBack) by solve_valid.
  assert (Hy : fourDigitYear ninetyDaysBack) by solve_valid.
  split; [exact Hd |]. split; [exact Hv |]. split; [exact Hy |].
  exact (Cleanup_whole_seconds cleanupStore ninetyDaysBack Hd Hv Hy).
Defined.

(** The case of TestCleanup: of a record 100 days old and a record one
    hour old, a cut-off 90 days back deletes the first and leaves the
    second. *)
Example Cleanup_ninety_days :
  exists d', Cleanup cleanupStore NoFault ninetyDaysBack = (d', (1, None))
    /\ map model (rows d') = ["recent-model"]
    /\ GetRecordCount d' NoFault = Ok 1.
Proof. eexists. split; [reflexivity | split; reflexivity]. Qed.

End CleanupFacts.

(* ================================================================== *)
(** * Facts: float64 conversion, SUM and AVG *)
(* ================================================================== *)

Section FloatFacts.
Import ieee.

Lemma digits2_size (p : positive) : digits2_pos p = Pos.size p.
Proof. induction p; cbn; congruence. Qed.

Lemma digits2_bounds (p : positive) :
  2 ^ (Z.pos (digits2_pos p) - 1) <= Z.pos p < 2 ^ Z.pos (digits2_pos p).
Proof.
  rewrite digits2_size.
  assert (Hgt : Z.pos p < 2 ^ Z.pos (Pos.size p)).
  { pose proof (Pos.size_gt p) as H. apply Pos2Z.pos_lt_pos in H.
    now rewrite Pos2Z.inj_pow in H. }
  assert (Hle : 2 ^ Z.pos (Pos.size p) <= 2 * Z.pos p).
  { pose proof (Pos.size_le p) as H. apply Pos2Z.pos_le_pos in H.
    now rewrite Pos2Z.inj_pow in H. }
  assert (E : 2 ^ Z.pos (Pos.size p) = 2 * 2 ^ (Z.pos (Pos.size p) - 1)).
  { rewrite <- Z.pow_succ_r by lia. f_equal. lia. }
  lia.
Qed.

Lemma shr_1_m (mrs : shr_record) :
  0 <= shr_m mrs -> shr_m (shr_1 mrs) = shr_m mrs / 2.
Proof.
  destruct mrs as [m r s]. cbn [shr_m shr_1]. intros Hm.
  destruct m as [| [p | p |] | p]; cbn [shr_m]; try lia;
    try reflexivity;
    first [apply Z.div_unique with 1; lia | apply Z.div_unique with 0; lia].
Qed.

Lemma pow2_xI (n : positive) :
  2 ^ Z.pos n~1 = 2 * (2 ^ Z.pos n * 2 ^ Z.pos n).
Proof.
  replace (Z.pos n~1) with (Z.succ (2 * Z.pos n)) by lia.
  rewrite Z.pow_succ_r by lia. now rewrite Z.pow_twice_r.
Qed.

Lemma pow2_xO (n : positive) : 2 ^ Z.pos n~0 = 2 ^ Z.pos n * 2 ^ Z.pos n.
Proof.
  replace (Z.pos n~0) with (2 * Z.pos n) by lia. apply Z.pow_twice_r.
Qed.

(** Shifting a mantissa right by [n] bits divides it by 2^n. *)
Lemma iter_shr_m (n : positive) :
  forall mrs, 0 <= shr_m mrs ->
    shr_m (iter_pos shr_1 n mrs) = shr_m mrs / 2 ^ Z.pos n.
Proof.
  induction n as [n IH | n IH |]; intros mrs Hm; cbn [iter_pos].
  - assert (Hp : 0 < 2 ^ Z.pos n) by (apply Z.pow_pos_nonneg; lia).
    assert (H1 : 0 <= shr_m (shr_1 mrs))
      by (rewrite shr_1_m by assumption; apply Z.div_pos; lia).
    assert (H2 : 0 <= shr_m (iter_pos shr_1 n (shr_1 mrs)))
      by (rewrite IH by assumption; apply Z.div_pos; lia).
    rewrite IH, IH, shr_1_m by assumption.
    rewrite !Z.div_div by lia. now rewrite pow2_xI.
  - assert (Hp : 0 < 2 ^ Z.pos n) by (apply Z.pow_pos_nonneg; lia).
    assert (H2 : 0 <= shr_m (iter_pos shr_1 n mrs))
      by (rewrite IH by assumption; apply Z.div_pos; lia).
    rewrite IH, IH by assumption.
    rewrite !Z.div_div by lia. now rewrite pow2_xO.
  - rewrite shr_1_m by assumption. reflexivity.
Qed.

Lemma shr_record_of_loc_m (m : Z) (l : location) :
  shr_m (shr_record_of_loc m l) = m.
Proof. destruct l as [| []]; reflexivity. Qed.

(** Shifting a positive mantissa to the exponent of its format leaves
    it positive, when the exponent is not below the least one. *)
Lemma shr_fexp_pos (m : positive) (e : Z) (l : location) :
  emin prec emax <= e ->
  0 < shr_m (fst (shr_fexp prec emax (Z.pos m) e l))
  /\ emin prec emax <= snd (shr_fexp prec emax (Z.pos m) e l).
Proof.
  intros He. unfold shr_fexp, shr. cbn [Zdigits2].
  pose proof (digits2_bounds m) as [Hlo Hhi].
  set (d := Z.pos (digits2_pos m)) in *.
  destruct (fexp prec emax (d + e) - e) as [| n | n] eqn:En; cbn [fst snd];
    rewrite ?shr_record_of_loc_m; try (split; lia).
  rewrite iter_shr_m by (rewrite shr_record_of_loc_m; lia).
  rewrite shr_record_of_loc_m.
  assert (Hn : Z.pos n <= d - 1).
  { unfold fexp, prec in En. unfold emin, prec, emax in *. lia. }
  split; [| lia].
  apply Z.div_str_pos. split; [apply Z.pow_pos_nonneg; lia |].
  apply Z.le_trans with (2 ^ (d - 1)); [| exact Hlo].
  apply Z.pow_le_mono_r; lia.
Qed.

Lemma round_nearest_even_pos (m : Z) (l : location) :
  0 < m -> 0 < round_nearest_even m l.
Proof.
  intros Hm. destruct l as [| []]; cbn [round_nearest_even]; try lia.
  destruct (Z.even m); lia.
Qed.

Lemma binary_round_aux_pos (m : positive) (e : Z) (l : location) :
  emin prec emax <= e ->
  (exists m' e', binary_round_aux prec emax false (Z.pos m) e l
                 = S754_finite false m' e')
  \/ binary_round_aux prec emax false (Z.pos m) e l = S754_infinity false.
Proof.
  intros He. unfold binary_round_aux.
  destruct (shr_fexp_pos m e l He) as [H1 H1e].
  destruct (shr_fexp prec emax (Z.pos m) e l) as [mrs' e'].
  cbn [fst snd] in H1, H1e.
  pose proof (round_nearest_even_pos _ (loc_of_shr_record mrs') H1) as H2.
  destruct (round_nearest_even (shr_m mrs') (loc_of_shr_record mrs'))
    as [| m2 | m2]; try lia.
  destruct (shr_fexp_pos m2 e' loc_Exact H1e) as [H3 _].
  destruct (shr_fexp prec emax (Z.pos m2) e' loc_Exact) as [mrs'' e''].
  cbn [fst] in H3.
  destruct (shr_m mrs'') as [| m3 | m3]; try lia.
  destruct (e'' <=? emax - prec); [left; eauto | now right].
Qed.

(** The float64 of a positive integer is positive: a finite positive
    number (or, beyond the range of the format, positive infinity). *)
Lemma ofInt_pos (n : Z) :
  0 < n ->
  (exists m e, ofInt n = S754_finite false m e)
  \/ ofInt n = S754_infinity false.
Proof.
  intros Hn. destruct n as [| p | p]; try lia.
  unfold ofInt, binary_normalize, binary_round.
  destruct (shl_align p 0 (fexp prec emax (Z.pos (digits2_pos p) + 0)))
    as [mz ez] eqn:E.
  apply binary_round_aux_pos.
  unfold shl_align in E.
  assert (Hf : emin prec emax <= fexp prec emax (Z.pos (digits2_pos p) + 0))
    by (unfold fexp; lia).
  destruct (fexp prec emax (Z.pos (digits2_pos p) + 0) - 0) eqn:E2;
    injection E as _ <-; first [exact Hf | unfold emin, prec, emax; lia].
Qed.

(** Zero divided by a positive count is positive zero. *)
Lemma zero_over_count (n : Z) : 0 < n -> fdiv (ofInt 0) (ofInt n) = zero.
Proof.
  intros Hn. destruct (ofInt_pos n Hn) as [(m & e & ->) | ->]; reflexivity.
Qed.

End FloatFacts.

Section AggregateFacts.
Import listx ieee sqlite spec.

Lemma sumStep_exact (total n v : Z) :
  minInt64 <= total + v <= maxInt64 ->
  sumStep (exactCtx total n) v = exactCtx (total + v) (n + 1).
Proof.
  intros Hv. unfold sumStep, exactCtx.
  cbn [rSum rErr iSum cnt approx ovrfl].
  destruct (Z.leb_spec minInt64 (total + v)); [| lia].
  destruct (Z.leb_spec (total + v) maxInt64); [| lia].
  reflexivity.
Qed.

Lemma kahanBabuskaNeumaierStepInt64_flags (p : SumCtx) (v : Z) :
  approx (kahanBabuskaNeumaierStepInt64 p v) = approx p
  /\ ovrfl (kahanBabuskaNeumaierStepInt64 p v) = ovrfl p
  /\ cnt (kahanBabuskaNeumaierStepInt64 p v) = cnt p.
Proof.
  unfold kahanBabuskaNeumaierStepInt64.
  destruct (isBig v); repeat split.
Qed.

(** Once an addition has left the int64 range the sum stays marked. *)
Lemma sumStep_overflowed (p : SumCtx) (v : Z) :
  approx p = true -> ovrfl p = true -> 0 <= cnt p ->
  approx (sumStep p v) = true /\ ovrfl (sumStep p v) = true
  /\ 0 < cnt (sumStep p v).
Proof.
  intros Ha Ho Hc. unfold sumStep. cbn [approx]. rewrite Ha.
  match goal with
  | |- context [kahanBabuskaNeumaierStepInt64 ?q v] =>
      destruct (kahanBabuskaNeumaierStepInt64_flags q v) as (-> & -> & ->)
  end.
  cbn [approx ovrfl cnt]. repeat split; [assumption | lia].
Qed.

Lemma steps_overflowed (l : list Z) :
  forall p, approx p = true -> ovrfl p = true -> 0 < cnt p ->
            sumFinalize (fold_left sumStep l p) = None.
Proof.
  induction l as [| v l IH]; intros p Ha Ho Hc; cbn [fold_left].
  - unfold sumFinalize. rewrite Ha, Ho.
    destruct (Z.ltb_spec 0 (cnt p)); [reflexivity | lia].
  - destruct (sumStep_overflowed p v Ha Ho ltac:(lia)) as (Ha' & Ho' & Hc').
    now apply IH.
Qed.

(** The first addition that leaves the range marks the sum. *)
Lemma sumStep_overflows (total n v : Z) :
  ~ (minInt64 <= total + v <= maxInt64) -> 0 <= n ->
  approx (sumStep (exactCtx total n) v) = true
  /\ ovrfl (sumStep (exactCtx total n) v) = true
  /\ 0 < cnt (sumStep (exactCtx total n) v).
Proof.
  intros Hv Hn. unfold sumStep, exactCtx.
  cbn [rSum rErr iSum cnt approx ovrfl].
  replace ((minInt64 <=? total + v) && (total + v <=? maxInt64)) with false.
  - match goal with
    | |- context [kahanBabuskaNeumaierStepInt64 ?q v] =>
        destruct (kahanBabuskaNeumaierStepInt64_flags q v) as (-> & -> & ->)
    end.
    unfold kahanBabuskaNeumaierInit, setApprox, setOverflow.
    destruct (isBig total); cbn [approx ovrfl cnt]; repeat split; lia.
  - symmetry. apply andb_false_iff.
    destruct (Z.leb_spec minInt64 (total + v)); [| now left].
    destruct (Z.leb_spec (total + v) maxInt64); [lia | now right].
Qed.

(** The values of a list, from an exact context: either the sum stays
    exact, or SUM fails. *)
Lemma steps_from_exact (l : list Z) :
  forall total n, 0 <= n ->
    fold_left sumStep l (exactCtx total n)
    = exactCtx (total + sumZ l) (n + Z.of_nat (List.length l))
    \/ sumFinalize (fold_left sumStep l (exactCtx total n)) = None.
Proof.
  induction l as [| v l IH]; intros total n Hn; cbn [fold_left].
  - left. unfold sumZ. cbn [fold_right List.length Z.of_nat].
    now rewrite !Z.add_0_r.
  - destruct (Z_le_dec minInt64 (total + v)) as [Hlo |];
      [destruct (Z_le_dec (total + v) maxInt64) as [Hhi |] |].
    + rewrite sumStep_exact by lia.
      destruct (IH (total + v) (n + 1) ltac:(lia)) as [E | E];
        [left | now right].
      rewrite E. unfold sumZ. cbn [fold_right List.length].
      f_equal; [fold (sumZ l) | rewrite Nat2Z.inj_succ]; lia.
    + right.
      destruct (sumStep_overflows total n v ltac:(lia) Hn) as (Ha & Ho & Hc).
      now apply steps_overflowed.
    + right.
      destruct (sumStep_overflows total n v ltac:(lia) Hn) as (Ha & Ho & Hc).
      now apply steps_overflowed.
Qed.

(** Without negative values the sum stays exact as long as the total
    is in range. *)
Lemma steps_fit (l : list Z) :
  forall total n,
    0 <= total -> Forall (fun x => 0 <= x) l ->
    total + sumZ l <= maxInt64 ->
    fold_left sumStep l (exactCtx total n)
    = exactCtx (total + sumZ l) (n + Z.of_nat (List.length l)).
Proof.
  induction l as [| v l IH]; intros total n Ht Hl Hfit; cbn [fold_left].
  - unfold sumZ. cbn [fold_right List.length Z.of_nat].
    now rewrite !Z.add_0_r.
  - inversion Hl as [| ? ? Hv Hl']; subst.
    assert (Hs : 0 <= sumZ l).
    { clear - Hl'. induction Hl' as [| x l Hx _ IH]; unfold sumZ in *;
        cbn [fold_right]; lia. }
    unfold sumZ in Hfit. cbn [fold_right] in Hfit. fold (sumZ l) in Hfit.
    rewrite sumStep_exact by (unfold minInt64, maxInt64 in *; lia).
    rewrite IH by (assumption || lia).
    unfold sumZ. cbn [fold_right List.length]. fold (sumZ l).
    f_equal; [| rewrite Nat2Z.inj_succ]; lia.
Qed.

(** Without negative values, a total beyond the range makes SUM fail,
    in whatever order the values are visited. *)
Lemma steps_exceed (l : list Z) :
  forall total n,
    0 <= total <= maxInt64 -> 0 <= n -> Forall (fun x => 0 <= x) l ->
    maxInt64 < total + sumZ l ->
    sumFinalize (fold_left sumStep l (exactCtx total n)) = None.
Proof.
  induction l as [| v l IH]; intros total n Ht Hn Hl Hex; cbn [fold_left].
  - unfold sumZ in Hex. cbn [fold_right] in Hex. lia.
  - inversion Hl as [| ? ? Hv Hl']; subst.
    unfold sumZ in Hex. cbn [fold_right] in Hex. fold (sumZ l) in Hex.
    destruct (Z_le_dec (total + v) maxInt64) as [Hhi | Hhi].
    + rewrite sumStep_exact by (unfold minInt64, maxInt64 in *; lia).
      apply IH; (assumption || lia).
    + destruct (sumStep_overflows total n v ltac:(lia) Hn) as (Ha & Ho & Hc).
      now apply steps_overflowed.
Qed.

Lemma sum_of_exact (l : list Z) :
  aggregate l = exactCtx (sumZ l) (Z.of_nat (List.length l)) ->
  sum l = Some (sumZ l).
Proof.
  intros E. unfold sum, sumFinalize. rewrite E.
  cbn [exactCtx cnt approx iSum].
  destruct l as [| x l]; [reflexivity |].
  destruct (Z.ltb_spec 0 (Z.of_nat (List.length (x :: l))));
    [reflexivity | cbn [List.length] in *; lia].
Qed.

(** What SUM returns is the sum. *)
Lemma sum_Some (l : list Z) (z : Z) : sum l = Some z -> z = sumZ l.
Proof.
  intros H.
  destruct (steps_from_exact l 0 0 ltac:(lia)) as [E | E].
  - change (exactCtx 0 0) with newSumCtx in E. fold (aggregate l) in E.
    cbn [Z.add] in E. rewrite (sum_of_exact l E) in H. congruence.
  - change (exactCtx 0 0) with newSumCtx in E. fold (aggregate l) in E.
    unfold sum in H. rewrite E in H. discriminate.
Qed.

(** SUM over values that are not negative: the sum when it is within
    the int64 range, a failure otherwise. *)
Lemma sum_fits (l : list Z) :
  Forall (fun x => 0 <= x) l -> sumZ l <= maxInt64 -> sum l = Some (sumZ l).
Proof.
  intros Hl Hfit. apply sum_of_exact. unfold aggregate.
  change newSumCtx with (exactCtx 0 0).
  now rewrite steps_fit by (try assumption; lia).
Qed.

Lemma sum_exceeds (l : list Z) :
  Forall (fun x => 0 <= x) l -> maxInt64 < sumZ l -> sum l = None.
Proof.
  intros Hl Hex. unfold sum, aggregate.
  change newSumCtx with (exactCtx 0 0).
  rewrite steps_exceed; [reflexivity | | lia | assumption | lia].
  unfold maxInt64. lia.
Qed.

(** AVG over values that are not negative and whose sum is within the
    int64 range: the float64 quotient of the sum by the count. *)
Lemma avg_fits (l : list Z) :
  Forall (fun x => 0 <= x) l -> sumZ l <= maxInt64 -> avg l = mean64 l.
Proof.
  intros Hl Hfit. unfold avg, aggregate.
  change newSumCtx with (exactCtx 0 0).
  rewrite steps_fit by (try assumption; lia).
  unfold avgFinalize, mean64. cbn [exactCtx cnt approx iSum Z.add].
  destruct l as [| x l]; [reflexivity |].
  destruct (Z.ltb_spec 0 (Z.of_nat (List.length (x :: l))));
    [reflexivity | cbn [List.length] in *; lia].
Qed.

(** AVG over zeros is positive zero. *)
Lemma avg_zero (l : list Z) : Forall (fun x => x = 0) l -> avg l = zero.
Proof.
  intros H.
  assert (Hn : Forall (fun x => 0 <= x) l)
    by (eapply Forall_impl; [| exact H]; cbv beta; intros; lia).
  assert (Hs : sumZ l = 0).
  { clear Hn. induction H as [| x l Hx _ IH]; [reflexivity |].
    unfold sumZ in *. cbn [fold_right]. lia. }
  rewrite avg_fits by (try assumption; rewrite Hs; unfold maxInt64; lia).
  unfold mean64. destruct l as [| x l]; [reflexivity |].
  rewrite Hs. apply zero_over_count. cbn [List.length]. lia.
Qed.

End AggregateFacts.

(* ================================================================== *)
(** * The store: totals over a window *)
(* ================================================================== *)

Section TotalsFacts.
Import decimal gotime listx sqlite persistence spec examples.

Lemma count_split {A : Type} (p : A -> bool) (l : list A) :
  count p l + count (fun x => negb (p x)) l = Z.of_nat (List.length l).
Proof.
  unfold count. induction l as [| x l IH]; simpl; [reflexivity |].
  destruct (p x); cbn [negb List.length]; rewrite ?Nat2Z.inj_succ in *; lia.
Qed.

(** C4, as first stated, fails: the record of exactly
    2025-01-01 00:00:00 is before a window that opens half a second
    later, and GetTotals counts it. *)
Lemma GetTotals_instant_counterexample :
  ~ totalsOnInstants onTheSecond halfPast minuteLater.
Proof.
  unfold totalsOnInstants. intros (m & Hm & Hreq).
  vm_compute in Hm. injection Hm as <-. vm_compute in Hreq.
  discriminate Hreq.
Qed.

(** A column without negative values, over any selection of rows. *)
Lemma column_nonneg (col : Row -> Z) (rs : list Row) :
  (forall r, nonNegativeRow r -> 0 <= col r) ->
  Forall nonNegativeRow rs ->
  Forall (fun x => 0 <= x) (map col rs).
Proof.
  intros Hcol Hrs. apply Forall_forall. intros x Hx.
  apply in_map_iff in Hx. destruct Hx as (r & <- & Hr).
  apply Hcol. exact (proj1 (Forall_forall _ _) Hrs r Hr).
Qed.

Lemma selected_nonneg (p : Row -> bool) (rs : list Row) :
  Forall nonNegativeRow rs -> Forall nonNegativeRow (filter p rs).
Proof.
  intros Hrs. apply Forall_forall. intros r Hr. apply filter_In in Hr.
  exact (proj1 (Forall_forall _ _) Hrs r (proj1 Hr)).
Qed.

(** SUM answers over values that are not negative only when the sum is
    within the int64 range. *)
Lemma sum_Some_fits (l : list Z) (z : Z) :
  Forall (fun x => 0 <= x) l -> sum l = Some z -> sumZ l <= maxInt64.
Proof.
  intros Hl Hs. destruct (Z_le_dec (sumZ l) maxInt64) as [| Hex];
    [assumption |].
  rewrite (sum_exceeds l Hl) in Hs by lia. discriminate.
Qed.

(** C4, amended.  Over a store whose token counts and latencies are
    not negative, GetTotals works on exactly the records whose stored
    timestamp lies in the window in whole wall-clock seconds, both ends
    included (the sub-second parts and the zones of the bounds are not
    compared).  When the five token sums over these records are within
    the int64 range it returns the record count, the sum of each token
    category, the counts of failed and of succeeded records, which add
    up to the record count, and, when the latency sum is within the
    int64 range too, as mean latency the float64 quotient of the
    latency sum by the record count.  When a token sum is beyond the
    int64 range it returns an error. *)
Theorem GetTotals_whole_seconds (d : DB) (from to : Time) :
  canonicalDB d -> nonNegativeDB d ->
  validTime from -> fourDigitYear from -> validTime to -> fourDigitYear to ->
  exists sel,
    sel = filter (fun r => secondInWindow from to (rowTime r)) (rows d)
    /\ (totalsFit sel ->
        exists m,
          GetTotals d NoFault from to = Ok m
          /\ TotalMetrics.Requests m = Z.of_nat (List.length sel)
          /\ TotalMetrics.Tokens m = sumZ (map total_tokens sel)
          /\ TotalMetrics.PromptTokens m = sumZ (map prompt_tokens sel)
          /\ TotalMetrics.CompletionTokens m
             = sumZ (map completion_tokens sel)
          /\ TotalMetrics.ReasoningTokens m = sumZ (map reasoning_tokens sel)
          /\ TotalMetrics.CachedTokens m = sumZ (map cached_tokens sel)
          /\ TotalMetrics.FailedRequests m = count failed sel
          /\ TotalMetrics.SuccessRequests m
             = count (fun r => negb (failed r)) sel
          /\ TotalMetrics.FailedRequests m + TotalMetrics.SuccessRequests m
             = TotalMetrics.Requests m
          /\ (sumZ (map latency_ms sel) <= maxInt64 ->
              TotalMetrics.AvgLatencyMs m = mean64 (map latency_ms sel)))
    /\ (~ totalsFit sel ->
        exists msg, GetTotals d NoFault from to = Err msg).
Proof.
  intros Hd Hn Hf Hyf Ht Hyt.
  unfold GetTotals. cbn [isNoFault].
  rewrite (filter_inWindow from to d Hf Hyf Ht Hyt Hd).
  set (sel := filter (fun r => secondInWindow from to (rowTime r)) (rows d)).
  assert (Hsel : Forall nonNegativeRow sel) by now apply selected_nonneg.
  assert (N1 : Forall (fun x => 0 <= x) (map total_tokens sel))
    by (apply column_nonneg; [intros r Hr; apply Hr | exact Hsel]).
  assert (N2 : Forall (fun x => 0 <= x) (map prompt_tokens sel))
    by (apply column_nonneg; [intros r Hr; apply Hr | exact Hsel]).
  assert (N3 : Forall (fun x => 0 <= x) (map completion_tokens sel))
    by (apply column_nonneg; [intros r Hr; apply Hr | exact Hsel]).
  assert (N4 : Forall (fun x => 0 <= x) (map reasoning_tokens sel))
    by (apply column_nonneg; [intros r Hr; apply Hr | exact Hsel]).
  assert (N5 : Forall (fun x => 0 <= x) (map cached_tokens sel))
    by (apply column_nonneg; [intros r Hr; apply Hr | exact Hsel]).
  assert (N6 : Forall (fun x => 0 <= x) (map latency_ms sel))
    by (apply column_nonneg; [intros r Hr; apply Hr | exact Hsel]).
  exists sel. split; [reflexivity |]. split.
  - intros (F1 & F2 & F3 & F4 & F5).
    rewrite (sum_fits _ N1 F1), (sum_fits _ N2 F2), (sum_fits _ N3 F3),
      (sum_fits _ N4 F4), (sum_fits _ N5 F5).
    eexists. split; [reflexivity |].
    cbn [TotalMetrics.Requests TotalMetrics.Tokens TotalMetrics.PromptTokens
         TotalMetrics.CompletionTokens TotalMetrics.ReasoningTokens
         TotalMetrics.CachedTokens TotalMetrics.FailedRequests
         TotalMetrics.SuccessRequests TotalMetrics.AvgLatencyMs].
    repeat (split; [reflexivity |]).
    split; [apply (count_split failed) |].
    intros F6. now apply avg_fits.
  - intros Hno.
    destruct (sum (map total_tokens sel)) as [z1 |] eqn:E1; [| now eexists].
    destruct (sum (map prompt_tokens sel)) as [z2 |] eqn:E2; [| now eexists].
    destruct (sum (map completion_tokens sel)) as [z3 |] eqn:E3;
      [| now eexists].
    destruct (sum (map reasoning_tokens sel)) as [z4 |] eqn:E4;
      [| now eexists].
    destruct (sum (map cached_tokens sel)) as [z5 |] eqn:E5; [| now eexists].
    exfalso. apply Hno. unfold totalsFit.
    repeat split; eapply sum_Some_fits; eassumption.
Qed.

Lemma GetTotals_whole_seconds_witness :
  canonicalDB totalsStore /\ nonNegativeDB totalsStore
  /\ validTime hourBefore /\ fourDigitYear hourBefore
  /\ validTime hourAfter /\ fourDigitYear hourAfter
  /\ exists sel,
       sel = filter (fun r => secondInWindow hourBefore hourAfter (rowTime r))
                    (rows totalsStore)
       /\ (totalsFit sel ->
           exists m,
             GetTotals totalsStore NoFault hourBefore hourAfter = Ok m
             /\ TotalMetrics.Requests m = Z.of_nat (List.length sel)
             /\ TotalMetrics.Tokens m = sumZ (map total_tokens sel)
             /\ TotalMetrics.PromptTokens m = sumZ (map prompt_tokens sel)
             /\ TotalMetrics.CompletionTokens m
                = sumZ (map completion_tokens sel)
             /\ TotalMetrics.ReasoningTokens m
                = sumZ (map reasoning_tokens sel)
             /\ TotalMetrics.CachedTokens m = sumZ (map cached_tokens sel)
             /\ TotalMetrics.FailedRequests m = count failed sel
             /\ TotalMetrics.SuccessRequests m
                = count (fun r => negb (failed r)) sel
             /\ TotalMetrics.FailedRequests m + TotalMetrics.SuccessRequests m
                = TotalMetrics.Requests m
             /\ (sumZ (map latency_ms sel) <= maxInt64 ->
                 TotalMetrics.AvgLatencyMs m = mean64 (map latency_ms sel)))
       /\ (~ totalsFit sel ->
           exists msg,
             GetTotals totalsStore NoFault hourBefore hourAfter = Err msg).
Proof.
  assert (Hd : canonicalDB totalsStore) by solve_canonical.
  assert (Hn : nonNegativeDB totalsStore) by solve_nonneg.
  assert (Hf : validTime hourBefore) by solve_valid.
  assert (Hyf : fourDigitYear hourBefore) by solve_valid.
  assert (Ht : validTime hourAfter) by solve_valid.
  assert (Hyt : fourDigitYear hourAfter) by solve_valid.
  split; [exact Hd |]. split; [exact Hn |].
  split; [exact Hf |]. split; [exact Hyf |].
  split; [exact Ht |]. split; [exact Hyt |].
  exact (GetTotals_whole_seconds totalsStore hourBefore hourAfter
           Hd Hn Hf Hyf Ht Hyt).
Defined.

(** A store with token counts 2^63 - 1 and 1 at noon: their sum is
    beyond the int64 range, and GetTotals fails. *)
Example GetTotals_integer_overflow :
  GetTotals
    (stored [usage noon "openai" "gpt-4" 0 0 (2 ^ 63 - 1) false;
             usage noon "openai" "gpt-4" 0 0 1 false])
    NoFault hourBefore hourAfter
  = Err "failed to get totals".
Proof. reflexivity. Qed.

(** Latencies 1, 1 and 2: the mean that GetTotals scans is the float64
    nearest to 4/3, 6004799503160661 * 2^-52.  Latencies 2^63 - 1 and 1:
    the integer sum is left for the floating-point one, and the mean is
    2^62. *)
Example GetTotals_mean_rounded :
  avg [1; 1; 2] = S754_finite false 6004799503160661 (-52)
  /\ avg [2 ^ 63 - 1; 1] = S754_finite false 4503599627370496 10.
Proof. split; reflexivity. Qed.

(** The case of TestGetTotals: tokens 150, 300 and 75, the third
    request failed. *)
Example GetTotals_three_records :
  exists m, GetTotals totalsStore NoFault hourBefore hourAfter = Ok m
    /\ TotalMetrics.Requests m = 3 /\ TotalMetrics.Tokens m = 525
    /\ TotalMetrics.PromptTokens m = 350
    /\ TotalMetrics.CompletionTokens m = 175
    /\ TotalMetrics.FailedRequests m = 1
    /\ TotalMetrics.SuccessRequests m = 2.
Proof. eexists. repeat split; reflexivity. Qed.

(** Zones are not applied: a record of 12:00:00 UTC, submitted with the
    reading 14:00:00 of a clock two hours east, is counted in the
    window from 13:00:00 to 15:00:00 UTC. *)
Example GetTotals_zone_not_applied :
  instantInWindow thirteenUTC fifteenUTC (Date 2025 1 1 14 0 0 0 7200) = false
  /\ exists m, GetTotals twoHoursEast NoFault thirteenUTC fifteenUTC = Ok m
       /\ TotalMetrics.Requests m = 1.
Proof. split; [reflexivity | eexists; split; reflexivity]. Qed.

End TotalsFacts.

(* ================================================================== *)
(** * The store: filtered query *)
(* ================================================================== *)

Section QueryFacts.
Import decimal gotime listx sqlite persistence spec examples.

Lemma In_firstn {A : Type} (n : nat) (l : list A) (x : A) :
  In x (firstn n l) -> In x l.
Proof.
  revert l. induction n as [| n IH]; intros [| y l] H; simpl in *;
    try contradiction.
  destruct H as [-> | H]; [now left | right; now apply IH].
Qed.

Lemma In_capped (limit : Z) (l : list Row) (x : Row) :
  In x (capped limit l) -> In x l.
Proof.
  unfold capped. destruct (0 <? limit); [apply In_firstn | trivial].
Qed.

Lemma Sorted_impl_in {A : Type} (R R' : A -> A -> Prop) (l : list A) :
  (forall a b, In a l -> In b l -> R a b -> R' a b) ->
  Sorted R l -> Sorted R' l.
Proof.
  intros H Hs. induction Hs as [| x l Hs IH Hhd]; constructor.
  - apply IH. intros a b Ha Hb. apply H; now right.
  - destruct Hhd as [| y l' Hxy]; constructor.
    apply H; [now left | right; now left | exact Hxy].
Qed.

Lemma boundSet_valid (b : option Time) (t : Time) :
  boundValid b -> boundSet b = Some t -> validTime t /\ fourDigitYear t.
Proof.
  destruct b as [u |]; simpl; [| discriminate].
  destruct (IsZero u); [discriminate |].
  intros H E. now injection E as <-.
Qed.

Lemma whereClause_second (filter : QueryFilter.t) (r : Row) :
  boundValid (QueryFilter.From filter) -> boundValid (QueryFilter.To filter) ->
  canonicalRow r ->
  whereClause filter r = matchesSecond filter r.
Proof.
  intros Hf Ht Hr. unfold whereClause, matchesSecond, fieldsMatch.
  destruct (boundSet (QueryFilter.From filter)) as [t |] eqn:Ef.
  - destruct (boundSet_valid _ _ Hf Ef) as [Hv Hy].
    rewrite (textLe_bound_row t r Hv Hy Hr).
    destruct (boundSet (QueryFilter.To filter)) as [u |] eqn:Et.
    + destruct (boundSet_valid _ _ Ht Et) as [Hv' Hy'].
      rewrite (textLe_row_bound u r Hv' Hy' Hr).
      now rewrite <- !andb_assoc.
    + now rewrite <- !andb_assoc.
  - destruct (boundSet (QueryFilter.To filter)) as [u |] eqn:Et.
    + destruct (boundSet_valid _ _ Ht Et) as [Hv' Hy'].
      rewrite (textLe_row_bound u r Hv' Hy' Hr).
      now rewrite <- !andb_assoc.
    + now rewrite <- !andb_assoc.
Qed.

Lemma matchesSecond_model (filter : QueryFilter.t) (r : Row) :
  matchesSecond filter r = true -> QueryFilter.Model filter <> "" ->
  model r = QueryFilter.Model filter.
Proof.
  unfold matchesSecond, fieldsMatch. intros H Hne.
  apply andb_true_iff in H. destruct H as [_ H].
  apply andb_true_iff in H. destruct H as [H _].
  apply andb_true_iff in H. destruct H as [H _].
  apply andb_true_iff in H. destruct H as [_ H].
  destruct (String.eqb_spec (QueryFilter.Model filter) ""); [contradiction |].
  now apply String.eqb_eq.
Qed.

(** C5, as first stated, fails: the record of exactly
    2025-01-01 00:00:00 is before a window that opens half a second
    later, and Query returns it. *)
Lemma Query_instant_counterexample :
  ~ queryOnInstants onTheSecond fromHalfPast.
Proof.
  unfold queryOnInstants. intros (q & Hq & Hall).
  vm_compute in Hq. injection Hq as <-.
  destruct (Hall _ (or_introl eq_refl)) as (row & Hin & _ & Hm).
  vm_compute in Hin. destruct Hin as [<- | []].
  vm_compute in Hm. discriminate Hm.
Qed.

(** C5, amended.  Query returns exactly the persisted records that
    match every set field of the filter, the time window being compared
    in whole wall-clock seconds of the stored timestamps (the
    sub-second parts and the zones of the bounds are not compared); the
    records are ordered newest first by stored timestamp and cut to the
    result cap when the limit is positive.  With a model set in the
    filter every record returned is of that model. *)
Theorem Query_whole_seconds (d : DB) (filter : QueryFilter.t) :
  canonicalDB d ->
  boundValid (QueryFilter.From filter) -> boundValid (QueryFilter.To filter) ->
  exists q l,
    Query d NoFault filter = Ok q
    /\ Permutation l (List.filter (matchesSecond filter) (rows d))
    /\ Sorted newestFirst l
    /\ q = map scanRow (capped (QueryFilter.Limit filter) l)
    /\ (QueryFilter.Model filter <> "" ->
        forall r, In r q -> UsageRecord.Model r = QueryFilter.Model filter).
Proof.
  intros Hd Hf Ht.
  unfold canonicalDB in Hd. rewrite Forall_forall in Hd.
  assert (Hsel : List.filter (whereClause filter) (rows d)
                 = List.filter (matchesSecond filter) (rows d)).
  { apply filter_ext_in. intros r Hr. apply whereClause_second; auto. }
  set (l := orderByTimestampDesc (List.filter (whereClause filter) (rows d))).
  assert (Hperm : Permutation l (List.filter (matchesSecond filter) (rows d))).
  { rewrite <- Hsel. apply sortBy_perm. }
  assert (Hin : forall r, In r l ->
            In r (rows d) /\ matchesSecond filter r = true).
  { intros r Hr. apply (Permutation_in _ Hperm) in Hr.
    now apply filter_In in Hr. }
  exists (map scanRow (capped (QueryFilter.Limit filter) l)), l.
  split; [reflexivity |]. split; [exact Hperm |]. split; [| split].
  - apply (Sorted_impl_in
             (fun a b => textLe (timestamp b) (timestamp a) = true)).
    + intros a b Ha Hb Hab. unfold newestFirst.
      rewrite textLe_rows in Hab
        by (apply Hd; first [apply (Hin a Ha) | apply (Hin b Hb)]).
      now apply Z.leb_le.
    + apply (sortBy_sorted
               (fun a b : Row => textLe (timestamp b) (timestamp a))).
      intros a b. apply textLe_total.
  - reflexivity.
  - intros Hne r Hr. apply in_map_iff in Hr. destruct Hr as (row & <- & Hrow).
    apply In_capped in Hrow. destruct (Hin row Hrow) as [_ Hm].
    cbn [scanRow UsageRecord.Model]. now apply matchesSecond_model.
Qed.

Lemma Query_whole_seconds_witness :
  canonicalDB queryStore
  /\ boundValid (QueryFilter.From gpt4Filter)
  /\ boundValid (QueryFilter.To gpt4Filter)
  /\ exists q l,
       Query queryStore NoFault gpt4Filter = Ok q
       /\ Permutation l (List.filter (matchesSecond gpt4Filter)
                                     (rows queryStore))
       /\ Sorted newestFirst l
       /\ q = map scanRow (capped (QueryFilter.Limit gpt4Filter) l)
       /\ (QueryFilter.Model gpt4Filter <> "" ->
           forall r, In r q ->
             UsageRecord.Model r = QueryFilter.Model gpt4Filter).
Proof.
  assert (Hd : canonicalDB queryStore) by solve_canonical.
  split; [exact Hd |]. split; [exact I |]. split; [exact I |].
  exact (Query_whole_seconds queryStore gpt4Filter Hd I I).
Defined.

(** The case of TestQuery: of three records, two of model gpt-4, the
    filter on gpt-4 returns those two. *)
Example Query_gpt4 :
  exists q, Query queryStore NoFault gpt4Filter = Ok q
    /\ map UsageRecord.Model q = ["gpt-4"; "gpt-4"]
    /\ map UsageRecord.TotalTokens q = [100; 150].
Proof. eexists. repeat split; reflexivity. Qed.

End QueryFacts.

(* ================================================================== *)
(** * The store: breakdown by model *)
(* ================================================================== *)

Section ByModelFacts.
Import decimal gotime listx sqlite persistence spec examples.

(** What [collect] returns lists the values, one for one. *)
Lemma collect_map {A B : Type} (f : A -> option B) (l : list A) :
  forall xs, collect (map f l) = Some xs ->
             Forall2 (fun a b => f a = Some b) l xs.
Proof.
  induction l as [| a l IH]; intros xs; cbn [map collect].
  - intros H. injection H as <-. constructor.
  - destruct (f a) as [b |] eqn:E; [| discriminate].
    destruct (collect (map f l)) as [ys |]; [| discriminate].
    intros H. injection H as <-. constructor; [exact E | now apply IH].
Qed.

Lemma collect_all {A B : Type} (f : A -> option B) (l : list A) :
  (forall a, In a l -> exists b, f a = Some b) ->
  exists xs, collect (map f l) = Some xs.
Proof.
  induction l as [| a l IH]; intros H; cbn [map collect]; [now eexists |].
  destruct (H a (or_introl eq_refl)) as (b & ->).
  destruct IH as (xs & ->); [intros a' Ha'; apply H; now right |].
  now eexists.
Qed.

Lemma groupSums_fits (g : list Row) :
  Forall nonNegativeRow g -> groupFits g ->
  groupSums g
  = Some (sumZ (map total_tokens g), sumZ (map prompt_tokens g),
          sumZ (map completion_tokens g)).
Proof.
  intros Hg (F1 & F2 & F3). unfold groupSums.
  rewrite !sum_fits; try assumption; try reflexivity;
    apply column_nonneg; try assumption; intros r Hr; apply Hr.
Qed.

Lemma groupSums_Some (g : list Row) (sums : Z * Z * Z) :
  groupSums g = Some sums ->
  sums = (sumZ (map total_tokens g), sumZ (map prompt_tokens g),
          sumZ (map completion_tokens g)).
Proof.
  unfold groupSums.
  destruct (sum (map total_tokens g)) as [z1 |] eqn:E1; [| discriminate].
  destruct (sum (map prompt_tokens g)) as [z2 |] eqn:E2; [| discriminate].
  destruct (sum (map completion_tokens g)) as [z3 |] eqn:E3;
    [| discriminate].
  intros H. injection H as <-.
  now rewrite (sum_Some _ _ E1), (sum_Some _ _ E2), (sum_Some _ _ E3).
Qed.

Lemma groupSums_Some_fits (g : list Row) (sums : Z * Z * Z) :
  Forall nonNegativeRow g -> groupSums g = Some sums -> groupFits g.
Proof.
  intros Hg. unfold groupSums.
  destruct (sum (map total_tokens g)) as [z1 |] eqn:E1; [| discriminate].
  destruct (sum (map prompt_tokens g)) as [z2 |] eqn:E2; [| discriminate].
  destruct (sum (map completion_tokens g)) as [z3 |] eqn:E3;
    [| discriminate].
  intros _.
  repeat split; eapply sum_Some_fits; try eassumption;
    apply column_nonneg; try assumption; intros r Hr; apply Hr.
Qed.

Lemma modelGroup_describes (name : string) (g : list Row)
  (mm : ModelMetrics.t) :
  Forall nonNegativeRow g ->
  modelGroup name g = Some mm ->
  ModelMetrics.Model mm = name /\ describes mm g.
Proof.
  intros Hg. unfold modelGroup.
  destruct (groupSums g) as [[[tokens prompt] completion] |] eqn:E;
    [| discriminate].
  apply groupSums_Some in E. injection E as -> -> ->.
  intros H. injection H as <-. split; [reflexivity |].
  unfold describes.
  cbn [ModelMetrics.Requests ModelMetrics.Tokens ModelMetrics.PromptTokens
       ModelMetrics.CompletionTokens ModelMetrics.AvgLatencyMs
       ModelMetrics.FailedRequests].
  repeat (split; [reflexivity |]).
  split; [| reflexivity].
  intros Hfit. apply avg_fits; [| exact Hfit].
  apply column_nonneg; [intros r Hr; apply Hr | exact Hg].
Qed.

Lemma tokens_order_total (a b : ModelMetrics.t) :
  (ModelMetrics.Tokens b <=? ModelMetrics.Tokens a) = true
  \/ (ModelMetrics.Tokens a <=? ModelMetrics.Tokens b) = true.
Proof.
  destruct (Z.leb_spec (ModelMetrics.Tokens b) (ModelMetrics.Tokens a));
    [now left | right; apply Z.leb_le; lia].
Qed.

(** C6, as first stated, fails: the record of exactly
    2025-01-01 00:00:00 is before a window that opens half a second
    later, and GetByModel has a row for its model. *)
Lemma GetByModel_instant_counterexample :
  ~ byModelOnInstants onTheSecond halfPast minuteLater.
Proof.
  unfold byModelOnInstants. intros (ms & Hms & Hall).
  vm_compute in Hms. injection Hms as <-.
  destruct (Hall _ (or_introl eq_refl)) as (r & Hin & Hw & _).
  vm_compute in Hin. destruct Hin as [<- | []].
  vm_compute in Hw. discriminate Hw.
Qed.

(** C6, amended.  Over a store whose token counts and latencies are
    not negative, GetByModel works on the records whose stored
    timestamp lies in the window in whole wall-clock seconds (the
    sub-second parts and the zones of the bounds are not compared).
    When the sums of total, prompt and completion tokens of every model
    are within the int64 range it returns one aggregate row per
    distinct model name among these records; the row of a model carries
    that model's request count, its three token sums, its failed count
    and, when the model's latency sum is within the int64 range, as
    mean latency the float64 quotient of that sum by the request count;
    the rows are ordered by total tokens, largest first.  When a token
    sum of some model is beyond the int64 range it returns an error. *)
Theorem GetByModel_whole_seconds (d : DB) (from to : Time) :
  canonicalDB d -> nonNegativeDB d ->
  validTime from -> fourDigitYear from -> validTime to -> fourDigitYear to ->
  exists sel,
    sel = filter (fun r => secondInWindow from to (rowTime r)) (rows d)
    /\ ((forall name, In name (map model sel) -> groupFits (ofModel name sel))
        -> exists ms,
             GetByModel d NoFault from to = Ok ms
             /\ NoDup (map ModelMetrics.Model ms)
             /\ (forall name,
                   In name (map ModelMetrics.Model ms)
                   <-> In name (map model sel))
             /\ (forall mm, In mm ms ->
                   describes mm (ofModel (ModelMetrics.Model mm) sel))
             /\ Sorted (fun a b => ModelMetrics.Tokens b <= ModelMetrics.Tokens a)
                       ms)
    /\ (~ (forall name, In name (map model sel) ->
                        groupFits (ofModel name sel))
        -> exists msg, GetByModel d NoFault from to = Err msg).
Proof.
  intros Hd Hn Hf Hyf Ht Hyt.
  unfold GetByModel. cbn [isNoFault].
  rewrite (filter_inWindow from to d Hf Hyf Ht Hyt Hd).
  set (sel := filter (fun r => secondInWindow from to (rowTime r)) (rows d)).
  set (names := distinctBy String.eqb (map model sel)).
  set (group := fun name =>
                  modelGroup name
                    (filter (fun r => String.eqb (model r) name) sel)).
  set (ord := fun a b : ModelMetrics.t =>
                ModelMetrics.Tokens b <=? ModelMetrics.Tokens a).
  assert (Hsel : Forall nonNegativeRow sel) by now apply selected_nonneg.
  assert (Hgroup : forall name, Forall nonNegativeRow (ofModel name sel))
    by (intros name; now apply selected_nonneg).
  assert (Hnames : forall name, In name names <-> In name (map model sel))
    by (intros name; apply distinctBy_In; apply String.eqb_eq).
  exists sel. split; [reflexivity |]. split.
  - intros Hfit.
    assert (Hall : forall name, In name names -> exists mm, group name = Some mm).
    { intros name Hin. subst group. cbv beta. unfold modelGroup.
      fold (ofModel name sel).
      rewrite (groupSums_fits _ (Hgroup name)
                 (Hfit name (proj1 (Hnames name) Hin))).
      now eexists. }
    destruct (collect_all group names Hall) as (groups & Hc).
    rewrite Hc. pose proof (collect_map group names groups Hc) as H2.
    assert (Hperm : Permutation (sortBy ord groups) groups)
      by apply sortBy_perm.
    assert (Hmodels : map ModelMetrics.Model groups = names).
    { clear - H2 Hgroup. induction H2 as [| name mm ns ms Hmm _ IH];
        [reflexivity |].
      cbn [map]. f_equal; [| exact IH].
      exact (proj1 (modelGroup_describes _ _ _ (Hgroup name) Hmm)). }
    exists (sortBy ord groups).
    split; [reflexivity |]. split; [| split; [| split]].
    + apply (Permutation_NoDup (l := map ModelMetrics.Model groups)).
      * apply Permutation_map. now symmetry.
      * rewrite Hmodels. apply distinctBy_NoDup. apply String.eqb_eq.
    + intros name. rewrite <- Hnames, <- Hmodels.
      split; apply Permutation_in; apply Permutation_map;
        [exact Hperm | now symmetry].
    + intros mm Hmm. apply (Permutation_in _ Hperm) in Hmm.
      clear - H2 Hmm Hgroup.
      induction H2 as [| name mm' ns ms Hmm' _ IH]; [destruct Hmm |].
      destruct Hmm as [<- | Hmm]; [| now apply IH].
      destruct (modelGroup_describes _ _ _ (Hgroup name) Hmm') as [-> Hdesc].
      exact Hdesc.
    + apply (Sorted_impl_in (fun a b => ord a b = true)).
      * intros a b _ _ Hab. now apply Z.leb_le.
      * apply sortBy_sorted. intros a b. apply tokens_order_total.
  - intros Hno.
    destruct (collect (map group names)) as [groups |] eqn:Hc;
      [| now eexists].
    exfalso. apply Hno. intros name Hin.
    pose proof (collect_map group names groups Hc) as H2.
    apply Hnames in Hin. clear - H2 Hin Hgroup.
    induction H2 as [| name' mm ns ms Hmm _ IH]; [destruct Hin |].
    destruct Hin as [-> | Hin]; [| now apply IH].
    subst group. cbv beta in Hmm. unfold modelGroup in Hmm.
    fold (ofModel name sel) in Hmm.
    destruct (groupSums (ofModel name sel)) as [sums |] eqn:E;
      [| discriminate].
    exact (groupSums_Some_fits _ _ (Hgroup name) E).
Qed.

Lemma GetByModel_whole_seconds_witness :
  canonicalDB byModelStore /\ nonNegativeDB byModelStore
  /\ validTime hourBefore /\ fourDigitYear hourBefore
  /\ validTime hourAfter /\ fourDigitYear hourAfter
  /\ exists sel,
       sel = filter (fun r => secondInWindow hourBefore hourAfter (rowTime r))
                    (rows byModelStore)
       /\ ((forall name, In name (map model sel) ->
                         groupFits (ofModel name sel))
           -> exists ms,
                GetByModel byModelStore NoFault hourBefore hourAfter = Ok ms
                /\ NoDup (map ModelMetrics.Model ms)
                /\ (forall name,
                      In name (map ModelMetrics.Model ms)
                      <-> In name (map model sel))
                /\ (forall mm, In mm ms ->
                      describes mm (ofModel (ModelMetrics.Model mm) sel))
                /\ Sorted (fun a b =>
                             ModelMetrics.Tokens b <= ModelMetrics.Tokens a)
                          ms)
       /\ (~ (forall name, In name (map model sel) ->
                           groupFits (ofModel name sel))
           -> exists msg,
                GetByModel byModelStore NoFault hourBefore hourAfter
                = Err msg).
Proof.
  assert (Hd : canonicalDB byModelStore) by solve_canonical.
  assert (Hn : nonNegativeDB byModelStore) by solve_nonneg.
  assert (Hf : validTime hourBefore) by solve_valid.
  assert (Hyf : fourDigitYear hourBefore) by solve_valid.
  assert (Ht : validTime hourAfter) by solve_valid.
  assert (Hyt : fourDigitYear hourAfter) by solve_valid.
  split; [exact Hd |]. split; [exact Hn |].
  split; [exact Hf |]. split; [exact Hyf |].
  split; [exact Ht |]. split; [exact Hyt |].
  exact (GetByModel_whole_seconds byModelStore hourBefore hourAfter
           Hd Hn Hf Hyf Ht Hyt).
Defined.

(** One model's tokens beyond the int64 range fail the whole query,
    the rows of the other models included. *)
Example GetByModel_integer_overflow :
  GetByModel
    (stored [usage noon "openai" "gpt-4" 0 0 100 false;
             usage noon "anthropic" "claude" 0 0 (2 ^ 63 - 1) false;
             usage noon "anthropic" "claude" 0 0 1 false])
    NoFault hourBefore hourAfter
  = Err "failed to query by model".
Proof. reflexivity. Qed.

(** The grouping of gpt-4 100, gpt-4 200 and claude 150: gpt-4 has two
    requests and 300 tokens, and comes first. *)
Example GetByModel_gpt4 :
  exists ms, GetByModel byModelStore NoFault hourBefore hourAfter = Ok ms
    /\ map ModelMetrics.Model ms = ["gpt-4"; "claude"]
    /\ map ModelMetrics.Requests ms = [2; 1]
    /\ map ModelMetrics.Tokens ms = [300; 150].
Proof. eexists. repeat split; reflexivity. Qed.

End ByModelFacts.

(* ================================================================== *)
(** * The store: time series and the week bucket *)
(* ================================================================== *)

Section TimeseriesFacts.
Import decimal gotime listx sqlite persistence spec examples.

Lemma weekOfYear_bounds (y mo d hh mi ss : Z) :
  1 <= mo <= 12 -> 1 <= d <= daysIn mo y ->
  0 <= weekOfYear (mkDateTime y mo d hh mi ss) <= 53.
Proof.
  intros Hm Hd. unfold weekOfYear, daysAfterMonday. cbn [Y M D].
  pose proof (yearDay_bounds y mo d Hm Hd) as B.
  pose proof (Z.mod_pos_bound (absDays y mo d) 7 ltac:(lia)) as W.
  assert ((if isLeap y then 1 else 0) <= 1) by (destruct (isLeap y); lia).
  split.
  - apply Z.div_pos; lia.
  - apply Z.lt_succ_r. apply Z.div_lt_upper_bound; lia.
Qed.

(** The week key that strftime writes for a stored timestamp. *)
Lemma strftime_week (y mo d hh mi ss : Z) :
  0 <= y <= 9999 -> 1 <= mo <= 12 -> 1 <= d <= daysIn mo y ->
  0 <= hh < 24 -> 0 <= mi < 60 -> 0 <= ss < 60 ->
  strftime (timeFormat "week") (canonicalText y mo d hh mi ss)
  = Some (fixed 4 y ++ "-W"
          ++ fixed 2 (weekOfYear (mkDateTime y mo d hh mi ss))).
Proof.
  intros Hy Hm Hd Hh Hmi Hs. unfold strftime.
  rewrite parseDateTime_canonicalText by assumption.
  rewrite <- (printf04d_fixed y Hy). reflexivity.
Qed.

(** Decoding of a week key by the layout "2006-W02": the week number
    is read as a day of January; week numbers 00 and 32 to 53 are no
    such day, the parse fails and the zero Time is left. *)
Lemma parseBucket_week (y w : Z) :
  0 <= y <= 9999 -> 0 <= w <= 53 ->
  parseBucket "week" (fixed 4 y ++ "-W" ++ fixed 2 w)
  = if (1 <=? w) && (w <=? 31) then Date y 1 w 0 0 0 0 0 else zeroTime.
Proof.
  intros Hy Hw. unfold parseBucket. cbn [String.eqb Ascii.eqb Bool.eqb].
  unfold ParseYearW02, longYear.
  rewrite read_fixed_roundtrip by (simpl; lia).
  change (skip ("-W" ++ fixed 2 w) "-W") with (Some (fixed 2 w)).
  replace (fixed 2 w) with (fixed 2 w ++ "")
    by (cbn [fixed append]; reflexivity).
  rewrite getnum_fixed2 by lia.
  change (daysIn 1 y) with 31.
  destruct (Z.leb_spec 1 w), (Z.leb_spec w 31), (Z.ltb_spec w 1),
    (Z.ltb_spec 31 w); try lia; reflexivity.
Qed.

(** Every week bucket of a stored timestamp is decoded to the day of
    January whose number is the week number, or to the zero Time. *)
Lemma week_bucket_decoding (y mo d hh mi ss : Z) :
  0 <= y <= 9999 -> 1 <= mo <= 12 -> 1 <= d <= daysIn mo y ->
  0 <= hh < 24 -> 0 <= mi < 60 -> 0 <= ss < 60 ->
  exists key,
    strftime (timeFormat "week") (canonicalText y mo d hh mi ss) = Some key
    /\ parseBucket "week" key
       = let w := weekOfYear (mkDateTime y mo d hh mi ss) in
         if (1 <=? w) && (w <=? 31) then Date y 1 w 0 0 0 0 0 else zeroTime.
Proof.
  intros Hy Hm Hd Hh Hmi Hs. eexists. split.
  - now apply strftime_week.
  - apply parseBucket_week; [assumption |].
    now apply weekOfYear_bounds.
Qed.

(** The hour, day and month buckets of a stored timestamp are decoded
    to the start of the hour, day and month. *)
Lemma hour_day_month_bucket_decoding (y mo d hh mi ss : Z) :
  0 <= y <= 9999 -> 1 <= mo <= 12 -> 1 <= d <= daysIn mo y ->
  0 <= hh < 24 -> 0 <= mi < 60 -> 0 <= ss < 60 ->
  (exists key,
     strftime (timeFormat "hour") (canonicalText y mo d hh mi ss) = Some key
     /\ parseBucket "hour" key = Date y mo d hh 0 0 0 0)
  /\ (exists key,
        strftime (timeFormat "day") (canonicalText y mo d hh mi ss) = Some key
        /\ parseBucket "day" key = Date y mo d 0 0 0 0 0)
  /\ (exists key,
        strftime (timeFormat "month") (canonicalText y mo d hh mi ss)
        = Some key
        /\ parseBucket "month" key = Date y mo 1 0 0 0 0 0).
Proof.
  intros Hy Hm Hd Hh Hmi Hs.
  pose proof (daysIn_bounds mo y) as Hin.
  pose proof (printf04d_fixed y Hy) as Hp.
  unfold strftime. rewrite parseDateTime_canonicalText by assumption.
  split; [| split].
  - exists (canonicalText y mo d hh 0 0).
    split; [unfold canonicalText; rewrite <- Hp; reflexivity |].
    unfold parseBucket. cbn [String.eqb Ascii.eqb Bool.eqb].
    rewrite Parse_canonicalText by (assumption || lia). reflexivity.
  - exists (canonicalText y mo d 0 0 0).
    split; [unfold canonicalText; rewrite <- Hp; reflexivity |].
    unfold parseBucket. cbn [String.eqb Ascii.eqb Bool.eqb].
    rewrite Parse_canonicalText by (assumption || lia). reflexivity.
  - exists (canonicalText y mo 1 0 0 0).
    split; [unfold canonicalText; rewrite <- Hp; reflexivity |].
    unfold parseBucket. cbn [String.eqb Ascii.eqb Bool.eqb].
    rewrite Parse_canonicalText by (assumption || lia). reflexivity.
Qed.

(** C1, on the code.  One record on Monday 2025-01-20, the first day
    of its week, in week 03 of the year as strftime [%W] counts.
    GetTimeseries with granularity "week" returns its bucket with
    BucketStart 2025-01-03: the key "2025-W03" written with the week
    number is read back with the day-of-month layout.  BucketStart is
    not the day the week starts on. *)
Theorem GetTimeseries_week_bucket_start :
  map (bucketOf "week") (rows weekStore) = [Some "2025-W03"]
  /\ daysAfterMonday 2025 1 20 = 0
  /\ exists p,
       GetTimeseries weekStore NoFault yearStart yearEnd "week" = Ok [p]
       /\ TimeseriesPoint.Requests p = 1
       /\ TimeseriesPoint.BucketStart p = utc 2025 1 3 0 0 0
       /\ TimeseriesPoint.BucketStart p <> utc 2025 1 20 0 0 0.
Proof.
  split; [reflexivity |]. split; [reflexivity |].
  eexists. split; [reflexivity |]. split; [reflexivity |].
  split; [reflexivity | discriminate].
Qed.

(** A record in the last week of the year: week 52 is no day of
    January, and BucketStart is the zero Time. *)
Example GetTimeseries_week_52 :
  map TimeseriesPoint.BucketStart
    match GetTimeseries
            (stored [usage (utc 2025 12 31 12 0 0) "test" "test-model"
                       0 0 100 false])
            NoFault yearStart yearEnd "week" with
    | Ok ps => ps
    | Err _ => []
    end
  = [zeroTime].
Proof. reflexivity. Qed.

(** The case of TestGetTimeseries: two records in one hour and one in
    the next give two buckets with counts 2 and 1, each starting on
    the hour; hours without records give no bucket. *)
Example GetTimeseries_hours :
  exists ps,
    GetTimeseries
      (stored [usage (utc 2025 6 1 10 15 0) "test" "test-model" 0 0 100 false;
               usage (utc 2025 6 1 10 45 30) "test" "test-model" 0 0 50 false;
               usage (utc 2025 6 1 11 5 0) "test" "test-model" 0 0 200 false])
      NoFault (utc 2025 6 1 8 0 0) (utc 2025 6 1 13 0 0) "hour" = Ok ps
    /\ map TimeseriesPoint.BucketStart ps
       = [utc 2025 6 1 10 0 0; utc 2025 6 1 11 0 0]
    /\ map TimeseriesPoint.Requests ps = [2; 1]
    /\ map TimeseriesPoint.Tokens ps = [150; 200].
Proof. eexists. repeat split; reflexivity. Qed.

End TimeseriesFacts.

(* ================================================================== *)
(** * The plug-in: shutdown *)
(* ================================================================== *)

Section PluginFacts.
Import decimal gotime listx sqlite persistence spec examples.

Lemma HandleUsage_stopped (w : World) (now : Time) (record : CoreRecord.t) :
  stopped (plugin w) = true -> HandleUsage w now record = w.
Proof.
  intros Hs. unfold HandleUsage. rewrite Hs.
  now destruct (storage (plugin w)).
Qed.

Lemma flushLocked_stopped (w : World) :
  stopped (plugin (flushLocked w)) = stopped (plugin w).
Proof. unfold flushLocked. now destruct (buffer (plugin w)). Qed.

Lemma Flush_stopped (w w' : World) (now : string) (f : fault) (e : error) :
  Flush w now f = Returns (w', e) ->
  stopped (plugin w') = stopped (plugin w).
Proof.
  unfold Flush. destruct (buffer (plugin w)) as [| r rs].
  - intros H. now injection H as <- _.
  - destruct (storage (plugin w)); [| discriminate].
    destruct (InsertBatch (db w) now f (r :: rs)).
    intros H. now injection H as <- _.
Qed.

Lemma Stop_stopped (w w' : World) (now : string) (f : fault) (e : error) :
  Stop w now f = Returns (w', e) -> stopped (plugin w') = true.
Proof.
  unfold Stop. destruct (stopped (plugin w)) eqn:Hs.
  - intros H. now injection H as <- _.
  - cbn [setStopped stopCh]. destruct (stopCh (plugin w)); [discriminate |].
    intros H. apply Flush_stopped in H. exact H.
Qed.

Lemma Stop_when_stopped (w : World) (now : string) (f : fault) :
  stopped (plugin w) = true -> Stop w now f = Returns (w, None).
Proof. intros Hs. unfold Stop. now rewrite Hs. Qed.

(** No operation restarts a stopped plug-in. *)
Lemma step_stopped (w w' : World) (o : op) :
  stopped (plugin w) = true -> step w o = Returns w' ->
  stopped (plugin w') = true.
Proof.
  intros Hs. destruct o as [now record | | i now f | now f | now f];
    cbn [step].
  - intros H. injection H as <-. now rewrite HandleUsage_stopped.
  - intros H. injection H as <-. unfold timerTick. rewrite Hs. exact Hs.
  - intros H. injection H as <-. unfold backgroundWrite.
    now destruct (nth_error (inflight w) i).
  - destruct (Flush w now f) as [[w1 e] |] eqn:E; [| discriminate].
    intros H. injection H as <-. now rewrite (Flush_stopped _ _ _ _ _ E).
  - rewrite (Stop_when_stopped w now f Hs).
    intros H. now injection H as <-.
Qed.

Lemma run_stopped (ops : list op) :
  forall w w', stopped (plugin w) = true -> run w ops = Returns w' ->
               stopped (plugin w') = true.
Proof.
  induction ops as [| o ops IH]; intros w w' Hs; cbn [run].
  - intros H. now injection H as <-.
  - destruct (step w o) as [w1 |] eqn:E; [| discriminate].
    apply IH. now apply (step_stopped w w1 o).
Qed.

(** Plug-ins that the package builds are stopped without a panic. *)
Lemma Stop_returns (w : World) (now : string) (f : fault) :
  pluginInv w -> exists w' e, Stop w now f = Returns (w', e).
Proof.
  intros [Hch Hst]. unfold Stop.
  destruct (stopped (plugin w)) eqn:Hs; [eauto |].
  cbn [setStopped stopCh]. rewrite Hch.
  unfold Flush.
  cbn [plugin closeStopCh setStopped buffer storage db inflight].
  destruct (buffer (plugin w)) as [| r rs] eqn:Hb; [eauto |].
  destruct (storage (plugin w)) eqn:Est.
  - destruct (InsertBatch (db w) now f (r :: rs)). eauto.
  - specialize (Hst eq_refl). discriminate.
Qed.

Lemma NewPersistencePlugin_inv (st : option Storage) (size interval : Z)
  (d : DB) :
  pluginInv (mkWorld (NewPersistencePlugin st size interval) d []).
Proof. split; reflexivity. Qed.

Lemma flushLocked_inv (w : World) : pluginInv w -> pluginInv (flushLocked w).
Proof.
  intros Hinv. unfold flushLocked.
  destruct (buffer (plugin w)); [exact Hinv |].
  destruct Hinv as [Hch _].
  split; cbn [plugin setBuffer stopCh stopped storage buffer];
    [exact Hch | reflexivity].
Qed.

Lemma Flush_inv (w w' : World) (now : string) (f : fault) (e : error) :
  pluginInv w -> Flush w now f = Returns (w', e) -> pluginInv w'.
Proof.
  intros Hinv. unfold Flush.
  destruct (buffer (plugin w)) as [| r rs].
  - intros H. injection H as <- _. exact Hinv.
  - destruct Hinv as [Hch _].
    destruct (storage (plugin w)); [| discriminate].
    destruct (InsertBatch (db w) now f (r :: rs)).
    intros H. injection H as <- _.
    split; cbn [plugin setBuffer stopCh stopped storage buffer];
      [exact Hch | reflexivity].
Qed.

(** The invariant of the plug-in is kept by every operation. *)
Lemma step_inv (w w' : World) (o : op) :
  pluginInv w -> step w o = Returns w' -> pluginInv w'.
Proof.
  intros Hinv. pose proof Hinv as [Hch Hst].
  destruct o as [now record | | i now f | now f | now f]; cbn [step].
  - intros H. injection H as <-. unfold HandleUsage.
    destruct (storage (plugin w)) eqn:Est; [| exact Hinv].
    destruct (stopped (plugin w)) eqn:Hs; [exact Hinv |].
    match goal with
    | |- pluginInv (if _ then flushLocked ?w1 else ?w1) =>
        assert (Hw1 : pluginInv w1)
          by (split; cbn [plugin setBuffer stopCh stopped storage];
              [congruence | rewrite Est; discriminate]);
        destruct (_ <=? _); [now apply flushLocked_inv | exact Hw1]
    end.
  - intros H. injection H as <-. unfold timerTick.
    destruct (_ && _); [now apply flushLocked_inv | exact Hinv].
  - intros H. injection H as <-. unfold backgroundWrite.
    destruct (nth_error (inflight w) i); [split; assumption | exact Hinv].
  - destruct (Flush w now f) as [[w1 e] |] eqn:E; [| discriminate].
    intros H. injection H as <-. exact (Flush_inv _ _ _ _ _ Hinv E).
  - destruct (Stop w now f) as [[w1 e] |] eqn:E; [| discriminate].
    intros H. injection H as <-. revert E. unfold Stop.
    destruct (stopped (plugin w)) eqn:Hs.
    + intros H. injection H as <- _. exact Hinv.
    + cbn [setStopped stopCh]. rewrite Hch. intros H.
      apply Flush_inv in H; [exact H |].
      split; cbn [plugin closeStopCh setStopped stopCh stopped storage buffer];
        [reflexivity | exact Hst].
Qed.

(** C7. After Stop has returned, every later submit is a no-op,
    whatever happened before the shutdown and whatever operations run
    after it: HandleUsage returns the world it was given, with the same
    buffer, the same store (hence the same record count) and the same
    background writes pending. *)
Theorem HandleUsage_after_Stop (w w1 w2 : World) (now : string) (f : fault)
  (e : error) (later : list op) (now' : Time) (record : CoreRecord.t) :
  Stop w now f = Returns (w1, e) ->
  run w1 later = Returns w2 ->
  HandleUsage w2 now' record = w2
  /\ buffer (plugin (HandleUsage w2 now' record)) = buffer (plugin w2)
  /\ GetRecordCount (db (HandleUsage w2 now' record)) NoFault
     = GetRecordCount (db w2) NoFault.
Proof.
  intros Hstop Hrun.
  assert (E : HandleUsage w2 now' record = w2).
  { apply HandleUsage_stopped.
    apply (run_stopped later w1 w2); [| exact Hrun].
    exact (Stop_stopped _ _ _ _ _ Hstop). }
  rewrite E. repeat split; reflexivity.
Qed.

Lemma HandleUsage_after_Stop_witness :
  Stop running clock NoFault = Returns (afterStop, None)
  /\ run afterStop [OpTimerTick; OpHandleUsage noon (event noon "gpt-4" 7)]
     = Returns afterStop
  /\ (HandleUsage afterStop noon (event noon "claude" 5) = afterStop
      /\ buffer (plugin (HandleUsage afterStop noon (event noon "claude" 5)))
         = buffer (plugin afterStop)
      /\ GetRecordCount
           (db (HandleUsage afterStop noon (event noon "claude" 5))) NoFault
         = GetRecordCount (db afterStop) NoFault).
Proof.
  split; [reflexivity |]. split; [reflexivity |].
  exact (HandleUsage_after_Stop running afterStop afterStop clock NoFault None
           [OpTimerTick; OpHandleUsage noon (event noon "gpt-4" 7)]
           noon (event noon "claude" 5) eq_refl eq_refl).
Defined.

(** C8. Stop is idempotent: once a first Stop has returned, a second
    Stop returns no error and the same world, so the plug-in, the
    store and the pending background writes are unchanged and nothing
    is flushed again. *)
Theorem Stop_idempotent (w w1 : World) (now now' : string) (f f' : fault)
  (e : error) :
  Stop w now f = Returns (w1, e) ->
  Stop w1 now' f' = Returns (w1, None).
Proof.
  intros Hstop. apply Stop_when_stopped.
  exact (Stop_stopped _ _ _ _ _ Hstop).
Qed.

Lemma Stop_idempotent_witness :
  Stop running clock NoFault = Returns (afterStop, None)
  /\ Stop afterStop clock CommitFails = Returns (afterStop, None).
Proof.
  split; [reflexivity |].
  exact (Stop_idempotent running afterStop clock clock NoFault CommitFails
           None eq_refl).
Defined.

(** The shutdown of a running plug-in with one buffered event: the
    final flush stores the event, a later submit does not reach the
    store, and a second Stop does nothing. *)
Example shutdown_of_running :
  buffer (plugin running) <> []
  /\ GetRecordCount (db running) NoFault = Ok 0
  /\ buffer (plugin afterStop) = []
  /\ GetRecordCount (db afterStop) NoFault = Ok 1
  /\ GetRecordCount
       (db (HandleUsage afterStop noon (event noon "claude" 5))) NoFault
     = Ok 1.
Proof. repeat split; try reflexivity. discriminate. Qed.

End PluginFacts.

(* ================================================================== *)
(** * The store: identifiers, accounting of Cleanup, result cap *)
(* ================================================================== *)

Section StoreHistory.
Import decimal gotime listx sqlite persistence spec examples storespec.

Lemma InsertBatch_state (d : DB) (now : string) (f : fault)
  (records : list UsageRecord.t) :
  fst (InsertBatch d now f records) = d
  \/ fst (InsertBatch d now f records)
     = {| rows := rows d ++ persistedRows (seq d + 1) now records;
          seq := seq d + Z.of_nat (List.length records) |}.
Proof.
  unfold InsertBatch. destruct records as [| r rs]; [now left |].
  destruct (execBatch d now f 0 (r :: rs)) as [tx |] eqn:E.
  - apply execBatch_Some in E. subst tx.
    destruct f; cbn [fst]; auto.
  - destruct f; cbn [fst]; auto.
Qed.

Lemma Insert_state (d : DB) (now : string) (f : fault)
  (record : UsageRecord.t) :
  fst (Insert d now f record) = d
  \/ fst (Insert d now f record)
     = {| rows := rows d ++ persistedRows (seq d + 1) now [record];
          seq := seq d + Z.of_nat (List.length [record]) |}.
Proof.
  unfold Insert. destruct (isNoFault f); cbn [fst]; [right | now left].
  reflexivity.
Qed.

Lemma StronglySorted_app (l1 l2 : list Z) :
  StronglySorted Z.lt l1 -> StronglySorted Z.lt l2 ->
  (forall x y, In x l1 -> In y l2 -> x < y) ->
  StronglySorted Z.lt (l1 ++ l2).
Proof.
  intros H1 H2 H. induction H1 as [| x l1 Hs IH Hx]; [exact H2 |].
  simpl. constructor.
  - apply IH. intros a b Ha Hb. apply H; [now right | exact Hb].
  - apply Forall_app. split; [exact Hx |].
    apply Forall_forall. intros y Hy. apply H; [now left | exact Hy].
Qed.

Lemma StronglySorted_filter_ids (p : Row -> bool) (l : list Row) :
  StronglySorted Z.lt (map id l) ->
  StronglySorted Z.lt (map id (filter p l)).
Proof.
  induction l as [| r l IH]; intros H; [constructor |].
  simpl in H. inversion H as [| ? ? Hs Hr]; subst.
  simpl. destruct (p r); [| now apply IH].
  simpl. constructor; [now apply IH |].
  rewrite Forall_forall in *. intros y Hy.
  apply Hr. apply in_map_iff in Hy. destruct Hy as (z & <- & Hz).
  apply filter_In in Hz. apply in_map. tauto.
Qed.

Lemma persistedRows_ids (records : list UsageRecord.t) :
  forall next now,
    StronglySorted Z.lt (map id (persistedRows next now records))
    /\ Forall (fun r => next <= id r
                        < next + Z.of_nat (List.length records))
              (persistedRows next now records).
Proof.
  induction records as [| r rs IH]; intros next now.
  - split; constructor.
  - destruct (IH (next + 1) now) as [Hs Hb].
    cbn [persistedRows map List.length]. rewrite Nat2Z.inj_succ. split.
    + constructor; [exact Hs |].
      rewrite Forall_forall in *. intros y Hy.
      apply in_map_iff in Hy. destruct Hy as (z & <- & Hz).
      specialize (Hb z Hz). cbn [rowOf id]. lia.
    + constructor; [cbn [rowOf id]; lia |].
      rewrite Forall_forall in *. intros z Hz. specialize (Hb z Hz). lia.
Qed.

Lemma idsOk_appended (d : DB) (now : string) (records : list UsageRecord.t) :
  idsOk d ->
  idsOk {| rows := rows d ++ persistedRows (seq d + 1) now records;
           seq := seq d + Z.of_nat (List.length records) |}.
Proof.
  intros (Hq & Hs & Hb).
  destruct (persistedRows_ids records (seq d + 1) now) as [Hs' Hb'].
  rewrite Forall_forall in Hb, Hb'.
  split; [cbn [seq]; lia |]. split; cbn [rows seq].
  - rewrite map_app. apply StronglySorted_app; try assumption.
    intros x y Hx Hy.
    apply in_map_iff in Hx. destruct Hx as (a & <- & Ha).
    apply in_map_iff in Hy. destruct Hy as (b & <- & Hb0).
    specialize (Hb a Ha). specialize (Hb' b Hb0). lia.
  - apply Forall_forall. intros r Hr. apply in_app_or in Hr.
    destruct Hr as [Hr | Hr];
      [specialize (Hb r Hr) | specialize (Hb' r Hr)]; cbv beta in *; lia.
Qed.

Lemma StronglySorted_lt_NoDup (l : list Z) :
  StronglySorted Z.lt l -> NoDup l.
Proof.
  induction 1 as [| x l Hs IH Hx]; constructor; [| exact IH].
  intros Hin. rewrite Forall_forall in Hx. specialize (Hx x Hin). lia.
Qed.

Lemma applyStoreOp_ids (d : DB) (o : storeOp) :
  idsOk d ->
  idsOk (applyStoreOp d o)
  /\ seq d <= seq (applyStoreOp d o)
  /\ forall r, In r (rows (applyStoreOp d o)) ->
               In r (rows d) \/ seq d < id r.
Proof.
  intros Hd.
  assert (Happ : forall now records d',
            d' = d
            \/ d' = {| rows := rows d ++ persistedRows (seq d + 1) now records;
                       seq := seq d + Z.of_nat (List.length records) |} ->
            idsOk d' /\ seq d <= seq d'
            /\ forall r, In r (rows d') -> In r (rows d) \/ seq d < id r).
  { intros now records d' [-> | ->].
    - split; [exact Hd |]. split; [lia | auto].
    - split; [now apply idsOk_appended |]. split; [cbn [seq]; lia |].
      cbn [rows]. intros r Hr. apply in_app_or in Hr.
      destruct Hr as [Hr | Hr]; [now left | right].
      destruct (persistedRows_ids records (seq d + 1) now) as [_ Hb].
      rewrite Forall_forall in Hb. specialize (Hb r Hr). lia. }
  destruct o as [now f record | now f records | f olderThan];
    cbn [applyStoreOp].
  - apply (Happ now [record]), Insert_state.
  - apply (Happ now records), InsertBatch_state.
  - unfold Cleanup. destruct (isNoFault f); cbn [fst];
      [| split; [exact Hd | split; [lia | auto]]].
    destruct Hd as (Hq & Hs & Hb).
    split; [split; [| split] |]; cbn [rows seq].
    + exact Hq.
    + now apply StronglySorted_filter_ids.
    + rewrite Forall_forall in *. intros r Hr. apply filter_In in Hr.
      now apply Hb.
    + split; [lia |]. intros r Hr. apply filter_In in Hr. tauto.
Qed.

Lemma runStore_ids (ops : list storeOp) :
  forall d, idsOk d -> idsOk (runStore d ops).
Proof.
  induction ops as [| o ops IH]; intros d Hd; [exact Hd |].
  cbn [runStore fold_left]. apply IH. now apply applyStoreOp_ids.
Qed.

(** X1. Identifiers are never reused.  After any history of Insert,
    InsertBatch and Cleanup calls on a new store, whatever calls
    failed, the identifiers of the rows are distinct and grow in row
    order; a further operation never lowers the counter and every row
    it adds has an identifier above the counter, so above every
    identifier handed out before, deleted rows included. *)
Theorem identifiers_never_reused (ops : list storeOp) (o : storeOp) :
  NoDup (map id (rows (runStore emptyDB ops)))
  /\ StronglySorted Z.lt (map id (rows (runStore emptyDB ops)))
  /\ Forall (fun r => 0 < id r <= seq (runStore emptyDB ops))
            (rows (runStore emptyDB ops))
  /\ seq (runStore emptyDB ops) <= seq (applyStoreOp (runStore emptyDB ops) o)
  /\ forall r, In r (rows (applyStoreOp (runStore emptyDB ops) o)) ->
               In r (rows (runStore emptyDB ops))
               \/ seq (runStore emptyDB ops) < id r.
Proof.
  assert (H0 : idsOk emptyDB)
    by (split; [cbn; lia | split; constructor]).
  pose proof (runStore_ids ops emptyDB H0) as Hd.
  destruct (applyStoreOp_ids _ o Hd) as (_ & Hseq & Hnew).
  destruct Hd as (_ & Hs & Hb).
  split; [now apply StronglySorted_lt_NoDup |].
  repeat split; assumption.
Qed.

(** X2. Cleanup accounts for every row: the number it returns and the
    number of rows it leaves add up to the rows there were, every row
    left was there before, the identifier counter is kept, and a second
    Cleanup with the same cut-off deletes nothing.  When the database
    call fails it returns 0 with the error and the store is unchanged. *)
Theorem Cleanup_accounts (d : DB) (olderThan : Time) (f : fault) :
  (exists d' n,
     Cleanup d NoFault olderThan = (d', (n, None))
     /\ n + Z.of_nat (List.length (rows d')) = Z.of_nat (List.length (rows d))
     /\ (forall r, In r (rows d') -> In r (rows d))
     /\ seq d' = seq d
     /\ Cleanup d' NoFault olderThan = (d', (0, None)))
  /\ (isNoFault f = false ->
      exists msg, Cleanup d f olderThan = (d, (0, Some msg))).
Proof.
  split.
  - unfold Cleanup. cbn [isNoFault].
    set (doomed := fun r => textLt (timestamp r) (Format olderThan)).
    eexists. eexists. split; [reflexivity |].
    cbn [rows seq]. split; [| split; [| split]].
    + exact (count_split doomed (rows d)).
    + intros r Hr. apply filter_In in Hr. tauto.
    + reflexivity.
    + rewrite count_none
        by (intros r Hr; apply filter_In in Hr;
            now destruct Hr as [_ Hr]; apply negb_true_iff in Hr).
      rewrite filter_true
        by (intros r Hr; apply filter_In in Hr; tauto).
      reflexivity.
  - intros Hf. unfold Cleanup. rewrite Hf. eauto.
Qed.

(** X3. The size of the result of Query: with a positive Limit it is
    the smaller of Limit and the number of rows that pass the WHERE
    clause; with a zero or negative Limit it is the number of rows that
    pass, the cap being left out; it never exceeds the number of rows
    of the store. *)
Theorem Query_result_size (d : DB) (filter : QueryFilter.t) :
  exists q,
    Query d NoFault filter = Ok q
    /\ List.length q
       = (if 0 <? QueryFilter.Limit filter
          then Nat.min (Z.to_nat (QueryFilter.Limit filter))
                 (List.length (List.filter (whereClause filter) (rows d)))
          else List.length (List.filter (whereClause filter) (rows d)))
    /\ (List.length q <= List.length (rows d))%nat.
Proof.
  unfold Query. cbn [isNoFault]. eexists. split; [reflexivity |].
  set (sel := List.filter (whereClause filter) (rows d)).
  assert (Hsort : List.length (orderByTimestampDesc sel) = List.length sel)
    by (apply Permutation_length, sortBy_perm).
  assert (Hsel : (List.length sel <= List.length (rows d))%nat)
    by apply filter_length_le.
  rewrite length_map. unfold limitClause.
  destruct (0 <? QueryFilter.Limit filter).
  - rewrite length_firstn, Hsort. split; [reflexivity | lia].
  - rewrite Hsort. split; [reflexivity | exact Hsel].
Qed.

End StoreHistory.

(* ================================================================== *)
(** * The store: breakdowns add up to the totals *)
(* ================================================================== *)

Section GroupSums.
Import listx.
Context {A K : Type} (eqb : K -> K -> bool) (key : A -> K).
Hypothesis eqb_spec : forall x y, eqb x y = true <-> x = y.

Lemma sumZ_app (l1 l2 : list Z) : sumZ (l1 ++ l2) = sumZ l1 + sumZ l2.
Proof.
  unfold sumZ. induction l1 as [| x l1 IH]; simpl; [reflexivity | lia].
Qed.


Lemma sumZ_map_add {B : Type} (f g : B -> Z) (l : list B) :
  sumZ (map (fun x => f x + g x) l) = sumZ (map f l) + sumZ (map g l).
Proof.
  unfold sumZ. induction l as [| x l IH]; simpl; [reflexivity | lia].
Qed.

Lemma sumZ_map_zero {B : Type} (l : list B) :
  sumZ (map (fun _ => 0) l) = 0.
Proof.
  unfold sumZ. induction l as [| x l IH]; simpl; [reflexivity | lia].
Qed.

Lemma sumZ_one_key (a : K) (v : Z) (ks : list K) :
  NoDup ks -> In a ks ->
  sumZ (map (fun k => if eqb a k then v else 0) ks) = v.
Proof.
  induction 1 as [| k ks Hk Hnd IH]; intros Hin; [contradiction |].
  cbn [map]. change (sumZ (?x :: ?l)) with (x + sumZ l).
  destruct (eqb a k) eqn:E.
  - apply eqb_spec in E. subst k.
    replace (sumZ (map (fun k => if eqb a k then v else 0) ks)) with 0;
      [lia |].
    symmetry.
    transitivity (sumZ (map (fun _ : K => 0) ks)); [| apply sumZ_map_zero].
    apply (f_equal sumZ). apply map_ext_in. intros k Hk'.
    destruct (eqb a k) eqn:E'; [| reflexivity].
    apply eqb_spec in E'. subst k. contradiction.
  - destruct Hin as [-> | Hin]; [| rewrite IH by assumption; lia].
    assert (eqb a a = true) by now apply eqb_spec. congruence.
Qed.

(** Summing group by group over distinct keys that cover the list is
    summing over the list. *)
Lemma sumZ_groups (g : A -> Z) (ks : list K) (sel : list A) :
  NoDup ks -> (forall r, In r sel -> In (key r) ks) ->
  sumZ (map (fun k => sumZ (map g (filter (fun r => eqb (key r) k) sel))) ks)
  = sumZ (map g sel).
Proof.
  intros Hnd. induction sel as [| r sel IH]; intros Hcov.
  - cbn [filter map]. apply sumZ_map_zero.
  - cbn [map]. change (sumZ (g r :: ?l)) with (g r + sumZ l).
    rewrite <- IH by (intros x Hx; apply Hcov; now right).
    rewrite <- (sumZ_one_key (key r) (g r) ks Hnd)
      by (apply Hcov; now left).
    rewrite <- sumZ_map_add. apply (f_equal sumZ). apply map_ext. intros k.
    cbn [filter]. destruct (eqb (key r) k); reflexivity.
Qed.

Lemma length_as_sum {B : Type} (l : list B) :
  Z.of_nat (List.length l) = sumZ (map (fun _ => 1) l).
Proof.
  unfold sumZ. induction l as [| x l IH]; [reflexivity |].
  cbn [List.length map fold_right]. rewrite Nat2Z.inj_succ. lia.
Qed.

Lemma count_as_sum {B : Type} (p : B -> bool) (l : list B) :
  count p l = sumZ (map (fun x => if p x then 1 else 0) l).
Proof.
  unfold count, sumZ. induction l as [| x l IH]; [reflexivity |].
  cbn [filter map fold_right]. destruct (p x);
    cbn [List.length]; rewrite ?Nat2Z.inj_succ; lia.
Qed.

End GroupSums.

Section BreakdownSums.
Import decimal gotime listx sqlite persistence spec examples aggregate
  storespec.






End BreakdownSums.

(* ================================================================== *)
(** * The store: buckets of the time series *)
(* ================================================================== *)

Section BucketFacts.
Import decimal gotime listx sqlite persistence spec examples aggregate
  storespec.

Lemma nullableEqb_eq (a b : option string) :
  nullableEqb a b = true <-> a = b.
Proof.
  destruct a as [x |], b as [y |]; simpl; try (split; congruence).
  rewrite String.eqb_eq. split; congruence.
Qed.

Lemma nullableLe_total (a b : option string) :
  nullableLe a b = true \/ nullableLe b a = true.
Proof.
  destruct a as [x |], b as [y |]; simpl; auto. apply textLe_total.
Qed.

(** The bucket keys of a selection: distinct, in ascending order, and
    each the bucket of a selected row. *)
Lemma bucketKeys (interval : string) (sel : list Row) :
  let keys := sortBy nullableLe
                (distinctBy nullableEqb (map (bucketOf interval) sel)) in
  NoDup keys
  /\ Sorted (fun a b => nullableLe a b = true) keys
  /\ (forall b, In b keys <-> exists r, In r sel /\ bucketOf interval r = b).
Proof.
  intros keys.
  assert (Hperm : Permutation keys
            (distinctBy nullableEqb (map (bucketOf interval) sel)))
    by apply sortBy_perm.
  split; [| split].
  - apply (Permutation_NoDup (Permutation_sym Hperm)).
    apply distinctBy_NoDup, nullableEqb_eq.
  - apply sortBy_sorted, nullableLe_total.
  - intros b. split.
    + intros Hb. apply (Permutation_in _ Hperm) in Hb.
      apply (proj1 (distinctBy_In nullableEqb nullableEqb_eq _ _)) in Hb.
      apply in_map_iff in Hb. destruct Hb as (r & E & Hr). eauto.
    + intros (r & Hr & E). apply (Permutation_in _ (Permutation_sym Hperm)).
      apply (proj2 (distinctBy_In nullableEqb nullableEqb_eq _ _)).
      rewrite <- E. now apply in_map.
Qed.

(** Over keys that are not skipped the loop builds one point per
    result row. *)
Lemma scanTimeseries_kept (interval : string)
  (G : option string -> list Row) (keys : list (option string)) :
  Forall keptKey keys ->
  Forall (fun b => groupSums (G b) <> None) keys ->
  scanTimeseries interval (map (fun b => (b, G b)) keys)
  = map (fun b => pointOf interval b (G b)) keys.
Proof.
  induction 1 as [| b keys (key & -> & Hne) Hk IH]; [reflexivity |].
  intros Hs. inversion Hs as [| ? ? Hb Hs']; subst.
  cbn [map scanTimeseries]. rewrite IH by assumption.
  destruct (groupSums (G (Some key))) as [[[tokens prompt] completion] |]
    eqn:E; [| contradiction].
  apply groupSums_Some in E. injection E as -> -> ->.
  destruct (String.eqb_spec key ""); [contradiction | reflexivity].
Qed.

Lemma scanTimeseries_nonempty (interval : string)
  (rs : list (option string * list Row)) :
  Forall (fun bg => snd bg <> []) rs ->
  Forall (fun p => 1 <= TimeseriesPoint.Requests p)
         (scanTimeseries interval rs).
Proof.
  induction 1 as [| [b g] rs Hg Hrs IH]; [constructor |].
  cbn [scanTimeseries].
  destruct (groupSums g) as [[[tokens prompt] completion] |]; [| constructor].
  destruct b as [key |]; [| exact IH].
  destruct (String.eqb key ""); [exact IH |].
  constructor; [| exact IH].
  cbn [TimeseriesPoint.Requests snd] in *.
  destruct g; [contradiction | cbn [List.length]; lia].
Qed.

(** X5. The time series has no empty bucket: every point that
    GetTimeseries returns counts at least one request, for every store,
    window and interval name, whatever the outcome of the database
    call. *)
Theorem GetTimeseries_no_empty_bucket (d : DB) (f : fault) (from to : Time)
  (interval : string) (ps : list TimeseriesPoint.t) :
  GetTimeseries d f from to interval = Ok ps ->
  Forall (fun p => 1 <= TimeseriesPoint.Requests p) ps.
Proof.
  unfold GetTimeseries. destruct (isNoFault f); [| discriminate].
  intros Hps.
  assert (E : ps = scanTimeseries interval
                     (timeseriesRows interval
                        (filter (inWindow from to) (rows d)))).
  { destruct (timeseriesRows interval (filter (inWindow from to) (rows d)))
      as [| [b g] rs]; [now injection Hps as <- |].
    destruct (groupSums g); [now injection Hps as <- | discriminate]. }
  rewrite E. clear Hps E.
  apply scanTimeseries_nonempty. unfold timeseriesRows.
  set (sel := filter (inWindow from to) (rows d)).
  destruct (bucketKeys interval sel) as (_ & _ & Hkeys).
  apply Forall_forall. intros [b g] Hbg.
  apply in_map_iff in Hbg. destruct Hbg as (b' & E & Hb').
  injection E as <- <-. cbn [snd].
  apply Hkeys in Hb'. destruct Hb' as (r & Hr & Er).
  intros Hnil.
  assert (Hin : In r (filter (fun r0 => nullableEqb (bucketOf interval r0) b')
                             sel)).
  { apply filter_In. split; [exact Hr |]. now apply nullableEqb_eq. }
  rewrite Hnil in Hin. contradiction.
Qed.

Lemma GetTimeseries_no_empty_bucket_witness :
  exists ps,
    GetTimeseries totalsStore NoFault hourBefore hourAfter "day" = Ok ps
    /\ Forall (fun p => 1 <= TimeseriesPoint.Requests p) ps.
Proof.
  eexists. split; [vm_compute; reflexivity |].
  apply (GetTimeseries_no_empty_bucket totalsStore NoFault hourBefore
           hourAfter "day").
  vm_compute. reflexivity.
Defined.

(** The bucket of a stored timestamp is never NULL or empty. *)
Lemma bucketOf_kept (interval : string) (r : Row) :
  canonicalRow r -> keptKey (bucketOf interval r).
Proof.
  intros (t & Hv & Hy & E).
  unfold keptKey, bucketOf, strftime.
  rewrite E, (Format_canonical t Hv Hy).
  destruct Hv as (Hm & Hd & Hh & Hmi & Hs & _).
  rewrite parseDateTime_canonicalText by assumption.
  pose proof (printf04d_fixed (year t) Hy) as Hp.
  unfold timeFormat.
  destruct (String.eqb interval "hour");
    [| destruct (String.eqb interval "day");
       [| destruct (String.eqb interval "week");
          [| destruct (String.eqb interval "month")]]];
    cbn [render Ascii.eqb Bool.eqb Y M D h m s]; rewrite Hp;
    (eexists; split; [reflexivity | cbn [fixed append]; discriminate]).
Qed.

Lemma selected_keys_kept (interval : string) (d : DB) (from to : Time) :
  canonicalDB d ->
  Forall keptKey
    (sortBy nullableLe
       (distinctBy nullableEqb
          (map (bucketOf interval) (filter (inWindow from to) (rows d))))).
Proof.
  intros Hd. unfold canonicalDB in Hd. rewrite Forall_forall in Hd.
  apply Forall_forall. intros b Hb.
  apply (bucketKeys interval) in Hb. destruct Hb as (r & Hr & <-).
  apply bucketOf_kept, Hd. apply filter_In in Hr. tauto.
Qed.

(** Over values that are not negative a selection sums to at most
    the whole. *)
Lemma sumZ_filter_le (col : Row -> Z) (p : Row -> bool) (rs : list Row) :
  Forall (fun x => 0 <= x) (map col rs) ->
  sumZ (map col (filter p rs)) <= sumZ (map col rs).
Proof.
  induction rs as [| r rs IH]; intros H; [reflexivity |].
  cbn [map] in H. inversion H as [| ? ? Hr Hrs]; subst.
  specialize (IH Hrs). cbn [filter map].
  destruct (p r); cbn [map]; unfold sumZ in *; cbn [fold_right]; lia.
Qed.

Lemma groupFits_selected (p : Row -> bool) (rs : list Row) :
  Forall nonNegativeRow rs -> groupFits rs -> groupFits (filter p rs).
Proof.
  intros Hrs (F1 & F2 & F3). unfold groupFits.
  pose proof (sumZ_filter_le total_tokens p rs
                (column_nonneg _ _ (fun r Hr => proj1 Hr) Hrs)).
  pose proof (sumZ_filter_le prompt_tokens p rs
                (column_nonneg _ _ (fun r Hr => proj1 (proj2 Hr)) Hrs)).
  pose proof (sumZ_filter_le completion_tokens p rs
                (column_nonneg _ _
                   (fun r Hr => proj1 (proj2 (proj2 Hr))) Hrs)).
  lia.
Qed.

(** Over a store of calendar timestamps without negative counts, and
    when the token sums over the window are within the int64 range,
    GetTimeseries returns one point per bucket key. *)
Lemma GetTimeseries_all (d : DB) (from to : Time) (interval : string) :
  canonicalDB d -> nonNegativeDB d ->
  groupFits (filter (inWindow from to) (rows d)) ->
  GetTimeseries d NoFault from to interval
  = Ok (map (fun b =>
               pointOf interval b
                 (filter (fun r => nullableEqb (bucketOf interval r) b)
                         (filter (inWindow from to) (rows d))))
            (sortBy nullableLe
               (distinctBy nullableEqb
                  (map (bucketOf interval)
                       (filter (inWindow from to) (rows d)))))).
Proof.
  intros Hd Hn Hfit. unfold GetTimeseries, timeseriesRows. cbn [isNoFault].
  set (sel := filter (inWindow from to) (rows d)) in *.
  set (keys := sortBy nullableLe
                 (distinctBy nullableEqb (map (bucketOf interval) sel))).
  set (G := fun b => filter (fun r => nullableEqb (bucketOf interval r) b) sel).
  assert (Hsel : Forall nonNegativeRow sel) by now apply selected_nonneg.
  assert (Hsums : forall b, groupSums (G b) <> None).
  { intros b. subst G. cbv beta.
    rewrite (groupSums_fits _ (selected_nonneg _ _ Hsel)
               (groupFits_selected _ _ Hsel Hfit)).
    discriminate. }
  assert (Hscan : scanTimeseries interval (map (fun b => (b, G b)) keys)
                  = map (fun b => pointOf interval b (G b)) keys).
  { apply scanTimeseries_kept; [now apply selected_keys_kept |].
    apply Forall_forall. intros b _. apply Hsums. }
  change (match map (fun b => (b, G b)) keys with
          | [] => Ok []
          | (_, g) :: _ =>
              match groupSums g with
              | Some _ =>
                  Ok (scanTimeseries interval (map (fun b => (b, G b)) keys))
              | None => Err "failed to query timeseries"
              end
          end
          = Ok (map (fun b => pointOf interval b (G b)) keys)).
  rewrite Hscan.
  destruct keys as [| k ks]; [reflexivity |]. cbn [map].
  destruct (groupSums (G k)) eqn:Eg; [reflexivity |].
  exfalso. exact (Hsums k Eg).
Qed.

Lemma timeseries_field_sum (field : TimeseriesPoint.t -> Z) (g : Row -> Z)
  (interval : string) (sel : list Row) :
  (forall b l, field (pointOf interval b l) = sumZ (map g l)) ->
  sumZ (map field
          (map (fun b =>
                  pointOf interval b
                    (filter (fun r => nullableEqb (bucketOf interval r) b)
                            sel))
               (sortBy nullableLe
                  (distinctBy nullableEqb (map (bucketOf interval) sel)))))
  = sumZ (map g sel).
Proof.
  intros Hfield. rewrite map_map.
  destruct (bucketKeys interval sel) as (Hnd & _ & Hkeys).
  rewrite <- (sumZ_groups nullableEqb (bucketOf interval) nullableEqb_eq g
                _ sel Hnd)
    by (intros r Hr; apply Hkeys; eauto).
  apply (f_equal sumZ). apply map_ext. intros b. apply Hfield.
Qed.

(** X6. The time series adds up to the totals.  Over a store whose
    timestamps are calendar times of the years 0 to 9999 and whose
    token counts and latencies are not negative, whenever GetTotals
    succeeds for a window (its token sums are within the int64 range),
    GetTimeseries succeeds for the same window and every interval name,
    and the request counts, the total, prompt and completion token
    sums and the failed counts of its points add up to the
    corresponding fields of the totals. *)
Theorem GetTimeseries_adds_up (d : DB) (from to : Time) (interval : string)
  (m : TotalMetrics.t) :
  canonicalDB d -> nonNegativeDB d ->
  GetTotals d NoFault from to = Ok m ->
  exists ps,
    GetTimeseries d NoFault from to interval = Ok ps
    /\ sumZ (map TimeseriesPoint.Requests ps) = TotalMetrics.Requests m
    /\ sumZ (map TimeseriesPoint.Tokens ps) = TotalMetrics.Tokens m
    /\ sumZ (map TimeseriesPoint.PromptTokens ps)
       = TotalMetrics.PromptTokens m
    /\ sumZ (map TimeseriesPoint.CompletionTokens ps)
       = TotalMetrics.CompletionTokens m
    /\ sumZ (map TimeseriesPoint.FailedRequests ps)
       = TotalMetrics.FailedRequests m.
Proof.
  intros Hd Hn Hm. unfold GetTotals in Hm. cbn [isNoFault] in Hm.
  set (sel := filter (inWindow from to) (rows d)) in *.
  assert (Hsel : Forall nonNegativeRow sel) by now apply selected_nonneg.
  destruct (sum (map total_tokens sel)) as [z1 |] eqn:E1; [| discriminate].
  destruct (sum (map prompt_tokens sel)) as [z2 |] eqn:E2; [| discriminate].
  destruct (sum (map completion_tokens sel)) as [z3 |] eqn:E3;
    [| discriminate].
  destruct (sum (map reasoning_tokens sel)) as [z4 |] eqn:E4;
    [| discriminate].
  destruct (sum (map cached_tokens sel)) as [z5 |] eqn:E5; [| discriminate].
  injection Hm as <-.
  assert (Hfit : groupFits sel).
  { repeat split; eapply sum_Some_fits; try eassumption;
      apply column_nonneg; try assumption; intros r Hr; apply Hr. }
  rewrite (GetTimeseries_all d from to interval Hd Hn Hfit).
  fold sel. eexists. split; [reflexivity |].
  cbn [TotalMetrics.Requests TotalMetrics.Tokens TotalMetrics.PromptTokens
       TotalMetrics.CompletionTokens TotalMetrics.FailedRequests].
  rewrite (sum_Some _ _ E1), (sum_Some _ _ E2), (sum_Some _ _ E3).
  repeat split.
  - rewrite length_as_sum. apply timeseries_field_sum.
    intros b l. apply length_as_sum.
  - now apply timeseries_field_sum.
  - now apply timeseries_field_sum.
  - now apply timeseries_field_sum.
  - rewrite (count_as_sum isFailed). apply timeseries_field_sum.
    intros b l. apply (count_as_sum failed).
Qed.

Lemma GetTimeseries_adds_up_witness :
  canonicalDB totalsStore /\ nonNegativeDB totalsStore
  /\ exists m,
       GetTotals totalsStore NoFault hourBefore hourAfter = Ok m
       /\ exists ps,
            GetTimeseries totalsStore NoFault hourBefore hourAfter "day"
            = Ok ps
            /\ sumZ (map TimeseriesPoint.Requests ps) = TotalMetrics.Requests m
            /\ sumZ (map TimeseriesPoint.Tokens ps) = TotalMetrics.Tokens m
            /\ sumZ (map TimeseriesPoint.PromptTokens ps)
               = TotalMetrics.PromptTokens m
            /\ sumZ (map TimeseriesPoint.CompletionTokens ps)
               = TotalMetrics.CompletionTokens m
            /\ sumZ (map TimeseriesPoint.FailedRequests ps)
               = TotalMetrics.FailedRequests m.
Proof.
  assert (Hd : canonicalDB totalsStore) by solve_canonical.
  assert (Hn : nonNegativeDB totalsStore) by solve_nonneg.
  split; [exact Hd |]. split; [exact Hn |].
  eexists. split; [vm_compute; reflexivity |].
  apply (GetTimeseries_adds_up totalsStore hourBefore hourAfter "day" _ Hd Hn).
  vm_compute. reflexivity.
Defined.

(** Outside the years 0 to 9999 the series and the totals part: the
    text of a record of the year 10000 is no time value, its bucket is
    NULL and is skipped, while GetTotals counts the record. *)
Example GetTimeseries_year_10000 :
  GetTimeseries (stored [lateRecord]) NoFault (utc 1 1 1 0 0 0) yearEnd "day"
  = Ok []
  /\ exists m,
       GetTotals (stored [lateRecord]) NoFault (utc 1 1 1 0 0 0) yearEnd
       = Ok m
       /\ TotalMetrics.Requests m = 1.
Proof. split; [reflexivity | eexists; split; reflexivity]. Qed.

(** A record of the year -1 has a bucket, with a key that starts with
    the minus sign; the layout does not parse it, and BucketStart is
    the zero Time. *)
Example GetTimeseries_year_minus_1 :
  map (bucketOf "day")
      (rows (stored [usage beforeCommonEra "p" "m" 0 0 100 false]))
  = [Some "-001-06-01 00:00:00"]
  /\ exists p,
       GetTimeseries (stored [usage beforeCommonEra "p" "m" 0 0 100 false])
         NoFault startOfYearMinus1 yearEnd "day" = Ok [p]
       /\ TimeseriesPoint.BucketStart p = zeroTime
       /\ TimeseriesPoint.Requests p = 1.
Proof.
  split; [reflexivity |]. eexists. repeat split; reflexivity.
Qed.

(** A later bucket whose tokens are beyond the int64 range ends the
    series without an error: the point of the hour before is returned,
    the failing hour and the hour after it are missing, while GetTotals
    fails for the same window. *)
Example GetTimeseries_cut_short :
  let d := stored [usage (utc 2025 6 1 10 0 0) "p" "m" 0 0 5 false;
                   usage (utc 2025 6 1 11 0 0) "p" "m" 0 0 (2 ^ 63 - 1) false;
                   usage (utc 2025 6 1 11 30 0) "p" "m" 0 0 1 false;
                   usage (utc 2025 6 1 12 0 0) "p" "m" 0 0 7 false] in
  (exists ps,
     GetTimeseries d NoFault (utc 2025 6 1 0 0 0) (utc 2025 6 1 23 0 0) "hour"
     = Ok ps
     /\ map TimeseriesPoint.BucketStart ps = [utc 2025 6 1 10 0 0]
     /\ map TimeseriesPoint.Tokens ps = [5])
  /\ GetTotals d NoFault (utc 2025 6 1 0 0 0) (utc 2025 6 1 23 0 0)
     = Err "failed to get totals".
Proof. split; [eexists; repeat split; reflexivity | reflexivity]. Qed.

End BucketFacts.

(* ================================================================== *)
(** * The store: hour, day and month buckets in time order *)
(* ================================================================== *)

Section BucketOrder.
Import decimal gotime listx sqlite persistence spec examples aggregate
  storespec.

Lemma Sorted_map_distinct {A B : Type} (R : A -> A -> Prop)
  (R' : B -> B -> Prop) (g : A -> B) (l : list A) :
  (forall a b, In a l -> In b l -> a <> b -> R a b -> R' (g a) (g b)) ->
  NoDup l -> Sorted R l -> Sorted R' (map g l).
Proof.
  intros H Hnd Hs. induction Hs as [| x l Hs IH Hhd]; [constructor |].
  inversion Hnd as [| ? ? Hx Hnd']; subst.
  cbn [map]. constructor.
  - apply IH; [| exact Hnd'].
    intros a b Ha Hb. apply H; now right.
  - destruct Hhd as [| y l' Hxy]; cbn [map]; constructor.
    apply H; [now left | right; now left | | exact Hxy].
    intros ->. apply Hx. now left.
Qed.

(** For every interval but "week" the bucket key of a stored timestamp
    is the text of the start of its hour, day or month, and it is
    parsed back to that start. *)
Lemma bucketOf_trunc (interval : string) (r : Row) :
  String.eqb interval "week" = false -> canonicalRow r ->
  validTime (truncTo interval (rowTime r))
  /\ fourDigitYear (truncTo interval (rowTime r))
  /\ bucketOf interval r = Some (Format (truncTo interval (rowTime r)))
  /\ parseBucket interval (Format (truncTo interval (rowTime r)))
     = truncTo interval (rowTime r).
Proof.
  intros Hw (u & Hv & Hy & E).
  rewrite (rowTime_canonical r u Hv Hy E).
  pose proof (daysIn_bounds (month u) (year u)) as Hin.
  assert (Hparse : forall t, validTime t -> fourDigitYear t ->
            nanosecond t = 0 -> zoneOffset t = 0 ->
            parseBucket interval (Format t) = t).
  { intros t Ht Hyt Hn Hz. unfold parseBucket. rewrite Hw.
    rewrite Parse_Format by assumption.
    destruct t; cbn in Hn, Hz; subst; reflexivity. }
  assert (Hkey : bucketOf interval r
                 = strftime (timeFormat interval)
                     (canonicalText (year u) (month u) (day u)
                        (hour u) (minute u) (second u)))
    by (unfold bucketOf; now rewrite E, Format_canonical).
  unfold fourDigitYear in Hy.
  pose proof (printf04d_fixed (year u) Hy) as Hp.
  destruct Hv as (Hm & Hd & Hh & Hmi & Hs & Hn).
  unfold strftime in Hkey.
  rewrite parseDateTime_canonicalText in Hkey by assumption.
  assert (Hhour : validTime (Date (year u) (month u) (day u) (hour u) 0 0 0 0))
    by (unfold validTime; cbn; repeat split; assumption || lia).
  assert (Hday : validTime (Date (year u) (month u) (day u) 0 0 0 0 0))
    by (unfold validTime; cbn; repeat split; assumption || lia).
  assert (Hmonth : validTime (Date (year u) (month u) 1 0 0 0 0 0))
    by (unfold validTime; cbn; repeat split; assumption || lia).
  unfold truncTo, timeFormat in *.
  cbn [truncSecondUTC year month day hour minute second].
  destruct (String.eqb_spec interval "hour") as [-> | Hne1].
  - cbn [String.eqb Ascii.eqb Bool.eqb].
    split; [exact Hhour |]. split; [exact Hy |]. split.
    + rewrite Hkey, (Format_canonical _ Hhour Hy). unfold canonicalText.
      cbn [year]. rewrite <- Hp. reflexivity.
    + now apply Hparse.
  - destruct (String.eqb_spec interval "day") as [-> | Hne2].
    + split; [exact Hday |]. split; [exact Hy |]. split.
      * rewrite Hkey, (Format_canonical _ Hday Hy). unfold canonicalText.
        cbn [year]. rewrite <- Hp. reflexivity.
      * now apply Hparse.
    + rewrite Hw in Hkey.
      destruct (String.eqb_spec interval "month") as [-> | Hne3].
      * split; [exact Hmonth |]. split; [exact Hy |]. split.
        -- rewrite Hkey, (Format_canonical _ Hmonth Hy). unfold canonicalText.
           cbn [year]. rewrite <- Hp. reflexivity.
        -- now apply Hparse.
      * split; [exact Hhour |]. split; [exact Hy |]. split.
        -- rewrite Hkey, (Format_canonical _ Hhour Hy). unfold canonicalText.
           cbn [year]. rewrite <- Hp. reflexivity.
        -- now apply Hparse.
Qed.

(** X7. Hour, day and month buckets start where the unit starts and
    come in time order.  Over a store whose timestamps are calendar
    times of the years 0 to 9999 and whose token counts and latencies
    are not negative, when the token sums over the window are within
    the int64 range, and for every interval name but "week" (an unknown
    name counting as "hour"), the BucketStart values of GetTimeseries
    are exactly the starts of the hour, day or month of the selected
    records' stored timestamps, and each point is strictly earlier than
    the next. *)
Theorem GetTimeseries_truncates_in_order (d : DB) (from to : Time)
  (interval : string) :
  canonicalDB d -> nonNegativeDB d ->
  groupFits (filter (inWindow from to) (rows d)) ->
  String.eqb interval "week" = false ->
  exists ps,
    GetTimeseries d NoFault from to interval = Ok ps
    /\ Sorted earlierBucket ps
    /\ forall t,
         In t (map TimeseriesPoint.BucketStart ps)
         <-> exists r, In r (filter (inWindow from to) (rows d))
                       /\ t = truncTo interval (rowTime r).
Proof.
  intros Hd Hn Hfit Hw.
  rewrite (GetTimeseries_all d from to interval Hd Hn Hfit).
  eexists. split; [reflexivity |].
  set (sel := filter (inWindow from to) (rows d)).
  destruct (bucketKeys interval sel) as (Hnd & Hsorted & Hkeys).
  set (keys := sortBy nullableLe
                 (distinctBy nullableEqb (map (bucketOf interval) sel))) in *.
  assert (Hcanon : forall r, In r sel -> canonicalRow r).
  { intros r Hr. unfold canonicalDB in Hd. rewrite Forall_forall in Hd.
    apply Hd. apply filter_In in Hr. tauto. }
  assert (Hstart : forall b g, In b keys ->
            exists r, In r sel /\ b = Some (Format (truncTo interval (rowTime r)))
              /\ validTime (truncTo interval (rowTime r))
              /\ fourDigitYear (truncTo interval (rowTime r))
              /\ TimeseriesPoint.BucketStart (pointOf interval b g)
                 = truncTo interval (rowTime r)).
  { intros b g Hb. apply Hkeys in Hb. destruct Hb as (r & Hr & <-).
    destruct (bucketOf_trunc interval r Hw (Hcanon r Hr))
      as (Hv & Hy & Hk & Hp).
    exists r. rewrite Hk. cbn [pointOf TimeseriesPoint.BucketStart]. tauto. }
  split.
  - apply (Sorted_map_distinct (fun a b => nullableLe a b = true));
      [| exact Hnd | exact Hsorted].
    intros a b Ha Hb Hab Hle. unfold earlierBucket.
    destruct (Hstart a (filter (fun r => nullableEqb (bucketOf interval r) a) sel) Ha)
      as (ra & _ & Ea & Hva & Hya & ->).
    destruct (Hstart b (filter (fun r => nullableEqb (bucketOf interval r) b) sel) Hb)
      as (rb & _ & Eb & Hvb & Hyb & ->).
    subst a b. cbn [nullableLe] in Hle. unfold textLe, String.leb in Hle.
    rewrite compare_Format in Hle by assumption.
    destruct (Z.compare_spec (wallSeconds (truncTo interval (rowTime ra)))
                             (wallSeconds (truncTo interval (rowTime rb))))
      as [Heq | Hlt | Hgt]; [| exact Hlt | discriminate].
    exfalso. apply Hab. f_equal.
    apply String.compare_eq_iff. rewrite compare_Format by assumption.
    now apply Z.compare_eq_iff.
  - intros t. rewrite map_map. split.
    + intros Ht. apply in_map_iff in Ht. destruct Ht as (b & <- & Hb).
      destruct (Hstart b (filter (fun r => nullableEqb (bucketOf interval r) b) sel) Hb)
        as (r & Hr & _ & _ & _ & E).
      eauto.
    + intros (r & Hr & ->).
      destruct (bucketOf_trunc interval r Hw (Hcanon r Hr))
        as (_ & _ & Hk & Hp).
      apply in_map_iff. exists (bucketOf interval r). split.
      * rewrite Hk. cbn [pointOf TimeseriesPoint.BucketStart]. exact Hp.
      * apply Hkeys. eauto.
Qed.

Lemma GetTimeseries_truncates_in_order_witness :
  canonicalDB totalsStore /\ nonNegativeDB totalsStore
  /\ groupFits (filter (inWindow hourBefore hourAfter) (rows totalsStore))
  /\ String.eqb "hour" "week" = false
  /\ exists ps,
       GetTimeseries totalsStore NoFault hourBefore hourAfter "hour" = Ok ps
       /\ Sorted earlierBucket ps
       /\ forall t,
            In t (map TimeseriesPoint.BucketStart ps)
            <-> exists r,
                  In r (filter (inWindow hourBefore hourAfter)
                               (rows totalsStore))
                  /\ t = truncTo "hour" (rowTime r).
Proof.
  assert (Hd : canonicalDB totalsStore) by solve_canonical.
  assert (Hn : nonNegativeDB totalsStore) by solve_nonneg.
  assert (Hfit : groupFits (filter (inWindow hourBefore hourAfter)
                                   (rows totalsStore)))
    by (vm_compute; repeat split; discriminate).
  split; [exact Hd |]. split; [exact Hn |]. split; [exact Hfit |].
  split; [reflexivity |].
  exact (GetTimeseries_truncates_in_order totalsStore hourBefore hourAfter
           "hour" Hd Hn Hfit eq_refl).
Defined.

End BucketOrder.

(* ================================================================== *)
(** * The plug-in: what every history keeps *)
(* ================================================================== *)

Section PluginHistory.
Import decimal gotime listx sqlite persistence spec examples pluginspec.

Lemma Flush_returns (w : World) (now : string) (f : fault) :
  pluginInv w -> exists w' e, Flush w now f = Returns (w', e).
Proof.
  intros [_ Hst]. unfold Flush.
  destruct (buffer (plugin w)) as [| r rs] eqn:Hb; [eauto |].
  destruct (storage (plugin w)) eqn:Est.
  - destruct (InsertBatch (db w) now f (r :: rs)). eauto.
  - specialize (Hst eq_refl). discriminate.
Qed.

Lemma step_returns (w : World) (o : op) :
  pluginInv w -> exists w', step w o = Returns w'.
Proof.
  intros Hinv. destruct o as [now record | | i now f | now f | now f];
    cbn [step]; eauto.
  - destruct (Flush_returns w now f Hinv) as (w' & e & ->). eauto.
  - destruct (Stop_returns w now f Hinv) as (w' & e & ->). eauto.
Qed.

Lemma flushLocked_bufferInv (w : World) :
  0 < bufferSize (plugin w) -> 0 < flushInterval (plugin w) ->
  Z.of_nat (List.length (buffer (plugin w))) <= bufferSize (plugin w) ->
  Forall (fun batch =>
            1 <= Z.of_nat (List.length batch) <= bufferSize (plugin w))
         (inflight w) ->
  (Z.of_nat (List.length (buffer (plugin w))) < bufferSize (plugin w)
   \/ buffer (plugin w) <> []) ->
  bufferInv (flushLocked w).
Proof.
  intros Hsize Hint Hlen Hin Hcase. unfold flushLocked.
  destruct (buffer (plugin w)) as [| r rs] eqn:Hb.
  - unfold bufferInv. rewrite Hb. cbn [List.length]. repeat split; auto; lia.
  - unfold bufferInv.
    cbn [plugin setBuffer bufferSize flushInterval buffer inflight List.length].
    repeat split; try assumption; try lia.
    apply Forall_app. split; [exact Hin |].
    constructor; [| constructor]. cbn [List.length] in *. lia.
Qed.

Lemma In_skipped {A : Type} (n : nat) (l : list A) (x : A) :
  In x (skipn n l) -> In x l.
Proof.
  revert l. induction n as [| n IH]; intros l H; [exact H |].
  destruct l as [| y l]; [contradiction |]. right. now apply IH.
Qed.

Lemma Forall_remove_nth {A : Type} (P : A -> Prop) (i : nat) (l : list A) :
  Forall P l -> Forall P (firstn i l ++ skipn (S i) l).
Proof.
  intros H. rewrite Forall_forall in *. intros x Hx.
  apply in_app_or in Hx. destruct Hx as [Hx | Hx]; apply H.
  - now apply In_firstn in Hx.
  - now apply In_skipped in Hx.
Qed.

Lemma Flush_bufferInv (w w' : World) (now : string) (f : fault) (e : error) :
  bufferInv w -> Flush w now f = Returns (w', e) -> bufferInv w'.
Proof.
  intros (Hsize & Hint & Hlen & Hin). unfold Flush.
  destruct (buffer (plugin w)) as [| r rs] eqn:Hb.
  - intros H. injection H as <- _. unfold bufferInv. rewrite Hb.
    repeat split; assumption.
  - destruct (storage (plugin w)); [| discriminate].
    destruct (InsertBatch (db w) now f (r :: rs)).
    intros H. injection H as <- _. unfold bufferInv.
    cbn [plugin setBuffer bufferSize flushInterval buffer inflight List.length].
    repeat split; try assumption; try lia.
Qed.

Lemma step_bufferInv (w w' : World) (o : op) :
  bufferInv w -> step w o = Returns w' -> bufferInv w'.
Proof.
  intros Hinv. pose proof Hinv as (Hsize & Hint & Hlen & Hin).
  destruct o as [now record | | i now f | now f | now f]; cbn [step].
  - intros H. injection H as <-. unfold HandleUsage.
    destruct (storage (plugin w)); [| exact Hinv].
    destruct (stopped (plugin w)); [exact Hinv |].
    cbn [plugin setBuffer bufferSize buffer].
    rewrite length_app. cbn [List.length].
    destruct (Z.leb_spec (bufferSize (plugin w))
                (Z.of_nat (List.length (buffer (plugin w)) + 1))) as [Hfull | Hroom].
    + apply flushLocked_bufferInv;
        cbn [plugin setBuffer bufferSize flushInterval buffer inflight];
        rewrite ?length_app; cbn [List.length]; auto; try lia.
      right. destruct (buffer (plugin w)); discriminate.
    + unfold bufferInv.
      cbn [plugin setBuffer bufferSize flushInterval buffer inflight].
      rewrite length_app. cbn [List.length]. repeat split; auto.
  - intros H. injection H as <-. unfold timerTick.
    destruct (_ && _); [| exact Hinv].
    apply flushLocked_bufferInv; auto; lia.
  - intros H. injection H as <-. unfold backgroundWrite.
    destruct (nth_error (inflight w) i); [| exact Hinv].
    unfold bufferInv. cbn [plugin inflight].
    repeat split; try assumption. now apply Forall_remove_nth.
  - destruct (Flush w now f) as [[w1 e] |] eqn:E; [| discriminate].
    intros H. injection H as <-. exact (Flush_bufferInv _ _ _ _ _ Hinv E).
  - destruct (Stop w now f) as [[w1 e] |] eqn:E; [| discriminate].
    intros H. injection H as <-. revert E. unfold Stop.
    destruct (stopped (plugin w)).
    + intros H. injection H as <- _. exact Hinv.
    + cbn [setStopped stopCh]. destruct (stopCh (plugin w)); [discriminate |].
      intros H. apply Flush_bufferInv in H; [exact H |].
      unfold bufferInv.
      cbn [plugin closeStopCh setStopped bufferSize flushInterval buffer
           inflight].
      repeat split; assumption.
Qed.

Lemma fresh_invariants (st : option Storage) (size interval : Z) (d : DB) :
  pluginInv (fresh st size interval d) /\ bufferInv (fresh st size interval d).
Proof.
  split; [apply NewPersistencePlugin_inv |].
  unfold bufferInv, fresh, NewPersistencePlugin.
  cbn [plugin bufferSize flushInterval buffer inflight List.length].
  unfold second_ns.
  destruct (Z.leb_spec size 0), (Z.leb_spec interval 0);
    repeat split; try lia; constructor.
Qed.

Lemma run_invariants (ops : list op) :
  forall w, pluginInv w -> bufferInv w ->
            exists w', run w ops = Returns w' /\ pluginInv w' /\ bufferInv w'.
Proof.
  induction ops as [| o ops IH]; intros w Hp Hb; cbn [run]; [eauto |].
  destruct (step_returns w o Hp) as [w1 E]. rewrite E.
  apply IH; [exact (step_inv _ _ _ Hp E) | exact (step_bufferInv _ _ _ Hb E)].
Qed.

(** X8. A plug-in built by NewPersistencePlugin survives every history
    of submits, timer ticks, background writes, flushes and stops,
    whatever database calls fail: no operation panics, the threshold
    and the flush interval are positive whatever was configured, the
    buffer always holds fewer records than the threshold, and every
    batch handed to a background writer holds at least one record and
    at most a threshold of them. *)
Theorem plugin_never_panics (st : option Storage) (size interval : Z)
  (d : DB) (ops : list op) :
  exists w,
    run (fresh st size interval d) ops = Returns w
    /\ 0 < bufferSize (plugin w)
    /\ 0 < flushInterval (plugin w)
    /\ Z.of_nat (List.length (buffer (plugin w))) < bufferSize (plugin w)
    /\ Forall (fun batch =>
                 1 <= Z.of_nat (List.length batch) <= bufferSize (plugin w))
              (inflight w).
Proof.
  destruct (fresh_invariants st size interval d) as [Hp Hb].
  destruct (run_invariants ops _ Hp Hb) as (w & E & _ & Hb').
  exists w. split; [exact E | exact Hb'].
Qed.

End PluginHistory.

(* ================================================================== *)
(** * The plug-in: where submitted records go *)
(* ================================================================== *)

Section PluginRecords.
Import decimal gotime listx sqlite persistence spec examples pluginspec
  pluginexamples.

Lemma InsertBatch_outcome (d : DB) (now : string) (f : fault)
  (records : list UsageRecord.t) :
  (snd (InsertBatch d now f records) = None
   /\ rows (fst (InsertBatch d now f records))
      = (rows d ++ persistedRows (seq d + 1) now records)%list
   /\ seq (fst (InsertBatch d now f records))
      = seq d + Z.of_nat (List.length records))
  \/ (exists msg, snd (InsertBatch d now f records) = Some msg
                  /\ fst (InsertBatch d now f records) = d).
Proof.
  unfold InsertBatch. destruct records as [| r rs].
  - left. cbn [fst snd persistedRows List.length].
    rewrite app_nil_r, Z.add_0_r. auto.
  - destruct (execBatch d now f 0 (r :: rs)) as [tx |] eqn:E.
    + apply execBatch_Some in E. subst tx.
      destruct f; cbn [fst snd rows seq]; eauto.
    + destruct f; cbn [fst snd]; eauto.
Qed.

Lemma InsertBatch_NoFault_rows (d : DB) (now : string)
  (records : list UsageRecord.t) :
  rows (fst (InsertBatch d now NoFault records))
  = (rows d ++ persistedRows (seq d + 1) now records)%list.
Proof.
  destruct records as [| r rs].
  - cbn [InsertBatch fst persistedRows]. now rewrite app_nil_r.
  - now rewrite InsertBatch_NoFault by discriminate.
Qed.

Lemma pending_app (w : World) (batch : list UsageRecord.t) :
  sumZ (map (fun b => Z.of_nat (List.length b)) (inflight w ++ [batch]))
  = pending w + Z.of_nat (List.length batch).
Proof.
  unfold pending. rewrite map_app, sumZ_app. cbn. lia.
Qed.

Lemma flushLocked_accounted (w : World) :
  accounted (flushLocked w) = accounted w.
Proof.
  unfold flushLocked. destruct (buffer (plugin w)) as [| r rs] eqn:Hb;
    [reflexivity |].
  unfold accounted, pending. cbn [plugin db inflight setBuffer buffer].
  rewrite Hb, pending_app. cbn [List.length]. unfold pending. lia.
Qed.

Lemma sum_remove_nth {A : Type} (g : A -> Z) (l : list A) :
  forall i x, nth_error l i = Some x ->
    sumZ (map g (firstn i l ++ skipn (S i) l)) + g x = sumZ (map g l).
Proof.
  induction l as [| y l IH]; intros [| i] x H; try discriminate.
  - injection H as ->. cbn. lia.
  - cbn [nth_error] in H. specialize (IH i x H).
    cbn [firstn skipn app map] in *.
    change (sumZ (?a :: ?r)) with (a + sumZ r). lia.
Qed.

Lemma HandleUsage_accounted (w : World) (now : Time) (record : CoreRecord.t) :
  accounted (HandleUsage w now record)
  = accounted w + (if accepts w then 1 else 0).
Proof.
  unfold HandleUsage, accepts.
  destruct (storage (plugin w)); [| lia].
  destruct (stopped (plugin w)); cbn [negb]; [lia |].
  match goal with
  | |- accounted (if _ then flushLocked ?w1 else ?w1) = _ =>
      assert (H1 : accounted w1 = accounted w + 1)
        by (unfold accounted, pending;
            cbn [plugin db inflight setBuffer buffer];
            rewrite length_app; cbn [List.length]; lia);
      destruct (_ <=? _); [rewrite flushLocked_accounted |]; exact H1
  end.
Qed.

Lemma step_accounted (w : World) (o : op) :
  pluginInv w -> faultless o = true ->
  exists w', step w o = Returns w'
    /\ accounted w'
       = accounted w
         + match o with
           | OpHandleUsage _ _ => if accepts w then 1 else 0
           | _ => 0
           end.
Proof.
  intros Hinv Hf.
  destruct o as [now record | | i now f | now f | now f];
    cbn [step faultless] in *.
  - eexists. split; [reflexivity | apply HandleUsage_accounted].
  - eexists. split; [reflexivity |]. unfold timerTick.
    destruct (_ && _); [rewrite flushLocked_accounted |]; lia.
  - destruct f; try discriminate.
    eexists. split; [reflexivity |]. unfold backgroundWrite.
    destruct (nth_error (inflight w) i) as [batch |] eqn:E; [| lia].
    unfold accounted, pending. cbn [plugin db inflight].
    rewrite InsertBatch_NoFault_rows, length_app, persistedRows_length.
    pose proof (sum_remove_nth (fun b : list UsageRecord.t =>
                                  Z.of_nat (List.length b)) _ _ _ E).
    cbv beta in *. lia.
  - destruct f; try discriminate. unfold Flush.
    destruct Hinv as [_ Hst].
    destruct (buffer (plugin w)) as [| r rs] eqn:Hb.
    + eexists. split; [reflexivity | lia].
    + destruct (storage (plugin w)); [| specialize (Hst eq_refl); discriminate].
      rewrite InsertBatch_NoFault by discriminate.
      eexists. split; [reflexivity |].
      unfold accounted, pending. cbn [plugin db inflight setBuffer buffer rows].
      rewrite Hb, length_app, persistedRows_length. cbn [List.length]. lia.
  - destruct f; try discriminate. unfold Stop.
    destruct Hinv as [Hch Hst].
    destruct (stopped (plugin w)) eqn:Hs.
    + eexists. split; [reflexivity | lia].
    + cbn [setStopped stopCh]. rewrite Hch. unfold Flush.
      cbn [plugin closeStopCh setStopped buffer storage db inflight].
      destruct (buffer (plugin w)) as [| r rs] eqn:Hb.
      * eexists. split; [reflexivity |].
        unfold accounted, pending.
        cbn [plugin db inflight closeStopCh setStopped buffer].
        rewrite Hb. lia.
      * destruct (storage (plugin w));
          [| specialize (Hst eq_refl); discriminate].
        rewrite InsertBatch_NoFault by discriminate.
        eexists. split; [reflexivity |].
        unfold accounted, pending.
        cbn [plugin db inflight setBuffer closeStopCh setStopped buffer rows].
        rewrite Hb, length_app, persistedRows_length. cbn [List.length]. lia.
Qed.

Lemma run_accounted (ops : list op) :
  forall w, pluginInv w -> forallb faultless ops = true ->
    exists w', run w ops = Returns w'
      /\ accounted w' = accounted w + taken w ops.
Proof.
  induction ops as [| o ops IH]; intros w Hinv Hf; cbn [run taken].
  - eexists. split; [reflexivity | lia].
  - cbn [forallb] in Hf. apply andb_true_iff in Hf. destruct Hf as [Ho Hops].
    destruct (step_accounted w o Hinv Ho) as (w1 & E & Hacc).
    rewrite E.
    destruct (IH w1 (step_inv _ _ _ Hinv E) Hops) as (w' & Erun & Hacc').
    exists w'. split; [exact Erun |]. rewrite Hacc', Hacc. lia.
Qed.

(** X9. No record is lost or doubled while the database works.  From a
    new plug-in, over any history in which no database call fails, the
    records stored, the records waiting in background writers and the
    records in the buffer number what the store held at the start plus
    the submits made while the plug-in had a storage and was not
    stopped. *)
Theorem records_conserved (st : option Storage) (size interval : Z)
  (d : DB) (ops : list op) :
  forallb faultless ops = true ->
  exists w,
    run (fresh st size interval d) ops = Returns w
    /\ accounted w
       = Z.of_nat (List.length (rows d)) + taken (fresh st size interval d) ops.
Proof.
  intros Hf.
  destruct (fresh_invariants st size interval d) as [Hp _].
  destruct (run_accounted ops _ Hp Hf) as (w & E & Hacc).
  exists w. split; [exact E |]. rewrite Hacc.
  unfold accounted, pending, fresh. cbn. lia.
Qed.

Lemma records_conserved_witness :
  forallb faultless quietDay = true
  /\ exists w,
       run (fresh (Some theStore) 2 0 emptyDB) quietDay = Returns w
       /\ accounted w
          = Z.of_nat (List.length (rows emptyDB))
            + taken (fresh (Some theStore) 2 0 emptyDB) quietDay.
Proof.
  split; [reflexivity |].
  exact (records_conserved (Some theStore) 2 0 emptyDB quietDay eq_refl).
Defined.

(** Of the four submits of the history three are taken, the last one
    coming after the stop; all three end in the store. *)
Example quietDay_counts :
  taken (fresh (Some theStore) 2 0 emptyDB) quietDay = 3
  /\ exists w, run (fresh (Some theStore) 2 0 emptyDB) quietDay = Returns w
       /\ GetRecordCount (db w) NoFault = Ok 3
       /\ inflight w = [] /\ buffer (plugin w) = [].
Proof. split; [reflexivity |]. eexists. repeat split; reflexivity. Qed.

(** X10. A background write that fails loses its batch: when the batch
    insert of a waiting writer returns an error, the store is as
    before, the batch is gone from the waiting writers and is in no
    buffer, so it is never written; the plug-in itself is untouched. *)
Theorem failed_background_write_drops_batch (w : World) (i : nat)
  (now : string) (f : fault) (batch : list UsageRecord.t) (msg : string) :
  nth_error (inflight w) i = Some batch ->
  snd (InsertBatch (db w) now f batch) = Some msg ->
  db (backgroundWrite w i now f) = db w
  /\ plugin (backgroundWrite w i now f) = plugin w
  /\ inflight (backgroundWrite w i now f)
     = (firstn i (inflight w) ++ skipn (S i) (inflight w))%list
  /\ accounted (backgroundWrite w i now f)
     = accounted w - Z.of_nat (List.length batch).
Proof.
  intros Hnth Herr. unfold backgroundWrite. rewrite Hnth.
  cbn [db plugin inflight].
  destruct (InsertBatch_outcome (db w) now f batch)
    as [(Hnone & _) | (m & _ & Hd)]; [congruence |].
  rewrite Hd. repeat split.
  unfold accounted, pending. cbn [plugin db inflight].
  pose proof (sum_remove_nth (fun b : list UsageRecord.t =>
                                Z.of_nat (List.length b)) _ _ _ Hnth).
  cbv beta in *. lia.
Qed.

Lemma failed_background_write_drops_batch_witness :
  nth_error (inflight ticked) 0 = Some (buffer (plugin running))
  /\ snd (InsertBatch (db ticked) clock CommitFails (buffer (plugin running)))
     = Some "failed to commit transaction"
  /\ (db (backgroundWrite ticked 0 clock CommitFails) = db ticked
      /\ plugin (backgroundWrite ticked 0 clock CommitFails) = plugin ticked
      /\ inflight (backgroundWrite ticked 0 clock CommitFails)
         = (firstn 0 (inflight ticked) ++ skipn 1 (inflight ticked))%list
      /\ accounted (backgroundWrite ticked 0 clock CommitFails)
         = accounted ticked
           - Z.of_nat (List.length (buffer (plugin running)))).
Proof.
  split; [reflexivity |]. split; [reflexivity |].
  exact (failed_background_write_drops_batch ticked 0 clock CommitFails
           (buffer (plugin running)) "failed to commit transaction"
           eq_refl eq_refl).
Defined.

(** X11. A manual Flush that fails loses the buffer: when Flush returns
    an error the buffer has been emptied all the same, the store and
    the waiting writers are as before, and the records that were
    buffered are nowhere; the caller has only the error. *)
Theorem failed_Flush_drops_buffer (w w' : World) (now : string) (f : fault)
  (msg : string) :
  Flush w now f = Returns (w', Some msg) ->
  buffer (plugin w) <> []
  /\ buffer (plugin w') = []
  /\ db w' = db w
  /\ inflight w' = inflight w
  /\ accounted w' = accounted w - Z.of_nat (List.length (buffer (plugin w))).
Proof.
  unfold Flush. destruct (buffer (plugin w)) as [| r rs] eqn:Hb;
    [discriminate |].
  destruct (storage (plugin w)); [| discriminate].
  destruct (InsertBatch (db w) now f (r :: rs)) as [d e] eqn:E.
  intros H. injection H as <- ->.
  destruct (InsertBatch_outcome (db w) now f (r :: rs))
    as [(Hnone & _) | (m & _ & Hd)]; rewrite E in *; cbn [fst snd] in *;
    [discriminate |].
  subst d. cbn [plugin db inflight setBuffer buffer].
  split; [discriminate |]. repeat split.
  unfold accounted, pending. cbn [plugin db inflight setBuffer buffer].
  rewrite Hb. cbn [List.length]. lia.
Qed.

Lemma failed_Flush_drops_buffer_witness :
  Flush running clock BeginFails
  = Returns ({| plugin := setBuffer (plugin running) [];
                db := db running; inflight := inflight running |},
             Some "failed to begin transaction")
  /\ (buffer (plugin running) <> []
      /\ buffer (plugin {| plugin := setBuffer (plugin running) [];
                           db := db running;
                           inflight := inflight running |}) = []
      /\ db {| plugin := setBuffer (plugin running) [];
               db := db running; inflight := inflight running |}
         = db running
      /\ inflight {| plugin := setBuffer (plugin running) [];
                     db := db running; inflight := inflight running |}
         = inflight running
      /\ accounted {| plugin := setBuffer (plugin running) [];
                      db := db running; inflight := inflight running |}
         = accounted running
           - Z.of_nat (List.length (buffer (plugin running)))).
Proof.
  split; [reflexivity |].
  exact (failed_Flush_drops_buffer running _ clock BeginFails
           "failed to begin transaction" eq_refl).
Defined.

End PluginRecords.

(* ================================================================== *)
(** * The plug-in: final flush, timer flush and threshold flush *)
(* ================================================================== *)

Section PluginFlushes.
Import decimal gotime listx sqlite persistence spec examples pluginspec
  pluginexamples.

(** X12. The final flush of Stop.  Stopping a running plug-in leaves it
    stopped, with the stop channel closed and the buffer empty, whether
    the flush succeeds or not.  When Stop returns no error the buffered
    records are the newest rows of the store, in submission order; when
    it returns an error the store is as before and the buffered records
    are gone.  Stop does not wait for background writers: the batches
    that were waiting are still waiting. *)
Theorem Stop_final_flush (w : World) (now : string) (f : fault) :
  pluginInv w -> stopped (plugin w) = false ->
  exists w' e,
    Stop w now f = Returns (w', e)
    /\ stopped (plugin w') = true
    /\ stopCh (plugin w') = true
    /\ buffer (plugin w') = []
    /\ inflight w' = inflight w
    /\ (e = None ->
        rows (db w')
        = (rows (db w)
           ++ persistedRows (seq (db w) + 1) now (buffer (plugin w)))%list)
    /\ (e <> None -> db w' = db w).
Proof.
  intros [Hch Hst] Hs. unfold Stop. rewrite Hs.
  cbn [setStopped stopCh]. rewrite Hch, Hs. unfold Flush.
  cbn [plugin closeStopCh setStopped buffer storage db inflight].
  destruct (buffer (plugin w)) as [| r rs] eqn:Hb.
  - eexists. eexists. split; [reflexivity |].
    cbn [plugin db inflight closeStopCh setStopped stopped stopCh buffer
         persistedRows].
    rewrite app_nil_r. repeat split; auto.
  - destruct (storage (plugin w)); [| specialize (Hst eq_refl); discriminate].
    destruct (InsertBatch (db w) now f (r :: rs)) as [d e] eqn:E.
    eexists. eexists. split; [reflexivity |].
    cbn [plugin db inflight closeStopCh setStopped setBuffer stopped stopCh
         buffer].
    destruct (InsertBatch_outcome (db w) now f (r :: rs))
      as [(Hnone & Hrows & _) | (m & Hsome & Hd)];
      rewrite E in *; cbn [fst snd] in *; subst;
      repeat split; auto; try congruence.
Qed.

Lemma Stop_final_flush_witness :
  pluginInv running /\ stopped (plugin running) = false
  /\ exists w' e,
       Stop running clock NoFault = Returns (w', e)
       /\ stopped (plugin w') = true
       /\ stopCh (plugin w') = true
       /\ buffer (plugin w') = []
       /\ inflight w' = inflight running
       /\ (e = None ->
           rows (db w')
           = (rows (db running)
              ++ persistedRows (seq (db running) + 1) clock
                   (buffer (plugin running)))%list)
       /\ (e <> None -> db w' = db running).
Proof.
  assert (Hinv : pluginInv running) by (split; [reflexivity | discriminate]).
  split; [exact Hinv |]. split; [reflexivity |].
  exact (Stop_final_flush running clock NoFault Hinv eq_refl).
Defined.

(** Below the threshold submits only fill the buffer, in order. *)
Lemma submitAll_buffers (events : list (Time * CoreRecord.t)) :
  forall w s,
    storage (plugin w) = Some s -> stopped (plugin w) = false ->
    Z.of_nat (List.length (buffer (plugin w)) + List.length events)
    < bufferSize (plugin w) ->
    buffer (plugin (submitAll w events))
    = (buffer (plugin w) ++ converted events)%list
    /\ inflight (submitAll w events) = inflight w
    /\ db (submitAll w events) = db w
    /\ storage (plugin (submitAll w events)) = Some s
    /\ stopped (plugin (submitAll w events)) = false
    /\ bufferSize (plugin (submitAll w events)) = bufferSize (plugin w).
Proof.
  induction events as [| [now record] events IH]; intros w s Hst Hs Hlen.
  - cbn [submitAll fold_left converted map]. rewrite app_nil_r.
    repeat split; assumption.
  - cbn [submitAll fold_left fst snd].
    change (fold_left _ events ?w1) with (submitAll w1 events).
    cbn [List.length] in Hlen.
    assert (E : HandleUsage w now record
                = {| plugin := setBuffer (plugin w)
                                 (buffer (plugin w)
                                  ++ [convertRecord now record]);
                     db := db w; inflight := inflight w |}).
    { unfold HandleUsage. rewrite Hst, Hs.
      cbn [plugin setBuffer bufferSize buffer].
      rewrite length_app. cbn [List.length].
      destruct (Z.leb_spec (bufferSize (plugin w))
                  (Z.of_nat (List.length (buffer (plugin w)) + 1)));
        [lia | reflexivity]. }
    rewrite E.
    destruct (IH {| plugin := setBuffer (plugin w)
                                (buffer (plugin w)
                                 ++ [convertRecord now record]);
                    db := db w; inflight := inflight w |} s)
      as (Hb & Hi & Hd & Hst' & Hs' & Hsz);
      cbn [plugin setBuffer storage stopped bufferSize buffer];
      try assumption.
    + rewrite length_app. cbn [List.length]. lia.
    + rewrite Hb, Hi, Hd, Hst', Hs', Hsz.
      cbn [plugin setBuffer buffer bufferSize db inflight converted map
           fst snd].
      rewrite <- app_assoc. cbn [app]. repeat split; reflexivity.
Qed.

(** X13. Events below the threshold wait for the timer.  When fewer
    events than the threshold are submitted to a new plug-in nothing
    reaches the store; after the next timer tick and its background
    write, if no database call fails, the store has exactly one new row
    per event, in submission order, and nothing is buffered or
    waiting. *)
Theorem below_threshold_flushed_by_timer (size interval : Z) (d : DB)
  (events : list (Time * CoreRecord.t)) (now : string) :
  Z.of_nat (List.length events)
  < bufferSize (plugin (fresh (Some theStore) size interval d)) ->
  db (submitAll (fresh (Some theStore) size interval d) events) = d
  /\ inflight (submitAll (fresh (Some theStore) size interval d) events) = []
  /\ rows (db (backgroundWrite
                 (timerTick
                    (submitAll (fresh (Some theStore) size interval d) events))
                 0 now NoFault))
     = (rows d ++ persistedRows (seq d + 1) now (converted events))%list
  /\ buffer (plugin (backgroundWrite
                       (timerTick
                          (submitAll (fresh (Some theStore) size interval d)
                                     events))
                       0 now NoFault)) = []
  /\ inflight (backgroundWrite
                 (timerTick
                    (submitAll (fresh (Some theStore) size interval d) events))
                 0 now NoFault) = [].
Proof.
  intros Hlen.
  destruct (submitAll_buffers events (fresh (Some theStore) size interval d)
              theStore eq_refl eq_refl Hlen)
    as (Hb & Hi & Hd & _ & Hs & _).
  cbn [fresh plugin NewPersistencePlugin buffer inflight db app] in Hb, Hi, Hd.
  fold (fresh (Some theStore) size interval d) in Hb, Hi, Hd.
  set (w := submitAll (fresh (Some theStore) size interval d) events) in *.
  split; [exact Hd |]. split; [exact Hi |].
  unfold timerTick. rewrite Hs, Hb. cbn [negb andb].
  destruct events as [| e events].
  - cbn [converted map List.length Z.of_nat Z.ltb Z.compare].
    unfold backgroundWrite. rewrite Hi. cbn [nth_error].
    rewrite Hd, Hb, Hi. cbn [persistedRows converted map].
    rewrite app_nil_r. auto.
  - replace (0 <? Z.of_nat (List.length (converted (e :: events)))) with true
      by (symmetry; apply Z.ltb_lt; cbn [converted map List.length]; lia).
    unfold flushLocked. rewrite Hb, Hi.
    cbn [converted map app]. unfold backgroundWrite.
    cbn [inflight nth_error plugin db firstn skipn app setBuffer buffer].
    rewrite Hd, InsertBatch_NoFault_rows. auto.
Qed.

Lemma below_threshold_flushed_by_timer_witness :
  Z.of_nat (List.length twoEvents)
  < bufferSize (plugin (fresh (Some theStore) 0 0 emptyDB))
  /\ (db (submitAll (fresh (Some theStore) 0 0 emptyDB) twoEvents) = emptyDB
      /\ inflight (submitAll (fresh (Some theStore) 0 0 emptyDB) twoEvents)
         = []
      /\ rows (db (backgroundWrite
                     (timerTick
                        (submitAll (fresh (Some theStore) 0 0 emptyDB)
                                   twoEvents))
                     0 clock NoFault))
         = (rows emptyDB
            ++ persistedRows (seq emptyDB + 1) clock (converted twoEvents))%list
      /\ buffer (plugin (backgroundWrite
                           (timerTick
                              (submitAll (fresh (Some theStore) 0 0 emptyDB)
                                         twoEvents))
                           0 clock NoFault)) = []
      /\ inflight (backgroundWrite
                     (timerTick
                        (submitAll (fresh (Some theStore) 0 0 emptyDB)
                                   twoEvents))
                     0 clock NoFault) = []).
Proof.
  split; [reflexivity |].
  exact (below_threshold_flushed_by_timer 0 0 emptyDB twoEvents clock eq_refl).
Defined.

Lemma submitAll_app (w : World) (es1 es2 : list (Time * CoreRecord.t)) :
  submitAll w (es1 ++ es2) = submitAll (submitAll w es1) es2.
Proof. unfold submitAll. apply fold_left_app. Qed.

(** X14. The threshold flush.  When a new plug-in has received exactly
    a threshold of events, the last submit hands all of them, in
    submission order, to one background writer and empties the buffer,
    without a timer tick and without touching the store itself; the
    background write then stores one row per event if no database call
    fails. *)
Theorem threshold_reached_flushes (size interval : Z) (d : DB)
  (events : list (Time * CoreRecord.t)) (now : string) :
  Z.of_nat (List.length events)
  = bufferSize (plugin (fresh (Some theStore) size interval d)) ->
  buffer (plugin (submitAll (fresh (Some theStore) size interval d) events))
  = []
  /\ inflight (submitAll (fresh (Some theStore) size interval d) events)
     = [converted events]
  /\ db (submitAll (fresh (Some theStore) size interval d) events) = d
  /\ rows (db (backgroundWrite
                 (submitAll (fresh (Some theStore) size interval d) events)
                 0 now NoFault))
     = (rows d ++ persistedRows (seq d + 1) now (converted events))%list.
Proof.
  intros Hlen.
  destruct (fresh_invariants (Some theStore) size interval d)
    as [_ (Hsize & _)].
  destruct (exists_last (l := events)) as (init & [tnow record] & ->).
  { intros ->. cbn [List.length Z.of_nat] in Hlen. lia. }
  rewrite length_app in Hlen. cbn [List.length] in Hlen.
  rewrite submitAll_app.
  destruct (submitAll_buffers init (fresh (Some theStore) size interval d)
              theStore eq_refl eq_refl)
    as (Hb & Hi & Hd & Hst & Hs & Hsz).
  { cbn [fresh plugin NewPersistencePlugin buffer List.length] in *. lia. }
  cbn [fresh plugin NewPersistencePlugin buffer inflight db app] in Hb, Hi, Hd.
  fold (fresh (Some theStore) size interval d) in Hb, Hi, Hd, Hst, Hs, Hsz.
  set (w := submitAll (fresh (Some theStore) size interval d) init) in *.
  assert (Hconv : converted (init ++ [(tnow, record)])
                  = (converted init ++ [convertRecord tnow record])%list)
    by (unfold converted; now rewrite map_app).
  assert (E : submitAll w [(tnow, record)]
              = {| plugin := setBuffer (plugin w) [];
                   db := db w;
                   inflight := (inflight w
                     ++ [(buffer (plugin w)
                          ++ [convertRecord tnow record])%list])%list |}).
  { cbn [submitAll fold_left fst snd]. unfold HandleUsage.
    rewrite Hst, Hs. cbn [plugin setBuffer bufferSize buffer].
    rewrite length_app. cbn [List.length]. rewrite Hsz, Hb.
    unfold converted at 1. rewrite length_map.
    destruct (Z.leb_spec
                (bufferSize (plugin (fresh (Some theStore) size interval d)))
                (Z.of_nat (List.length init + 1))); [| lia].
    unfold flushLocked. cbn [plugin setBuffer buffer db inflight].
    destruct (converted init ++ [convertRecord tnow record])%list eqn:Hnil;
      [destruct (converted init); discriminate | reflexivity]. }
  rewrite E, Hb, Hi, Hd, Hconv.
  cbn [plugin setBuffer buffer inflight db app]. repeat split.
  unfold backgroundWrite.
  cbn [inflight nth_error plugin db].
  now rewrite InsertBatch_NoFault_rows.
Qed.

Lemma threshold_reached_flushes_witness :
  Z.of_nat (List.length twoEvents)
  = bufferSize (plugin (fresh (Some theStore) 2 0 emptyDB))
  /\ (buffer (plugin (submitAll (fresh (Some theStore) 2 0 emptyDB) twoEvents))
      = []
      /\ inflight (submitAll (fresh (Some theStore) 2 0 emptyDB) twoEvents)
         = [converted twoEvents]
      /\ db (submitAll (fresh (Some theStore) 2 0 emptyDB) twoEvents) = emptyDB
      /\ rows (db (backgroundWrite
                     (submitAll (fresh (Some theStore) 2 0 emptyDB) twoEvents)
                     0 clock NoFault))
         = (rows emptyDB
            ++ persistedRows (seq emptyDB + 1) clock
                 (converted twoEvents))%list).
Proof.
  split; [reflexivity |].
  exact (threshold_reached_flushes 2 0 emptyDB twoEvents clock eq_refl).
Defined.

End PluginFlushes.

(* ================================================================== *)
(** * The plug-in: what its records never carry *)
(* ================================================================== *)

Section PluginLatency.
Import decimal gotime listx sqlite persistence spec examples pluginspec
  pluginexamples.

Lemma convertRecord_pluginRecord (now : Time) (record : CoreRecord.t) :
  pluginRecord (convertRecord now record).
Proof. repeat split. Qed.

Lemma persistedRows_pluginRow (now : string) (records : list UsageRecord.t) :
  Forall pluginRecord records ->
  forall next, Forall pluginRow (persistedRows next now records).
Proof.
  induction 1 as [| record rest Hr _ IH]; intros next;
    cbn [persistedRows]; constructor; [exact Hr | apply IH].
Qed.

Lemma InsertBatch_pluginRow (d : DB) (now : string) (f : fault)
  (records : list UsageRecord.t) :
  Forall pluginRow (rows d) -> Forall pluginRecord records ->
  Forall pluginRow (rows (fst (InsertBatch d now f records))).
Proof.
  intros Hd Hr.
  destruct (InsertBatch_outcome d now f records)
    as [(_ & Hrows & _) | (m & _ & Hsame)].
  - rewrite Hrows. apply Forall_app. split; [exact Hd |].
    now apply persistedRows_pluginRow.
  - now rewrite Hsame.
Qed.

Lemma flushLocked_written (w : World) :
  pluginWritten w -> pluginWritten (flushLocked w).
Proof.
  intros (Hb & Hi & Hr). unfold flushLocked.
  destruct (buffer (plugin w)) as [| r rs] eqn:E.
  - unfold pluginWritten. rewrite E. auto.
  - unfold pluginWritten. cbn [plugin setBuffer buffer inflight db].
    repeat split; [constructor | | exact Hr].
    apply Forall_app. split; [exact Hi | now constructor].
Qed.

Lemma HandleUsage_written (w : World) (now : Time) (record : CoreRecord.t) :
  pluginWritten w -> pluginWritten (HandleUsage w now record).
Proof.
  intros Hw. unfold HandleUsage.
  destruct (storage (plugin w)); [| exact Hw].
  destruct (stopped (plugin w)); [exact Hw |].
  assert (Hw1 : pluginWritten
                  {| plugin := setBuffer (plugin w)
                                 (buffer (plugin w)
                                  ++ [convertRecord now record]);
                     db := db w; inflight := inflight w |}).
  { destruct Hw as (Hb & Hi & Hr). unfold pluginWritten.
    cbn [plugin setBuffer buffer inflight db]. repeat split; auto.
    apply Forall_app. split; [exact Hb |].
    constructor; [apply convertRecord_pluginRecord | constructor]. }
  cbv zeta.
  match goal with |- pluginWritten (if ?c then _ else _) => destruct c end;
    [now apply flushLocked_written | exact Hw1].
Qed.

Lemma Flush_written (w w' : World) (now : string) (f : fault) (e : error) :
  pluginWritten w -> Flush w now f = Returns (w', e) -> pluginWritten w'.
Proof.
  intros Hw. unfold Flush.
  destruct (buffer (plugin w)) as [| r rs] eqn:E.
  - intros H. injection H as <- _. exact Hw.
  - destruct (storage (plugin w)); [| discriminate].
    destruct Hw as (Hb & Hi & Hr). rewrite E in Hb.
    pose proof (InsertBatch_pluginRow (db w) now f (r :: rs) Hr Hb) as Hrows.
    destruct (InsertBatch (db w) now f (r :: rs)) as [d e'].
    intros H. injection H as <- _. unfold pluginWritten.
    cbn [plugin setBuffer buffer inflight db fst] in *.
    repeat split; [constructor | exact Hi | exact Hrows].
Qed.

Lemma step_written (w w' : World) (o : op) :
  pluginWritten w -> step w o = Returns w' -> pluginWritten w'.
Proof.
  intros Hw. destruct o as [now record | | i now f | now f | now f];
    cbn [step].
  - intros H. injection H as <-. now apply HandleUsage_written.
  - intros H. injection H as <-. unfold timerTick.
    destruct (_ && _); [now apply flushLocked_written | exact Hw].
  - intros H. injection H as <-. unfold backgroundWrite.
    destruct (nth_error (inflight w) i) as [batch |] eqn:E; [| exact Hw].
    destruct Hw as (Hb & Hi & Hr). unfold pluginWritten.
    cbn [plugin buffer inflight db]. repeat split; [exact Hb | |].
    + now apply Forall_remove_nth.
    + apply InsertBatch_pluginRow; [exact Hr |].
      apply nth_error_In in E.
      exact (proj1 (Forall_forall _ _) Hi _ E).
  - destruct (Flush w now f) as [[w1 e] | msg] eqn:E; [| discriminate].
    intros H. injection H as <-. exact (Flush_written _ _ _ _ _ Hw E).
  - unfold Stop. destruct (stopped (plugin w)).
    + intros H. injection H as <-. exact Hw.
    + cbv zeta. cbn [setStopped stopCh].
      destruct (stopCh (plugin w)); [discriminate |].
      match goal with
      | |- context [Flush ?w0 now f] =>
          destruct (Flush w0 now f) as [[w1 e] | msg] eqn:E; [| discriminate];
          intros H; injection H as <-;
          apply (Flush_written w0 _ now f e); [| exact E]
      end.
      destruct Hw as (Hb & Hi & Hr). unfold pluginWritten.
      cbn [plugin closeStopCh setStopped buffer inflight db]. auto.
Qed.

Lemma run_written (ops : list op) :
  forall w w', pluginWritten w -> run w ops = Returns w' -> pluginWritten w'.
Proof.
  induction ops as [| o ops IH]; intros w w' Hw; cbn [run].
  - intros H. injection H as <-. exact Hw.
  - destruct (step w o) as [w1 | msg] eqn:E; [| discriminate].
    apply IH. exact (step_written _ _ _ Hw E).
Qed.

(** X15. The plug-in never records a latency or a request identifier.
    Whatever operations run on a new plug-in over an empty store, every
    row of the store has latency 0, an empty request identifier, and
    status 500 or 200 according to its failed flag; so the mean latency
    of every result of GetTotals is 0, over every window, and every
    record that Query returns has latency 0 and no request
    identifier. *)
Theorem plugin_store_has_no_latency (st : option Storage) (size interval : Z)
  (ops : list op) (f : fault) (from to : Time) (filter : QueryFilter.t) :
  exists w,
    run (fresh st size interval emptyDB) ops = Returns w
    /\ Forall pluginRow (rows (db w))
    /\ (forall totals,
          GetTotals (db w) f from to = Ok totals ->
          TotalMetrics.AvgLatencyMs totals = ieee.zero)
    /\ (exists records,
          Query (db w) NoFault filter = Ok records
          /\ Forall pluginRecord records).
Proof.
  destruct (fresh_invariants st size interval emptyDB) as [Hinv Hbuf].
  destruct (run_invariants ops _ Hinv Hbuf) as (w & Hrun & _).
  exists w. split; [exact Hrun |].
  assert (Hw : pluginWritten w).
  { apply (run_written ops (fresh st size interval emptyDB) w); [| exact Hrun].
    repeat split; constructor. }
  destruct Hw as (_ & _ & Hrows). split; [exact Hrows |].
  pose proof (proj1 (Forall_forall _ _) Hrows) as Hall. split.
  - intros totals. unfold GetTotals.
    destruct (isNoFault f); [| discriminate].
    set (sel := List.filter (inWindow from to) (rows (db w))).
    destruct (sum (map total_tokens sel)); [| discriminate].
    destruct (sum (map prompt_tokens sel)); [| discriminate].
    destruct (sum (map completion_tokens sel)); [| discriminate].
    destruct (sum (map reasoning_tokens sel)); [| discriminate].
    destruct (sum (map cached_tokens sel)); [| discriminate].
    intros H. injection H as <-. cbn [TotalMetrics.AvgLatencyMs].
    apply avg_zero. apply Forall_forall. intros x Hx.
    apply in_map_iff in Hx. destruct Hx as (r & <- & Hr).
    apply filter_In in Hr. exact (proj1 (Hall r (proj1 Hr))).
  - eexists. split; [reflexivity |]. apply Forall_forall. intros x Hx.
    apply in_map_iff in Hx. destruct Hx as (r & <- & Hr).
    assert (Hin : In r (rows (db w))).
    { unfold limitClause in Hr.
      assert (Hs : In r (orderByTimestampDesc
                           (List.filter (whereClause filter) (rows (db w))))).
      { destruct (0 <? QueryFilter.Limit filter);
          [exact (In_firstn _ _ _ Hr) | exact Hr]. }
      unfold orderByTimestampDesc in Hs.
      apply (Permutation_in _ (sortBy_perm _ _)) in Hs.
      apply filter_In in Hs. exact (proj1 Hs). }
    destruct (Hall r Hin) as (H1 & H2 & H3).
    unfold pluginRecord. cbn [scanRow UsageRecord.LatencyMs
      UsageRecord.RequestID UsageRecord.Status UsageRecord.Failed]. auto.
Qed.

End PluginLatency.

(* ================================================================== *)
(** * Basic authentication *)
(* ================================================================== *)

Section AuthFacts.
Import subtle middleware.

Lemma byte_log2 (a : Z) : 0 <= a -> (a < 256 <-> Z.log2 a < 8).
Proof.
  intros Ha. destruct (Z.eq_dec a 0) as [-> | Hne].
  - cbn. lia.
  - change 256 with (2 ^ 8). apply Z.log2_lt_pow2. lia.
Qed.

Lemma isByte_lor (a b : Z) : isByte a -> isByte b -> isByte (Z.lor a b).
Proof.
  intros [Ha Ha'] [Hb Hb']. split; [apply Z.lor_nonneg; lia |].
  apply byte_log2; [apply Z.lor_nonneg; lia |].
  rewrite Z.log2_lor by lia.
  apply byte_log2 in Ha', Hb'; lia.
Qed.

Lemma isByte_lxor (a b : Z) : isByte a -> isByte b -> isByte (Z.lxor a b).
Proof.
  intros [Ha Ha'] [Hb Hb']. split; [apply Z.lxor_nonneg; lia |].
  apply byte_log2; [apply Z.lxor_nonneg; lia |].
  pose proof (Z.log2_lxor a b Ha Hb).
  apply byte_log2 in Ha', Hb'; lia.
Qed.

Lemma bytes_isByte (s : string) : Forall isByte (bytes s).
Proof.
  unfold bytes. apply Forall_forall. intros b Hb.
  apply in_map_iff in Hb. destruct Hb as (c & <- & _).
  pose proof (N_ascii_bounded c). unfold isByte. lia.
Qed.

Lemma bytes_inj (s t : string) : bytes s = bytes t -> s = t.
Proof.
  intros H. rewrite <- (string_of_list_ascii_of_string s),
    <- (string_of_list_ascii_of_string t). f_equal.
  unfold bytes in H. revert H.
  generalize (list_ascii_of_string s) (list_ascii_of_string t).
  induction l as [| a l IH]; intros [| b l']; cbn [map]; try discriminate;
    [reflexivity |].
  intros H. injection H as Hab Hl. f_equal; [| now apply IH].
  apply N2Z.inj in Hab.
  now rewrite <- (ascii_N_embedding a), <- (ascii_N_embedding b), Hab.
Qed.

Lemma ConstantTimeByteEq_zero (v : Z) :
  isByte v -> (ConstantTimeByteEq v 0 = 1 <-> v = 0).
Proof.
  intros [Hv Hv']. unfold ConstantTimeByteEq. rewrite Z.lxor_0_r. split.
  - intros H. destruct (Z.eq_dec v 0) as [-> | Hne]; [reflexivity |].
    rewrite Z.mod_small in H by lia.
    rewrite Z.shiftr_div_pow2 in H by lia.
    rewrite Z.div_small in H by lia. discriminate.
  - intros ->. reflexivity.
Qed.

Lemma differences_zero (l : list (Z * Z)) :
  forall v,
    isByte v -> Forall (fun xy => isByte (fst xy) /\ isByte (snd xy)) l ->
    isByte (fold_left (fun v xy => Z.lor v (Z.lxor (fst xy) (snd xy))) l v)
    /\ (fold_left (fun v xy => Z.lor v (Z.lxor (fst xy) (snd xy))) l v = 0
        <-> v = 0 /\ Forall (fun xy => fst xy = snd xy) l).
Proof.
  induction l as [| [x y] l IH]; intros v Hv Hl; cbn [fold_left fst snd].
  - split; [exact Hv |]. split; [intros ->; auto | tauto].
  - inversion Hl as [| ? ? [Hx Hy] Hl']; subst. cbn [fst snd] in *.
    destruct (IH (Z.lor v (Z.lxor x y))) as [Hb Hz];
      [apply isByte_lor; [exact Hv | now apply isByte_lxor] | exact Hl' |].
    split; [exact Hb |]. rewrite Hz, Z.lor_eq_0_iff, Z.lxor_eq_0_iff. split.
    + intros [[-> ->] Hall]. split; [reflexivity |]. now constructor.
    + intros [-> Hall]. inversion Hall; subst. cbn [fst snd] in *. auto.
Qed.

Lemma combine_equal (x : list Z) :
  forall y, List.length x = List.length y ->
            Forall (fun xy => fst xy = snd xy) (combine x y) -> x = y.
Proof.
  induction x as [| a x IH]; intros [| b y] Hlen Hall; try discriminate;
    [reflexivity |].
  cbn [combine] in Hall. inversion Hall; subst. cbn [fst snd] in *.
  f_equal; [assumption |]. apply IH; [now injection Hlen | assumption].
Qed.

Lemma combine_same (x : list Z) :
  Forall (fun xy => fst xy = snd xy) (combine x x).
Proof. induction x; cbn [combine]; constructor; auto. Qed.

Lemma Forall_combine (x : list Z) :
  forall y, Forall isByte x -> Forall isByte y ->
            Forall (fun xy => isByte (fst xy) /\ isByte (snd xy))
                   (combine x y).
Proof.
  induction x as [| a x IH]; intros [| b y] Hx Hy; cbn [combine];
    try constructor.
  - inversion Hx; inversion Hy; subst. cbn [fst snd]. auto.
  - inversion Hx; inversion Hy; subst. now apply IH.
Qed.

Lemma ConstantTimeCompare_equal (x y : list Z) :
  Forall isByte x -> Forall isByte y ->
  (ConstantTimeCompare x y = 1 <-> x = y).
Proof.
  intros Hx Hy. unfold ConstantTimeCompare.
  destruct (Nat.eqb_spec (List.length x) (List.length y)) as [Hlen | Hlen];
    cbn [negb].
  - destruct (differences_zero (combine x y) 0) as [Hb Hz];
      [unfold isByte; lia | now apply Forall_combine |].
    rewrite (ConstantTimeByteEq_zero _ Hb), Hz. split.
    + intros [_ Hall]. now apply combine_equal.
    + intros ->. split; [reflexivity | apply combine_same].
  - split; [discriminate | intros ->; contradiction].
Qed.

(** X16. Who passes basic authentication.  The middleware lets a
    request through exactly when no user name is configured, or no
    password is configured, or the request carries exactly the
    configured user name and password; every other request is answered
    with status 401 and a challenge.  In particular a configured user
    name with an empty password protects nothing. *)
Theorem BasicAuth_admits (username password : string)
  (basicAuth : option (string * string)) :
  (BasicAuth username password basicAuth = Next
   <-> username = "" \/ password = ""
       \/ basicAuth = Some (username, password))
  /\ (BasicAuth username password basicAuth = Next
      \/ exists message,
           BasicAuth username password basicAuth
           = AbortWithStatusJSON 401 (Some challenge) message).
Proof.
  unfold BasicAuth.
  destruct (String.eqb_spec username "") as [Hu | Hu]; cbn [orb].
  { split; [tauto | now left]. }
  destruct (String.eqb_spec password "") as [Hp | Hp].
  { split; [tauto | now left]. }
  destruct basicAuth as [[user pass] |].
  - pose proof (ConstantTimeCompare_equal (bytes user) (bytes username)
                  (bytes_isByte _) (bytes_isByte _)) as Hcu.
    pose proof (ConstantTimeCompare_equal (bytes pass) (bytes password)
                  (bytes_isByte _) (bytes_isByte _)) as Hcp.
    cbv zeta.
    destruct (Z.eqb_spec (ConstantTimeCompare (bytes user) (bytes username)) 1)
      as [Eu | Eu];
      destruct (Z.eqb_spec
                  (ConstantTimeCompare (bytes pass) (bytes password)) 1)
        as [Ep | Ep]; cbn [negb orb].
    + apply Hcu, bytes_inj in Eu. apply Hcp, bytes_inj in Ep. subst.
      split; [tauto | now left].
    + split; [| right; now eexists].
      split; [discriminate |].
      intros [H | [H | H]]; try contradiction.
      injection H as _ ->. exfalso. apply Ep. now apply Hcp.
    + split; [| right; now eexists].
      split; [discriminate |].
      intros [H | [H | H]]; try contradiction.
      injection H as -> _. exfalso. apply Eu. now apply Hcu.
    + split; [| right; now eexists].
      split; [discriminate |].
      intros [H | [H | H]]; try contradiction.
      injection H as -> _. exfalso. apply Eu. now apply Hcu.
  - split; [| right; now eexists].
    split; [discriminate |].
    intros [H | [H | H]]; try contradiction. discriminate.
Qed.

End AuthFacts.

(* ================================================================== *)
(** * The metrics handler *)
(* ================================================================== *)

Section HandlerFacts.
Import decimal gotime listx ieee sqlite persistence spec examples aggregate
  quantumspring handlerspec handlerexamples.

Variable parseRFC3339 : string -> result Time.
Variable formatRFC3339 : Time -> string.
Variable Add : Time -> Z -> Time.
Variable HideAPIKey : string -> string.

(** X17. The status of a metrics request.  GetMetrics answers 503
    when no storage is set up; otherwise 400 when a time parameter is
    not empty and does not parse, or the interval is given and is not
    one of the four names; otherwise 500 when GetTotals over the
    requested window returns an error (a failing database call or a
    token sum beyond the int64 range) and 200 when it returns totals.
    The by-model, timeseries and aggregate reads never change the
    status. *)
Theorem GetMetrics_status (storage : option Storage) (now : Time)
  (qFrom qTo : string) (qInterval : option string)
  (dTotals dByModel dSeries dAggTotals dAggByModel : DB)
  (fTotals fByModel fSeries fAggTotals fAggByModel : fault) :
  codeOf (GetMetrics parseRFC3339 formatRFC3339 Add HideAPIKey storage now
            qFrom qTo qInterval dTotals dByModel dSeries
            dAggTotals dAggByModel
            fTotals fByModel fSeries fAggTotals fAggByModel)
  = match storage with
    | None => 503
    | Some _ =>
        if negb (wellFormed parseRFC3339 qFrom qTo qInterval) then 400
        else if isOk (GetTotals dTotals fTotals
                        (requested parseRFC3339 qFrom (Add now (- 24 * hour_ns)))
                        (requested parseRFC3339 qTo now))
             then 200 else 500
    end.
Proof.
  unfold GetMetrics, wellFormed, requested, parseTime.
  destruct storage as [s |]; [| reflexivity].
  destruct (String.eqb qFrom ""); cbn [orb andb isOk];
    [| destruct (parseRFC3339 qFrom); cbn [isOk andb negb codeOf];
       [| reflexivity]];
    (destruct (String.eqb qTo ""); cbn [orb andb isOk];
     [| destruct (parseRFC3339 qTo); cbn [isOk andb negb codeOf];
        [| reflexivity]]);
    (destruct qInterval as [v |];
     [destruct (validInterval v) eqn:Ev; cbn [negb codeOf];
      [| reflexivity]
     | change (validInterval "hour") with true; cbn [negb]]);
    match goal with
    | |- context [GetTotals ?d ?f ?a ?b] =>
        destruct (GetTotals d f a b); reflexivity
    end.
Qed.

(** X18. What a metrics response holds.  Whenever GetMetrics answers
    with a metrics body, the status is 200 and the body is determined
    field by field: the totals are those of GetTotals over the
    requested window, with the success rate
    float64(successes) / float64(requests) * 100 (0 without requests);
    by_model and timeseries are the rows of GetByModel and
    GetTimeseries over the same window, or empty when that read fails;
    by_api_key and by_provider are empty, whatever Aggregate returns;
    the query period is the requested window. *)
Theorem GetMetrics_body (storage : option Storage) (now : Time)
  (qFrom qTo : string) (qInterval : option string)
  (dTotals dByModel dSeries dAggTotals dAggByModel : DB)
  (fTotals fByModel fSeries fAggTotals fAggByModel : fault)
  (code : Z) (response : MetricsResponse.t) :
  GetMetrics parseRFC3339 formatRFC3339 Add HideAPIKey storage now
    qFrom qTo qInterval dTotals dByModel dSeries dAggTotals dAggByModel
    fTotals fByModel fSeries fAggTotals fAggByModel
  = JSON code (MetricsBody response) ->
  code = 200
  /\ exists from to totals,
       parseTime parseRFC3339 qFrom (Add now (- 24 * hour_ns)) = Ok from
       /\ parseTime parseRFC3339 qTo now = Ok to
       /\ GetTotals dTotals fTotals from to = Ok totals
       /\ response
          = {| MetricsResponse.Totals :=
                 {| TotalsResponse.Requests := TotalMetrics.Requests totals;
                    TotalsResponse.Tokens := TotalMetrics.Tokens totals;
                    TotalsResponse.PromptTokens :=
                      TotalMetrics.PromptTokens totals;
                    TotalsResponse.CompletionTokens :=
                      TotalMetrics.CompletionTokens totals;
                    TotalsResponse.ReasoningTokens :=
                      TotalMetrics.ReasoningTokens totals;
                    TotalsResponse.CachedTokens :=
                      TotalMetrics.CachedTokens totals;
                    TotalsResponse.FailedRequests :=
                      TotalMetrics.FailedRequests totals;
                    TotalsResponse.SuccessRate :=
                      if 0 <? TotalMetrics.Requests totals
                      then fmul (fdiv (ofInt (TotalMetrics.SuccessRequests
                                                totals))
                                      (ofInt (TotalMetrics.Requests totals)))
                                (ofInt 100)
                      else zero;
                    TotalsResponse.AvgLatencyMs :=
                      TotalMetrics.AvgLatencyMs totals |};
               MetricsResponse.ByModel :=
                 map (fun m =>
                        ModelMetricsResponse.mk
                          (ModelMetrics.Model m) (ModelMetrics.Requests m)
                          (ModelMetrics.Tokens m)
                          (ModelMetrics.PromptTokens m)
                          (ModelMetrics.CompletionTokens m)
                          (ModelMetrics.AvgLatencyMs m)
                          (ModelMetrics.FailedRequests m))
                     (orEmpty (GetByModel dByModel fByModel from to));
               MetricsResponse.ByAPIKey := [];
               MetricsResponse.ByProvider := [];
               MetricsResponse.Timeseries :=
                 map (fun p =>
                        TimeseriesResponse.mk
                          (formatRFC3339 (TimeseriesPoint.BucketStart p))
                          (TimeseriesPoint.Requests p)
                          (TimeseriesPoint.Tokens p)
                          (TimeseriesPoint.PromptTokens p)
                          (TimeseriesPoint.CompletionTokens p)
                          (TimeseriesPoint.AvgLatencyMs p)
                          (TimeseriesPoint.FailedRequests p))
                     (orEmpty
                        (GetTimeseries dSeries fSeries from to
                           match qInterval with
                           | Some v => v
                           | None => "hour"
                           end));
               MetricsResponse.QueryPeriod :=
                 {| QueryPeriodResponse.From := formatRFC3339 from;
                    QueryPeriodResponse.To := formatRFC3339 to |} |}.
Proof.
  unfold GetMetrics.
  destruct storage as [s |]; [| discriminate].
  destruct (parseTime parseRFC3339 qFrom (Add now (- 24 * hour_ns)))
    as [from | msg]; [| discriminate].
  destruct (parseTime parseRFC3339 qTo now) as [to | msg]; [| discriminate].
  cbv zeta.
  destruct (negb (validInterval _)); [discriminate |].
  destruct (GetTotals dTotals fTotals from to) as [totals | msg] eqn:Et;
    [| discriminate].
  intros H. injection H as <- <-.
  split; [reflexivity |].
  exists from, to, totals.
  split; [reflexivity |]. split; [reflexivity |]. split; [exact Et |].
  assert (Hagg : forall a,
             Aggregate dAggTotals dAggByModel fAggTotals fAggByModel
               {| AggregateQuery.From := from; AggregateQuery.To := to;
                  AggregateQuery.Interval :=
                    match qInterval with Some v => v | None => "hour" end;
                  AggregateQuery.GroupBy := ["model"; "api_key"; "provider"] |}
             = Ok a ->
             AggregateResult.ByAPIKey a = []
             /\ AggregateResult.ByProvider a = []).
  { intros a. unfold Aggregate.
    destruct (GetTotals dAggTotals fAggTotals _ _); [| discriminate].
    destruct (GetByModel dAggByModel fAggByModel _ _); [| discriminate].
    intros Ha. injection Ha as <-. split; reflexivity. }
  unfold successRate, orEmpty.
  destruct (Aggregate dAggTotals dAggByModel fAggTotals fAggByModel _)
    as [a | msg] eqn:Ea.
  - destruct (Hagg a eq_refl) as [-> ->]. reflexivity.
  - reflexivity.
Qed.

End HandlerFacts.

Section HandlerWitness.
Import decimal gotime listx ieee sqlite persistence spec examples aggregate
  quantumspring handlerspec handlerexamples.

Lemma GetMetrics_body_witness :
  exists response,
    dailyMetrics = JSON 200 (MetricsBody response)
    /\ MetricsResponse.ByAPIKey response = []
    /\ MetricsResponse.ByProvider response = []
    /\ TotalsResponse.Requests (MetricsResponse.Totals response) = 3
    /\ TotalsResponse.SuccessRate (MetricsResponse.Totals response)
       = S754_finite false 4691249611844266 (-46).
Proof.
  eexists. split; [vm_compute; reflexivity |].
  destruct (GetMetrics_body exampleParse formatUTC noShift hide
              (Some theStore) hourAfter
              "2025-06-01T11:00:00Z" "2025-06-01T13:00:00Z" (Some "day")
              totalsStore totalsStore totalsStore totalsStore totalsStore
              NoFault NoFault NoFault NoFault NoFault 200 _
              ltac:(vm_compute; reflexivity))
    as (_ & from & to & totals & Hf & Ht & Htot & Hr).
  vm_compute in Hf. injection Hf as <-.
  vm_compute in Ht. injection Ht as <-.
  vm_compute in Htot. injection Htot as <-.
  repeat split; rewrite ?Hr; reflexivity.
Defined.

End HandlerWitness.

(* ================================================================== *)
(** * Opening the store *)
(* ================================================================== *)

Section InitFacts.
Import persistence storeinit.

Variable UserHomeDir : result string.
Variable Join : string -> string -> string.
Variable Dir : string -> string.
Variable MkdirAll : string -> error.
Variable NewSQLiteStorage : string -> result Storage.

(** X19. A one-byte database path panics.  Whatever the file system
    and the driver do, initSQLite panics exactly on the paths of length
    one (such as a file named x in the working directory): the empty
    path is replaced by the default before the first two bytes are
    sliced off, and every longer path is long enough.  On every other
    path it returns, and what it returns for the empty path is what it
    returns for the default path. *)
Theorem initSQLite_panics_on_one_byte (path : string) :
  ((exists msg,
      initSQLite UserHomeDir Join Dir MkdirAll NewSQLiteStorage path
      = Panics msg)
   <-> String.length path = 1%nat)
  /\ initSQLite UserHomeDir Join Dir MkdirAll NewSQLiteStorage ""
     = initSQLite UserHomeDir Join Dir MkdirAll NewSQLiteStorage
         "./data/usage.db".
Proof.
  split; [| reflexivity].
  unfold initSQLite. destruct (String.eqb_spec path "") as [-> | Hne].
  - cbn -[String.eqb substring]. split; [| discriminate].
    intros [msg H].
    destruct (if String.eqb _ _ then _ else _) in H;
      destruct (MkdirAll _); try discriminate;
      destruct (NewSQLiteStorage _); discriminate.
  - cbv zeta. destruct (Nat.ltb_spec (String.length path) 2) as [Hlt | Hge].
    + split; [intros _ | intros _; now eexists].
      destruct path as [| c [| c' rest]]; cbn [String.length] in *;
        [contradiction | reflexivity | lia].
    + split; [| intros Hone; rewrite Hone in Hge; lia].
      intros [msg H].
      destruct (if String.eqb _ _ then _ else _) in H;
        destruct (MkdirAll _); try discriminate;
        destruct (NewSQLiteStorage _); discriminate.
Qed.

End InitFacts.
